(** * Triangle-Assignment: the geometry engine ([geometry.ts])

    A shallow embedding of [triangleData] and its helpers.  ECMAScript
    numbers are IEEE 754 binary64 values; they are modelled by the
    executable specification [spec_float] of the standard library
    (precision 53, exponent bound 1024), so rounding, overflow, signed
    zeros, infinities and NaN behave as they do in the program. *)

From Stdlib Require Import ZArith Bool String List Lia SpecFloat.
From Stdlib Require Import Ascii DecimalString.
Import ListNotations.

Local Open Scope Z_scope.

(** ** ECMAScript numbers *)

Module Num.

Definition prec : Z := 53.
Definition emax : Z := 1024.

Definition number : Type := spec_float.

Definition NaN : number := S754_nan.
Definition Infinity : number := S754_infinity false.

Definition add : number -> number -> number := SFadd prec emax.
Definition sub : number -> number -> number := SFsub prec emax.
Definition mul : number -> number -> number := SFmul prec emax.
Definition div : number -> number -> number := SFdiv prec emax.
Definition sqrt : number -> number := SFsqrt prec emax.
Definition neg : number -> number := SFopp.

(** [x < y] and [x <= y]: false as soon as an operand is NaN. *)
Definition lt (u v : number) : bool := SFltb u v.
Definition le (u v : number) : bool := SFleb u v.

(** An integer literal (exact below 2^53). *)
Definition of_Z (z : Z) : number := binary_normalize prec emax z 0 false.

(** A value that is a well-formed binary64 datum. *)
Definition wf (u : number) : bool := valid_binary prec emax u.

(** The global [isFinite] on a number. *)
Definition isFinite (u : number) : bool :=
  match u with
  | S754_nan | S754_infinity _ => false
  | S754_zero _ | S754_finite _ _ _ => true
  end.

Definition isNaN (u : number) : bool :=
  match u with S754_nan => true | _ => false end.

(** [Math.abs]. *)
Definition Math_abs : number -> number := SFabs.

(** [Math.min] and [Math.max] on two arguments (ECMA-262, 21.3.2.24/25):
    NaN if an argument is NaN; -0 is treated as smaller than +0. *)
Definition Math_min (u v : number) : number :=
  match u, v with
  | S754_nan, _ | _, S754_nan => S754_nan
  | S754_zero su, S754_zero sv => S754_zero (su || sv)
  | _, _ => if lt v u then v else u
  end.

Definition Math_max (u v : number) : number :=
  match u, v with
  | S754_nan, _ | _, S754_nan => S754_nan
  | S754_zero su, S754_zero sv => S754_zero (su && sv)
  | _, _ => if lt u v then v else u
  end.

(** [Math.PI] = 0x400921FB54442D18. *)
Definition Math_PI : number := S754_finite false 7074237752028440 (-51).

End Num.

Export Num.

Declare Scope num_scope.
Delimit Scope num_scope with num.
Bind Scope num_scope with number.
Infix "+" := add : num_scope.
Infix "-" := sub : num_scope.
Infix "*" := mul : num_scope.
Infix "/" := div : num_scope.
Infix "<?" := lt : num_scope.
Infix "<=?" := le : num_scope.

(** ** The host's approximated functions

    ECMA-262 leaves [Math.hypot] and [Math.acos] "implementation-
    approximated"; the engine is therefore parameterised by them. *)

Class MathHost : Type := {
  Math_hypot : number -> number -> number;
  Math_acos : number -> number
}.

(** ** [geometry.ts] *)

(** A 2D point in canvas / screen coordinates. *)
Record Pt : Type := mkPt { x : number; y : number }.

(** An object with the three keys [a], [b], [c]: side lengths
    ([TriangleSides]) and side midpoints ([mids]). *)
Record abc (T : Type) : Type := mkAbc { a : T; b : T; c : T }.
Arguments mkAbc {T}.
Arguments a {T}.
Arguments b {T}.
Arguments c {T}.

Definition TriangleSides : Type := abc number.

(** Triangle internal angles (in degrees), named by vertex. *)
Record TriangleAngles : Type := mkAngles { A : number; B : number; C : number }.

(** Metadata returned from triangle analysis; every field but [valid] is
    optional in the interface. *)
Record TriangleData : Type := mkData {
  valid : bool;
  reasonIfInvalid : option string;
  sides : option TriangleSides;
  angles : option TriangleAngles;
  perimeter : option number;
  area : option number;
  mids : option (abc Pt)
}.

(** The object literal [{ valid: false, reasonIfInvalid: msg }]. *)
Definition invalid (msg : string) : TriangleData :=
  {| valid := false; reasonIfInvalid := Some msg; sides := None;
     angles := None; perimeter := None; area := None; mids := None |}.

(** Small epsilon to guard against floating-point issues: the literal
    [1e-9], that is 0x3E112E0BE826D695. *)
Definition EPS : number := S754_finite false 4835703278458517 (-82).

Definition num_m1 : number := Eval vm_compute in of_Z (-1).
Definition num_1 : number := Eval vm_compute in of_Z 1.
Definition num_2 : number := Eval vm_compute in of_Z 2.
Definition num_180 : number := Eval vm_compute in of_Z 180.

Section Geometry.

Context {host : MathHost}.
Local Open Scope num_scope.

(** Clamp a number into [min, max]. *)
Definition clamp (v min max : number) : number :=
  Math_max min (Math_min max v).

(** Euclidean distance between two points. *)
Definition distance (p q : Pt) : number :=
  Math_hypot (x q - x p) (y q - y p).

(** Convert radians to degrees. *)
Definition toDeg (rad : number) : number :=
  (rad * num_180) / Math_PI.

(** Signed area *2 (shoelace). *)
Definition doubleSignedArea (A B C : Pt) : number :=
  x A * (y B - y C) + x B * (y C - y A) + x C * (y A - y B).

(** True if the three points are (almost) collinear. *)
Definition isCollinear (A B C : Pt) : bool :=
  Math_abs (doubleSignedArea A B C) <=? EPS.

Definition midpoint (P Q : Pt) : Pt :=
  {| x := (x P + x Q) / num_2; y := (y P + y Q) / num_2 |}.

(** The coincidence test of one pair of points. *)
Definition coincide (P Q : Pt) : bool :=
  (Math_abs (x P - x Q) <? EPS) && (Math_abs (y P - y Q) <? EPS).

Definition triangleData (points : Pt * Pt * Pt) : TriangleData :=
  let '(A, B, C) := points in
  if coincide A B || coincide A C || coincide B C then
    invalid "Two or more points coincide."
  else
    let a := distance B C in
    let b := distance A C in
    let c := distance A B in
    if negb (isFinite a) || negb (isFinite b) || negb (isFinite c) then
      invalid "Non-finite side length detected."
    else
      let area2 := Math_abs (doubleSignedArea A B C) / num_2 in
      if area2 <=? EPS then
        invalid "Degenerate (collinear) triangle."
      else
        let cosA := clamp ((b * b + c * c - a * a) / (num_2 * b * c)) num_m1 num_1 in
        let cosB := clamp ((a * a + c * c - b * b) / (num_2 * a * c)) num_m1 num_1 in
        let cosC := clamp ((a * a + b * b - c * c) / (num_2 * a * b)) num_m1 num_1 in
        let Adeg := toDeg (Math_acos cosA) in
        let Bdeg := toDeg (Math_acos cosB) in
        let Cdeg := toDeg (Math_acos cosC) in
        let perimeter := a + b + c in
        let mids := {| a := midpoint B C; b := midpoint A C; c := midpoint A B |} in
        {| valid := true;
           reasonIfInvalid := None;
           sides := Some {| a := a; b := b; c := c |};
           angles := Some {| A := Adeg; B := Bdeg; C := Cdeg |};
           perimeter := Some perimeter;
           area := Some area2;
           mids := Some mids |}.

End Geometry.

(** ** A reference host

    [hypot_cr] is the correctly rounded [Math.hypot] on two arguments: the
    special cases of ECMA-262 21.3.2.18, then the binary64 value nearest
    to the exact square root of the exact sum of squares. *)

Definition hypot_cr (u v : number) : number :=
  match u, v with
  | S754_infinity _, _ | _, S754_infinity _ => Infinity
  | S754_nan, _ | _, S754_nan => NaN
  | S754_zero _, S754_zero _ => S754_zero false
  | S754_zero _, S754_finite _ m e | S754_finite _ m e, S754_zero _ =>
      S754_finite false m e
  | S754_finite _ mu eu, S754_finite _ mv ev =>
      let e := Z.min eu ev in
      let su := Zpos mu * 2 ^ (eu - e) in
      let sv := Zpos mv * 2 ^ (ev - e) in
      sqrt (S754_finite false (Z.to_pos (su * su + sv * sv)) (2 * e))
  end.

(** [acos_fx] evaluates the inverse cosine in fixed point with 192
    fractional bits (Taylor series of the arcsine after the half-angle
    reduction, Machin's formula for pi) and rounds once to binary64. *)

Module Fixed.

Definition frac : Z := 192.
Definition one : Z := 2 ^ frac.
Definition fmul (p q : Z) : Z := (p * q) / one.
Definition fsqrt (p : Z) : Z := Z.sqrt (p * one).

(** The partial sum of [atan (1/k)]: [pw] is the current odd power of [1/k]. *)
Fixpoint atan_inv_sum (fuel : nat) (k2 pw j acc : Z) : Z :=
  match fuel with
  | O => acc
  | S fuel' =>
      let t := pw / (2 * j + 1) in
      atan_inv_sum fuel' k2 (pw / k2) (j + 1)
                   (if Z.even j then acc + t else acc - t)
  end.

Definition atan_inv (k : Z) : Z := atan_inv_sum 150 (k * k) (one / k) 0 0.

Definition pi : Z := 16 * atan_inv 5 - 4 * atan_inv 239.

(** The partial sum of [asin t] for [0 <= t <= 1/2]: [u] is
    [(2j)! / (4^j (j!)^2) * t^(2j+1)]. *)
Fixpoint asin_sum (fuel : nat) (t2 u j acc : Z) : Z :=
  match fuel with
  | O => acc
  | S fuel' =>
      asin_sum fuel' t2 (fmul u t2 * (2 * j + 1) / (2 * j + 2)) (j + 1)
               (acc + u / (2 * j + 1))
  end.

Definition asin (t : Z) : Z := asin_sum 120 (fmul t t) t 0 0.

(** Inverse cosine of [v] with [-one <= v <= one]. *)
Definition acos (v : Z) : Z :=
  if 2 * v >? one then 2 * asin (fsqrt ((one - v) / 2))
  else if 2 * v <? - one then pi - 2 * asin (fsqrt ((one + v) / 2))
  else if v <? 0 then pi / 2 + asin (- v)
  else pi / 2 - asin v.

Definition of_finite (s : bool) (m : positive) (e : Z) : Z :=
  let v := if 0 <=? e + frac then Zpos m * 2 ^ (e + frac)
           else Zpos m / 2 ^ (- (e + frac)) in
  if s then - v else v.

Definition to_number (v : Z) : number := binary_normalize prec emax v (- frac) false.

End Fixed.

Definition acos_fx (u : number) : number :=
  match u with
  | S754_nan | S754_infinity _ => NaN
  | S754_zero _ => Fixed.to_number (Fixed.acos 0)
  | S754_finite s m e =>
      if (num_1 <? u)%num || (u <? num_m1)%num then NaN
      else if SFeqb u num_1 then S754_zero false
      else Fixed.to_number (Fixed.acos (Fixed.of_finite s m e))
  end.

Definition reference_host : MathHost :=
  {| Math_hypot := hypot_cr; Math_acos := acos_fx |}.

(** ** What ECMA-262 fixes of the two approximated functions

    21.3.2.18 ([Math.hypot]): +Infinity if an argument is infinite; else
    NaN if an argument is NaN; +0 if all arguments are zeros.
    21.3.2.2 ([Math.acos]): NaN for NaN and outside [-1, 1]; +0 at 1. *)

Definition isInfinite (u : number) : bool :=
  match u with S754_infinity _ => true | _ => false end.

Definition isZero (u : number) : bool :=
  match u with S754_zero _ => true | _ => false end.

Record ES_Math (host : MathHost) : Prop := {
  hypot_infinite : forall u v,
    isInfinite u = true \/ isInfinite v = true -> Math_hypot u v = Infinity;
  hypot_nan : forall u v,
    isInfinite u = false -> isInfinite v = false ->
    isNaN u = true \/ isNaN v = true -> Math_hypot u v = NaN;
  hypot_zero : forall u v,
    isZero u = true -> isZero v = true -> Math_hypot u v = S754_zero false;
  acos_nan : Math_acos NaN = NaN;
  acos_above : forall u, (num_1 <? u)%num = true -> Math_acos u = NaN;
  acos_below : forall u, (u <? num_m1)%num = true -> Math_acos u = NaN;
  acos_one : Math_acos num_1 = S754_zero false
}.

(** A host whose [Math.hypot] only looks at the magnitudes of its
    arguments (the sum of squares does). *)
Definition hypot_even (host : MathHost) : Prop :=
  forall u v, Math_hypot u v = Math_hypot (Math_abs u) (Math_abs v).

(** ** The run-time view

    At run time the argument is an array that may hold fewer than three
    objects, a property read on [undefined] throws, and the application
    keeps module-level state: the buffer [points] of [main.ts] and the
    text of the output element of [ui.ts].  [JS T] is a computation that
    threads this state and completes normally or abruptly. *)

Module Runtime.

Record World : Type := mkWorld { points : list Pt; textContent : string }.

Inductive completion (T : Type) : Type :=
| Normal (v : T)
| Throw (e : string).
Arguments Normal {T}.
Arguments Throw {T}.

Definition JS (T : Type) : Type := World -> completion T * World.

Definition ret {T} (v : T) : JS T := fun w => (Normal v, w).

Definition throw {T} (e : string) : JS T := fun w => (Throw e, w).

Definition bind {T U} (m : JS T) (k : T -> JS U) : JS U :=
  fun w => match m w with
           | (Normal v, w') => k v w'
           | (Throw e, w') => (Throw e, w')
           end.

Notation "v <- m ;; k" := (bind m (fun v => k))
  (at level 61, m at next level, right associativity).

(** The property read [o.f] where [o] may be [undefined]. *)
Definition get {T} (f : Pt -> T) (o : option Pt) : JS T :=
  match o with
  | Some p => ret (f p)
  | None => throw "TypeError"
  end.

Section Engine.

Context {host : MathHost}.
Local Open Scope num_scope.

(** [Math.abs(P.x - Q.x) < EPS && Math.abs(P.y - Q.y) < EPS],
    left to right with the short circuit of [&&]. *)
Definition coincide (P Q : option Pt) : JS bool :=
  px <- get x P ;; qx <- get x Q ;;
  if Math_abs (px - qx) <? EPS then
    py <- get y P ;; qy <- get y Q ;;
    ret (Math_abs (py - qy) <? EPS)
  else ret false.

(** [l || r] with its short circuit. *)
Definition or_else (l r : JS bool) : JS bool :=
  v <- l ;; if v then ret true else r.

Definition distance (p q : option Pt) : JS number :=
  qx <- get x q ;; px <- get x p ;;
  qy <- get y q ;; py <- get y p ;;
  ret (Math_hypot (qx - px) (qy - py)).

Definition doubleSignedArea (A B C : option Pt) : JS number :=
  ax <- get x A ;; by_ <- get y B ;; cy <- get y C ;;
  bx <- get x B ;; cy' <- get y C ;; ay <- get y A ;;
  cx <- get x C ;; ay' <- get y A ;; by' <- get y B ;;
  ret (ax * (by_ - cy) + bx * (cy' - ay) + cx * (ay' - by')).

Definition midpoint (P Q : option Pt) : JS Pt :=
  px <- get x P ;; qx <- get x Q ;;
  py <- get y P ;; qy <- get y Q ;;
  ret {| x := (px + qx) / num_2; y := (py + qy) / num_2 |}.

Definition triangleData (points : list Pt) : JS TriangleData :=
  let A := nth_error points 0 in
  let B := nth_error points 1 in
  let C := nth_error points 2 in
  co <- or_else (or_else (coincide A B) (coincide A C)) (coincide B C) ;;
  if co then ret (invalid "Two or more points coincide.")
  else
    a <- distance B C ;;
    b <- distance A C ;;
    c <- distance A B ;;
    if negb (isFinite a) || negb (isFinite b) || negb (isFinite c) then
      ret (invalid "Non-finite side length detected.")
    else
      d <- doubleSignedArea A B C ;;
      let area2 := Math_abs d / num_2 in
      if area2 <=? EPS then
        ret (invalid "Degenerate (collinear) triangle.")
      else
        let cosA := clamp ((b * b + c * c - a * a) / (num_2 * b * c)) num_m1 num_1 in
        let cosB := clamp ((a * a + c * c - b * b) / (num_2 * a * c)) num_m1 num_1 in
        let cosC := clamp ((a * a + b * b - c * c) / (num_2 * a * b)) num_m1 num_1 in
        let Adeg := toDeg (Math_acos cosA) in
        let Bdeg := toDeg (Math_acos cosB) in
        let Cdeg := toDeg (Math_acos cosC) in
        let perimeter := a + b + c in
        ma <- midpoint B C ;;
        mb <- midpoint A C ;;
        mc <- midpoint A B ;;
        ret {| valid := true;
               reasonIfInvalid := None;
               sides := Some (mkAbc a b c);
               angles := Some (mkAngles Adeg Bdeg Cdeg);
               perimeter := Some perimeter;
               area := Some area2;
               mids := Some (mkAbc ma mb mc) |}.

End Engine.

End Runtime.

(** ** Test inputs *)

(** The point with integer coordinates [(u, v)]. *)
Definition P (u v : Z) : Pt := {| x := of_Z u; y := of_Z v |}.

(** The reasons the engine reports. *)
Definition reason_coincide : string := "Two or more points coincide.".
Definition reason_nonfinite : string := "Non-finite side length detected.".
Definition reason_degenerate : string := "Degenerate (collinear) triangle.".

Section Checks.

Context {host : MathHost}.
Local Open Scope num_scope.

(** The three conditions tested by [triangleData], in source order. *)
Definition anyCoincide (A B C : Pt) : bool :=
  coincide A B || coincide A C || coincide B C.

Definition anyNonFinite (A B C : Pt) : bool :=
  negb (isFinite (distance B C)) || negb (isFinite (distance A C))
  || negb (isFinite (distance A B)).

Definition unsignedArea (A B C : Pt) : number :=
  Math_abs (doubleSignedArea A B C) / num_2.

Definition degenerate (A B C : Pt) : bool := unsignedArea A B C <=? EPS.

End Checks.

(** A point both of whose coordinates are finite numbers. *)
Definition finiteCoords (p : Pt) : bool := isFinite (x p) && isFinite (y p).

(** A computation is pure when its completion does not depend on the
    application state and the state is handed back untouched. *)
Definition pure_js {T} (m : Runtime.JS T) : Prop :=
  exists r, forall w, m w = (r, w).

(** [Math.PI / 2], the binary64 value nearest to pi/2. *)
Definition half_PI : number := S754_finite false 7074237752028440 (-52).

(** A host whose [Math.hypot] returns the correctly rounded value at
    [(u, v)]. *)
Definition hypot_correct_at (host : MathHost) (u v : number) : Prop :=
  Math_hypot u v = hypot_cr u v.

(** A triangle whose doubled area overflows: A=(1e200, 0),
    B=(1e200, 1e200), C=(0, -1e200). *)
Definition huge_A : Pt := P (10 ^ 200) 0.
Definition huge_B : Pt := P (10 ^ 200) (10 ^ 200).
Definition huge_C : Pt := P 0 (- 10 ^ 200).

(** The clamped cosine of the angle opposite the side [o], between the
    sides [s] and [t] (Law of Cosines). *)
Definition cosine (o s t : number) : number :=
  clamp ((s * s + t * t - o * o) / (num_2 * s * t))%num num_m1 num_1.

(** A cosine handed to [Math.acos]: NaN, or a number of [-1, 1]. *)
Definition clamped (k : number) : Prop :=
  k = NaN \/ ((num_m1 <=? k)%num = true /\ (k <=? num_1)%num = true).

(** [v] lies in the closed interval from [lo] to [hi]. *)
Definition between (lo hi v : number) : Prop :=
  (lo <=? v)%num = true /\ (v <=? hi)%num = true.

(** ECMA-262 leaves [Math.acos] implementation-approximated.  At the
    argument [k] the host answers as the inverse cosine does: with a
    number of the format in the closed interval from 0 to [Math.PI]. *)
Definition acos_in_range {host : MathHost} (k : number) : Prop :=
  wf (Math_acos k) = true /\ between (of_Z 0) Math_PI (Math_acos k).

(** An obtuse sliver: A=(0,0), B=(2^27,0), C=(2^27+1,1), that is
    B=(134217728, 0) and C=(134217729, 1), of area 2^26.  Its angles are
    about 0.0000004, 135 and 45 degrees. *)
Definition sliver_A : Pt := P 0 0.
Definition sliver_B : Pt := P (2 ^ 27) 0.
Definition sliver_C : Pt := P (2 ^ 27 + 1) 1.

(** The tolerance [1e-6] on the sum of the angles. *)
Definition angle_tolerance : number := (of_Z 1 / of_Z 1000000)%num.

(** A thin triangle: A=(0,0), B=(2^28,0), C=(2^27,1), of area 2^27. *)
Definition thin_A : Pt := P 0 0.
Definition thin_B : Pt := P (2 ^ 28) 0.
Definition thin_C : Pt := P (2 ^ 27) 1.

(** ** Exact values

    Every finite binary64 number is an integer multiple of 2^-1074;
    [ulps u] is that integer. *)

Definition ulps (u : number) : Z :=
  match u with
  | S754_finite s m e => cond_Zopp s (Zpos m * 2 ^ (e + 1074))
  | _ => 0
  end.

(** The operations of the side computation incur no rounding: the
    difference, the sum, or the value of [Math.hypot], is the exact one. *)

Definition exact_sub (u v : number) : Prop :=
  isFinite (u - v)%num = true /\ ulps (u - v)%num = ulps u - ulps v.

Definition exact_add (u v : number) : Prop :=
  isFinite (u + v)%num = true /\ wf (u + v)%num = true
  /\ ulps (u + v)%num = ulps u + ulps v.

Definition exact_hypot {host : MathHost} (u v : number) : Prop :=
  wf (Math_hypot u v) = true /\ 0 <= ulps (Math_hypot u v)
  /\ ulps (Math_hypot u v) * ulps (Math_hypot u v)
     = ulps u * ulps u + ulps v * ulps v.

Definition exact_distance {host : MathHost} (p q : Pt) : Prop :=
  exact_sub (x q) (x p) /\ exact_sub (y q) (y p)
  /\ exact_hypot (x q - x p)%num (y q - y p)%num.

Definition exact_sides {host : MathHost} (A B C : Pt) : Prop :=
  exact_distance B C /\ exact_distance A C /\ exact_distance A B
  /\ exact_add (distance A C) (distance A B)
  /\ exact_add (distance B C) (distance A B)
  /\ exact_add (distance B C) (distance A C).

(** The unit in the last place of a finite number (the distance to the
    next number of larger magnitude), in units of 2^-1074. *)
Definition unit_ulps (u : number) : Z :=
  match u with
  | S754_finite _ _ e => 2 ^ (e + 1074)
  | _ => 1
  end.

(** The value of [Math.hypot] at [(u, v)] is a finite number within one
    unit in its last place of the exact root of [u^2 + v^2]. *)
Definition hypot_within_ulp {host : MathHost} (u v : number) : Prop :=
  let h := Math_hypot u v in
  isFinite h = true /\ 0 <= ulps h
  /\ ulps u * ulps u + ulps v * ulps v
     <= (ulps h + unit_ulps h) * (ulps h + unit_ulps h)
  /\ (unit_ulps h <= ulps h ->
      (ulps h - unit_ulps h) * (ulps h - unit_ulps h)
      <= ulps u * ulps u + ulps v * ulps v).

(** The side from [p] to [q] is rounded once: the coordinate differences
    are exact, the value of [Math.hypot] on them is within one unit in the
    last place. *)
Definition rounded_distance {host : MathHost} (p q : Pt) : Prop :=
  exact_sub (x q) (x p) /\ exact_sub (y q) (y p)
  /\ hypot_within_ulp (x q - x p)%num (y q - y p)%num.

Definition cross_ulps (A B C : Pt) : Z :=
  (ulps (x B) - ulps (x A)) * (ulps (y C) - ulps (y A))
  - (ulps (x C) - ulps (x A)) * (ulps (y B) - ulps (y A)).

(** ** Transpositions of the input *)

(** Equal, or both zeros (of any sign). *)
Definition eq_z (u v : number) : Prop :=
  u = v \/ (isZero u = true /\ isZero v = true).

(** The result with the labels of the first two vertices exchanged. *)
Definition relabel_AB (r : TriangleData) : TriangleData :=
  {| valid := valid r;
     reasonIfInvalid := reasonIfInvalid r;
     sides := option_map (fun s => mkAbc (b s) (a s) (c s)) (sides r);
     angles := option_map (fun g => mkAngles (B g) (A g) (C g)) (angles r);
     perimeter := perimeter r;
     area := area r;
     mids := option_map (fun m => mkAbc (b m) (a m) (c m)) (mids r) |}.

(** The angle at each vertex, under names that points called A, B and C
    do not hide. *)
Definition angle_A (g : TriangleAngles) : number := A g.
Definition angle_B (g : TriangleAngles) : number := B g.
Definition angle_C (g : TriangleAngles) : number := C g.

(** The labels exchanged by the other two transpositions: B with C, and
    C with A. *)
Definition relabel_BC (r : TriangleData) : TriangleData :=
  {| valid := valid r;
     reasonIfInvalid := reasonIfInvalid r;
     sides := option_map (fun s => mkAbc (a s) (c s) (b s)) (sides r);
     angles := option_map (fun g => mkAngles (A g) (C g) (B g)) (angles r);
     perimeter := perimeter r;
     area := area r;
     mids := option_map (fun m => mkAbc (a m) (c m) (b m)) (mids r) |}.

Definition relabel_CA (r : TriangleData) : TriangleData :=
  {| valid := valid r;
     reasonIfInvalid := reasonIfInvalid r;
     sides := option_map (fun s => mkAbc (c s) (b s) (a s)) (sides r);
     angles := option_map (fun g => mkAngles (C g) (B g) (A g)) (angles r);
     perimeter := perimeter r;
     area := area r;
     mids := option_map (fun m => mkAbc (c m) (b m) (a m)) (mids r) |}.

(** The three side lengths, keyed as in the result. *)
Definition sideLengths {host : MathHost} (A B C : Pt) : TriangleSides :=
  mkAbc (distance B C) (distance A C) (distance A B).

(** A normal number whose double is finite. *)
Definition doubles (u : number) : bool :=
  match u with
  | S754_finite _ m e =>
      (digits2_pos m =? 53)%positive && (- 1074 <=? e) && (e + 1 <=? 971)
  | _ => false
  end.

(** The decimal literal [k/10], for instance [0.1]. *)
Definition tenths (k : Z) : number := (of_Z k / of_Z 10)%num.

(** A triangle whose doubled area depends on the order of summation:
    A=(0.1, 0.1), B=(0.1, 0.2), C=(0.3, 0.3). *)
Definition skew_A : Pt := {| x := tenths 1; y := tenths 1 |}.
Definition skew_B : Pt := {| x := tenths 1; y := tenths 2 |}.
Definition skew_C : Pt := {| x := tenths 3; y := tenths 3 |}.

(** ** Numbers as text

    [Number.prototype.toFixed] (ECMA-262, 21.1.3.3) throws a RangeError
    unless the number of fraction digits is within 0..100; it gives the
    texts "NaN", "Infinity" and "-Infinity" for a value that is not
    finite; for a magnitude of 1e21 or more the text of [Number::toString],
    whose last digit the standard leaves to the host; otherwise the decimal
    digits of the integer nearest to the magnitude times [10^f], the larger
    one on a tie, with a point before the last [f] digits. *)

Class TextHost : Type := {
  Number_toString : number -> string
}.

Definition decimal (n : N) : string := NilZero.string_of_uint (N.to_uint n).

Fixpoint zeros (k : nat) : string :=
  match k with
  | O => EmptyString
  | S k' => String "0"%char (zeros k')
  end.

(** The integer nearest to [m * 2^e * 10^f], the larger one on a tie. *)
Definition nearest_scaled (m : positive) (e : Z) (f : Z) : N :=
  let n := Zpos m * 10 ^ f in
  Z.to_N (if 0 <=? e then n * 2 ^ e
          else (2 * n + 2 ^ (- e)) / (2 * 2 ^ (- e))).

Definition fixed_digits (n : N) (f : nat) : string :=
  let m := decimal n in
  match f with
  | O => m
  | S _ =>
      let m' := if (String.length m <=? f)%nat
                then (zeros (f + 1 - String.length m) ++ m)%string else m in
      let k := String.length m' in
      (substring 0 (k - f) m' ++ "." ++ substring (k - f) f m')%string
  end.

(** [m * 2^e >= 10^21]. *)
Definition at_least_1e21 (m : positive) (e : Z) : bool :=
  if 0 <=? e then 10 ^ 21 <=? Zpos m * 2 ^ e
  else 10 ^ 21 * 2 ^ (- e) <=? Zpos m.

Definition toFixed {text : TextHost} (v : number) (fractionDigits : Z)
  : Runtime.completion string :=
  if (fractionDigits <? 0) || (100 <? fractionDigits)
  then Runtime.Throw "RangeError"%string
  else
    Runtime.Normal
      (match v with
      | S754_nan => "NaN"
      | S754_infinity false => "Infinity"
      | S754_infinity true => "-Infinity"
      | S754_zero _ => fixed_digits 0 (Z.to_nat fractionDigits)
      | S754_finite s m e =>
          ((if s then "-" else EmptyString) ++
           (if at_least_1e21 m e
            then Number_toString (S754_finite false m e)
            else fixed_digits (nearest_scaled m e fractionDigits)
                              (Z.to_nat fractionDigits)))
      end)%string.

(** A host that prints a number of magnitude 1e21 or more, an integer,
    with all its digits.  It serves to run examples, none of which reaches
    that magnitude. *)
Definition all_digits : TextHost :=
  {| Number_toString := fun v =>
       match v with
       | S754_finite _ m e => decimal (Z.to_N (Zpos m * 2 ^ e))
       | _ => EmptyString
       end |}.

(** The text of an array length, as a template literal prints it. *)
Definition length_text (n : nat) : string :=
  NilZero.string_of_uint (Nat.to_uint n).

Definition newline : string := String (ascii_of_nat 10) EmptyString.

(** ** The page: [ui.ts] and [main.ts]

    The state of the page extends the application state of [Runtime] with
    what the two modules read and write besides: whether the output
    element was found ([outEl] is looked up once), the bounding rectangle
    of the canvas at the time of the event being handled, and the calls
    made on the 2D context, oldest first. *)

Module Page.

Record Rect : Type := mkRect {
  left : number; top : number; width : number; height : number
}.

(** A call on, or an assignment to a property of, the 2D context. *)
Inductive Call : Type :=
| beginPath
| arc (cx cy radius startAngle endAngle : number)
| set_fillStyle (style : string)
| fill
| set_font (font : string)
| fillText (text : string) (tx ty : number)
| moveTo (px py : number)
| lineTo (px py : number)
| closePath
| set_lineWidth (w : number)
| set_strokeStyle (style : string)
| stroke
| clearRect (rx ry rw rh : number).

Record State : Type := mkState {
  world : Runtime.World;
  outEl : bool;
  rect : Rect;
  calls : list Call
}.

(** A [MouseEvent] or a [Touch]: the two coordinates read by
    [getMousePoint], either of which may be missing. *)
Record Pointer : Type := mkPointer {
  clientX : option number; clientY : option number
}.

Definition UI (T : Type) : Type := State -> Runtime.completion T * State.

Definition ret {T} (v : T) : UI T := fun s => (Runtime.Normal v, s).

Definition bind {T U} (m : UI T) (k : T -> UI U) : UI U :=
  fun s => match m s with
           | (Runtime.Normal v, s') => k v s'
           | (Runtime.Throw e, s') => (Runtime.Throw e, s')
           end.

Notation "v <- m ;; k" := (bind m (fun v => k))
  (at level 61, m at next level, right associativity).
Notation "m ;;; k" := (bind m (fun _ => k))
  (at level 61, right associativity).

(** A computation of the engine, run on the application state. *)
Definition engine {T} (m : Runtime.JS T) : UI T :=
  fun s => let (r, w) := m (world s) in
           (r, mkState w (outEl s) (rect s) (calls s)).

(** An expression that completes without reading the state. *)
Definition eval {T} (r : Runtime.completion T) : UI T := fun s => (r, s).

Definition get_points : UI (list Pt) :=
  fun s => (Runtime.Normal (Runtime.points (world s)), s).

Definition set_points (pts : list Pt) : UI unit :=
  fun s => (Runtime.Normal tt,
            mkState (Runtime.mkWorld pts (Runtime.textContent (world s)))
                    (outEl s) (rect s) (calls s)).

Definition get_outEl : UI bool := fun s => (Runtime.Normal (outEl s), s).

(** [outEl.textContent = msg]. *)
Definition set_textContent (msg : string) : UI unit :=
  fun s => (Runtime.Normal tt,
            mkState (Runtime.mkWorld (Runtime.points (world s)) msg)
                    (outEl s) (rect s) (calls s)).

(** [canvas.getBoundingClientRect()]. *)
Definition getBoundingClientRect : UI Rect :=
  fun s => (Runtime.Normal (rect s), s).

(** A call on [ctx]. *)
Definition ctx (c : Call) : UI unit :=
  fun s => (Runtime.Normal tt,
            mkState (world s) (outEl s) (rect s) (calls s ++ [c])).

(** A string used as a condition: the empty string is falsy. *)
Definition truthy (o : option string) : option string :=
  match o with
  | Some EmptyString | None => None
  | Some s => Some s
  end.

(** [o || d] on an optional string. *)
Definition or_default (o : option string) (d : string) : string :=
  match truthy o with Some s => s | None => d end.

Section Handlers.

Context {host : MathHost} {text : TextHost}.
Local Open Scope num_scope.

(** *** [ui.ts] *)

(** Format numbers to a consistent precision for display. *)
Definition fmt (n : option number) (digits : option Z)
  : Runtime.completion string :=
  let digits := match digits with Some d => d | None => 2%Z end in
  match n with
  | None => Runtime.Normal "—"%string
  | Some v =>
      if negb (isFinite v) then Runtime.Normal "—"%string
      else toFixed v digits
  end.

(** Show a friendly status while the user clicks points. *)
Definition showStatus (msg : string) : UI unit :=
  present <- get_outEl ;;
  if negb present then ret tt else set_textContent msg.

(** Display an error message. *)
Definition showError (msg : string) : UI unit :=
  present <- get_outEl ;;
  if negb present then ret tt else set_textContent msg.

(** The template literal of [showResults]: the calls of [fmt] from left
    to right, then the text. *)
Definition results_text (sides : TriangleSides) (angles : TriangleAngles)
    (perimeter area : option number) : UI string :=
  ta <- eval (fmt (Some (a sides)) None) ;;
  tb <- eval (fmt (Some (b sides)) None) ;;
  tc <- eval (fmt (Some (c sides)) None) ;;
  tA <- eval (fmt (Some (A angles)) None) ;;
  tB <- eval (fmt (Some (B angles)) None) ;;
  tC <- eval (fmt (Some (C angles)) None) ;;
  tp <- eval (fmt perimeter None) ;;
  tr <- eval (fmt area None) ;;
  ret ("צלעות: a=" ++ ta ++ ", b=" ++ tb ++ ", c=" ++ tc ++ newline
       ++ "זוויות: A=" ++ tA ++ "°, B=" ++ tB ++ "°, C=" ++ tC
       ++ "°" ++ newline
       ++ "היקף: " ++ tp ++ newline
       ++ "שטח: " ++ tr)%string.

(** Render a valid triangle data block into the output panel. *)
Definition showResults (data : TriangleData) : UI unit :=
  present <- get_outEl ;;
  if negb present then ret tt
  else
    match valid data, sides data, angles data with
    | true, Some s, Some g =>
        t <- results_text s g (perimeter data) (area data) ;;
        set_textContent t
    | _, _, _ =>
        showError (or_default (reasonIfInvalid data) "Invalid triangle.")
    end.

(** Clear the output panel back to its initial hint. *)
Definition clearOutput : UI unit :=
  present <- get_outEl ;;
  if negb present then ret tt
  else set_textContent "אפסנו… סמנו שלוש נקודות חדשות 🙂".

(** *** [main.ts] *)

Definition getMousePoint (ev : Pointer) : UI Pt :=
  r <- getBoundingClientRect ;;
  ret {| x := match clientX ev with Some v => v | None => of_Z 0 end - left r;
         y := match clientY ev with Some v => v | None => of_Z 0 end - top r |}.

Definition drawPoint (p : Pt) (label : option string) : UI unit :=
  ctx beginPath ;;;
  ctx (arc (x p) (y p) (of_Z 4) (of_Z 0) (Math_PI * of_Z 2)) ;;;
  ctx (set_fillStyle "#111") ;;;
  ctx fill ;;;
  match truthy label with
  | Some l =>
      ctx (set_font "12px system-ui, -apple-system, Segoe UI, Roboto, sans-serif") ;;;
      ctx (set_fillStyle "#111") ;;;
      ctx (fillText l (x p + of_Z 6) (y p - of_Z 6))
  | None => ret tt
  end.

Definition drawTriangle (pA pB pC : Pt) : UI unit :=
  ctx beginPath ;;;
  ctx (moveTo (x pA) (y pA)) ;;;
  ctx (lineTo (x pB) (y pB)) ;;;
  ctx (lineTo (x pC) (y pC)) ;;;
  ctx closePath ;;;
  ctx (set_lineWidth (of_Z 2)) ;;;
  ctx (set_strokeStyle "#333") ;;;
  ctx stroke ;;;
  ctx (set_fillStyle "rgba(64,132,255,0.12)") ;;;
  ctx fill.

Definition clearBoard : UI unit :=
  r <- getBoundingClientRect ;;
  ctx (clearRect (of_Z 0) (of_Z 0) (width r) (height r)).

(** [points.forEach((p, i) => drawPoint(p, ["A", "B", "C"][i]))], from
    the index [i] on. *)
Fixpoint drawPoints (i : nat) (pts : list Pt) : UI unit :=
  match pts with
  | [] => ret tt
  | p :: rest =>
      drawPoint p (nth_error ["A"; "B"; "C"]%string i) ;;;
      drawPoints (S i) rest
  end.

Definition draw : UI unit :=
  clearBoard ;;;
  pts <- get_points ;;
  drawPoints 0 pts ;;;
  match pts with
  | [pA; pB; pC] =>
      drawTriangle pA pB pC ;;;
      data <- engine (Runtime.triangleData [pA; pB; pC]) ;;
      match valid data, sides data, angles data, mids data with
      | true, Some s, Some g, Some m =>
          let r := fun n : number => eval (toFixed n 2) in
          ctx (set_font "13px system-ui, -apple-system, Segoe UI, Roboto, sans-serif") ;;;
          ctx (set_fillStyle "#0a0a0a") ;;;
          ta <- r (a s) ;;
          ctx (fillText ("a=" ++ ta) (x (a m) + of_Z 6) (y (a m))) ;;;
          tb <- r (b s) ;;
          ctx (fillText ("b=" ++ tb) (x (b m) + of_Z 6) (y (b m))) ;;;
          tc <- r (c s) ;;
          ctx (fillText ("c=" ++ tc) (x (c m) + of_Z 6) (y (c m))) ;;;
          tA <- r (A g) ;;
          ctx (fillText (tA ++ "°") (x pA + of_Z 8) (y pA + of_Z 14)) ;;;
          tB <- r (B g) ;;
          ctx (fillText (tB ++ "°") (x pB + of_Z 8) (y pB + of_Z 14)) ;;;
          tC <- r (C g) ;;
          ctx (fillText (tC ++ "°") (x pC + of_Z 8) (y pC + of_Z 14))
      | _, _, _, _ => ret tt
      end
  | _ => ret tt
  end.

Definition handleClick (ev : Pointer) : UI unit :=
  p <- getMousePoint ev ;;
  n <- get_points ;;
  (if (List.length n =? 3)%nat then set_points [] else ret tt) ;;;
  old <- get_points ;;
  set_points (old ++ [p]) ;;;
  draw ;;;
  pts <- get_points ;;
  if (List.length pts <? 3)%nat
  then showStatus ("סומנו " ++ length_text (List.length pts) ++ "/3 נקודות…")
  else
    data <- engine (Runtime.triangleData (firstn 3 pts)) ;;
    if negb (valid data)
    then showError (or_default (reasonIfInvalid data) "משולש לא תקין (קולינארי?)")
    else showResults data.

(** Touch support: treat the first touch as a click. *)
Definition handleTouch (touches : list Pointer) : UI unit :=
  if (List.length touches <? 1)%nat then ret tt
  else
    match nth_error touches 0 with
    | None => ret tt
    | Some t =>
        p <- getMousePoint t ;;
        n <- get_points ;;
        (if (List.length n =? 3)%nat then set_points [] else ret tt) ;;;
        old <- get_points ;;
        set_points (old ++ [p]) ;;;
        draw ;;;
        pts <- get_points ;;
        if (List.length pts =? 3)%nat
        then
          data <- engine (Runtime.triangleData (firstn 3 pts)) ;;
          if negb (valid data)
          then showError (or_default (reasonIfInvalid data) "משולש לא תקין (קולינארי?)")
          else showResults data
        else showStatus ("סומנו " ++ length_text (List.length pts) ++ "/3 נקודות…")
    end.

Definition handleReset : UI unit :=
  set_points [] ;;;
  clearOutput ;;;
  draw.

(** *** The registered listeners *)

Inductive Action : Type :=
| Click (ev : Pointer)
| TouchStart (touches : list Pointer)
| ResetClick.

(** An event: what happened, and where the canvas is at that time. *)
Record Event : Type := mkEvent { action : Action; bounds : Rect }.

Definition dispatch (e : Event) : UI unit :=
  fun s =>
    let s := mkState (world s) (outEl s) (bounds e) (calls s) in
    match action e with
    | Click ev => handleClick ev s
    | TouchStart touches => handleTouch touches s
    | ResetClick => handleReset s
    end.

(** The page after a sequence of events; an exception ends the listener
    that raised it, not the page. *)
Definition run (events : list Event) (s : State) : State :=
  fold_left (fun s e => snd (dispatch e s)) events s.

End Handlers.

End Page.

(** A computation that completes normally and only draws: its value and
    the calls it makes on the context depend on the points and the
    rectangle of the canvas, not on the text, the output element or the
    calls made before, and nothing but the list of calls changes. *)
Definition paints {T} (m : Page.UI T) : Prop :=
  forall pts r, exists v cs, forall t o c,
    m (Page.mkState (Runtime.mkWorld pts t) o r c)
    = (Runtime.Normal v, Page.mkState (Runtime.mkWorld pts t) o r (c ++ cs)).

(** The status shown while points are still missing. *)
Definition status_text (n : nat) : string :=
  ("סומנו " ++ length_text n ++ "/3 נקודות…")%string.

(** The steps that [handleClick] and [handleTouch] share after the point
    is known: empty a full buffer, push the point, redraw, and go on with
    the buffer. *)
Definition place_and_draw {host : MathHost} {text : TextHost} {T}
    (p : Pt) (k : list Pt -> Page.UI T) : Page.UI T :=
  Page.bind Page.get_points (fun n =>
  Page.bind (if (List.length n =? 3)%nat
             then Page.set_points [] else Page.ret tt) (fun _ =>
  Page.bind Page.get_points (fun old =>
  Page.bind (Page.set_points (old ++ [p])) (fun _ =>
  Page.bind Page.draw (fun _ =>
  Page.bind Page.get_points k))))).

(** The last step of the two listeners on three points: compute and
    render the results. *)
Definition report {host : MathHost} {text : TextHost} (pts : list Pt)
  : Page.UI unit :=
  Page.bind (Page.engine (Runtime.triangleData (firstn 3 pts))) (fun data =>
    if negb (valid data)
    then Page.showError
           (Page.or_default (reasonIfInvalid data) "משולש לא תקין (קולינארי?)")
    else Page.showResults data).

(** The buffer after [points.length = 0] on a full buffer and
    [points.push(p)]. *)
Definition pushed (pts : list Pt) (p : Pt) : list Pt :=
  (if (List.length pts =? 3)%nat then [] else pts) ++ [p].

(** A page on which nothing was clicked yet. *)
Definition blank (out : bool) : Page.State :=
  Page.mkState (Runtime.mkWorld [] EmptyString) out
    (Page.mkRect (of_Z 0) (of_Z 0) (of_Z 600) (of_Z 400)) [].

(** A click at the client coordinates [(u, v)] on a canvas whose corner
    is at (10, 20). *)
Definition click_at (u v : Z) : Page.Event :=
  Page.mkEvent (Page.Click (Page.mkPointer (Some (of_Z u)) (Some (of_Z v))))
    (Page.mkRect (of_Z 10) (of_Z 20) (of_Z 600) (of_Z 400)).

(** The page after [msg] was written to the output element, if there is
    one. *)
Definition shown (msg : string) (s : Page.State) : Page.State :=
  if Page.outEl s
  then Page.mkState
         (Runtime.mkWorld (Runtime.points (Page.world s)) msg)
         (Page.outEl s) (Page.rect s) (Page.calls s)
  else s.

(** The text [msg] reports the result [d] of the engine: its reason if
    it is invalid, the block of [showResults] if it is valid. *)
Definition verdict {host : MathHost} {text : TextHost}
    (d : TriangleData) (msg : string) : Prop :=
  if valid d
  then exists sd g,
         sides d = Some sd /\ angles d = Some g
         /\ forall s, Page.results_text sd g (perimeter d) (area d) s
                      = (Runtime.Normal msg, s)
  else reasonIfInvalid d = Some msg.

(** The page after the point [p] was placed and the board redrawn by
    [clearRect] and the calls [cs]. *)
Definition placed (p : Pt) (cs : list Page.Call) (s : Page.State) : Page.State :=
  Page.mkState
    (Runtime.mkWorld (pushed (Runtime.points (Page.world s)) p)
                     (Runtime.textContent (Page.world s)))
    (Page.outEl s) (Page.rect s)
    (Page.calls s ++ Page.clearRect (of_Z 0) (of_Z 0)
                       (Page.width (Page.rect s)) (Page.height (Page.rect s))
                     :: cs).

(** A finite number of magnitude below 1e21, or a value that is not
    finite. *)
Definition below_1e21 (v : number) : bool :=
  match v with
  | S754_finite _ m e => negb (at_least_1e21 m e)
  | _ => true
  end.

Definition is_click (e : Page.Event) : bool :=
  match Page.action e with Page.Click _ => true | _ => false end.

(** * Properties *)

(** ** The engine at run time *)

Section RuntimeFacts.

Context {host : MathHost}.

(** On an array of three points the run-time computation completes
    normally with the value of the typed function and leaves the
    application state as it found it. *)
Lemma runtime_triangleData (A B C : Pt) (w : Runtime.World) :
  Runtime.triangleData [A; B; C] w = (Runtime.Normal (triangleData (A, B, C)), w).
Proof.
  unfold Runtime.triangleData, triangleData.
  cbn [nth_error].
  unfold Runtime.or_else, Runtime.coincide, Runtime.distance,
    Runtime.doubleSignedArea, Runtime.midpoint, Runtime.bind, Runtime.get,
    Runtime.ret, coincide, distance, doubleSignedArea, midpoint.
  destruct (Math_abs (x A - x B) <? EPS)%num;
    destruct (Math_abs (y A - y B) <? EPS)%num;
    destruct (Math_abs (x A - x C) <? EPS)%num;
    destruct (Math_abs (y A - y C) <? EPS)%num;
    destruct (Math_abs (x B - x C) <? EPS)%num;
    destruct (Math_abs (y B - y C) <? EPS)%num;
    cbn [andb orb]; try reflexivity;
    match goal with
    | |- context [if ?t then _ else _] => destruct t; try reflexivity
    end;
    match goal with
    | |- context [if ?t then _ else _] => destruct t; reflexivity
    end.
Qed.

End RuntimeFacts.

Section Purity.

Import Runtime.

Lemma pure_ret {T} (v : T) : pure_js (ret v).
Proof. exists (Normal v); reflexivity. Qed.

Lemma pure_throw {T} (e : string) : pure_js (@throw T e).
Proof. exists (Throw e); reflexivity. Qed.

Lemma pure_get {T} (f : Pt -> T) (o : option Pt) : pure_js (get f o).
Proof. destruct o; [apply pure_ret | apply pure_throw]. Qed.

Lemma pure_bind {T U} (m : JS T) (k : T -> JS U) :
  pure_js m -> (forall v, pure_js (k v)) -> pure_js (bind m k).
Proof.
  intros [r Hm] Hk.
  destruct r as [v | e].
  - destruct (Hk v) as [r' Hr'].
    exists r'; intro w; unfold bind; rewrite Hm; apply Hr'.
  - exists (Throw e); intro w; unfold bind; rewrite Hm; reflexivity.
Qed.

Lemma pure_if {T} (t : bool) (m1 m2 : JS T) :
  pure_js m1 -> pure_js m2 -> pure_js (if t then m1 else m2).
Proof. destruct t; auto. Qed.

Context {host : MathHost}.

Ltac pure_step :=
  first [ apply pure_ret | apply pure_get | apply pure_throw
        | apply pure_if | apply pure_bind; [ | intro ] ].

Lemma pure_coincide (p q : option Pt) : pure_js (coincide p q).
Proof. unfold coincide; repeat pure_step. Qed.

Lemma pure_distance (p q : option Pt) : pure_js (Runtime.distance p q).
Proof. unfold Runtime.distance; repeat pure_step. Qed.

Lemma pure_doubleSignedArea (p q r : option Pt) :
  pure_js (Runtime.doubleSignedArea p q r).
Proof. unfold Runtime.doubleSignedArea; repeat pure_step. Qed.

Lemma pure_midpoint (p q : option Pt) : pure_js (Runtime.midpoint p q).
Proof. unfold Runtime.midpoint; repeat pure_step. Qed.

Lemma pure_triangleData (pts : list Pt) : pure_js (Runtime.triangleData pts).
Proof.
  unfold Runtime.triangleData, or_else.
  repeat first [ apply pure_coincide | apply pure_distance
               | apply pure_doubleSignedArea | apply pure_midpoint
               | pure_step ].
Qed.

End Purity.

(** ** The order of the checks *)

Section Classification.

Context {host : MathHost}.

Lemma triangleData_unfold (A B C : Pt) :
  triangleData (A, B, C) =
  if anyCoincide A B C then invalid reason_coincide
  else if anyNonFinite A B C then invalid reason_nonfinite
  else if degenerate A B C then invalid reason_degenerate
  else
    let a := distance B C in
    let b := distance A C in
    let c := distance A B in
    {| valid := true;
       reasonIfInvalid := None;
       sides := Some (mkAbc a b c);
       angles := Some (mkAngles
         (toDeg (Math_acos (clamp ((b * b + c * c - a * a) / (num_2 * b * c)) num_m1 num_1)))
         (toDeg (Math_acos (clamp ((a * a + c * c - b * b) / (num_2 * a * c)) num_m1 num_1)))
         (toDeg (Math_acos (clamp ((a * a + b * b - c * c) / (num_2 * a * b)) num_m1 num_1))))%num;
       perimeter := Some (a + b + c)%num;
       area := Some (unsignedArea A B C);
       mids := Some (mkAbc (midpoint B C) (midpoint A C) (midpoint A B)) |}.
Proof. reflexivity. Qed.

Lemma valid_iff_checks (A B C : Pt) :
  valid (triangleData (A, B, C)) =
  negb (anyCoincide A B C || anyNonFinite A B C || degenerate A B C).
Proof.
  rewrite triangleData_unfold.
  destruct (anyCoincide A B C); [reflexivity | ].
  destruct (anyNonFinite A B C); [reflexivity | ].
  destruct (degenerate A B C); reflexivity.
Qed.

(** C2. The coincidence check decides first, then the finiteness of the
    sides, then the degeneracy of the area: the reported reason is that of
    the first check that triggers, and the result is valid exactly when
    none does.  On an array of three points the run-time computation never
    throws: it completes normally with that classified value. *)
Theorem checks_in_order (A B C : Pt) (w : Runtime.World) :
  Runtime.triangleData [A; B; C] w = (Runtime.Normal (triangleData (A, B, C)), w)
  /\ reasonIfInvalid (triangleData (A, B, C)) =
     (if anyCoincide A B C then Some reason_coincide
      else if anyNonFinite A B C then Some reason_nonfinite
      else if degenerate A B C then Some reason_degenerate
      else None)
  /\ valid (triangleData (A, B, C)) =
     negb (anyCoincide A B C || anyNonFinite A B C || degenerate A B C).
Proof.
  split; [apply runtime_triangleData | ].
  split; [ | apply valid_iff_checks].
  rewrite triangleData_unfold.
  destruct (anyCoincide A B C); [reflexivity | ].
  destruct (anyNonFinite A B C); [reflexivity | ].
  destruct (degenerate A B C); reflexivity.
Qed.

(** C4 (amended). The reason carried by an invalid result is one of the
    three messages of the source, "Two or more points coincide.",
    "Non-finite side length detected." and "Degenerate (collinear)
    triangle.", according to the first check that triggered. *)
Theorem invalid_reason (A B C : Pt) :
  valid (triangleData (A, B, C)) = false ->
  (anyCoincide A B C = true
   /\ reasonIfInvalid (triangleData (A, B, C)) = Some reason_coincide)
  \/ (anyCoincide A B C = false /\ anyNonFinite A B C = true
      /\ reasonIfInvalid (triangleData (A, B, C)) = Some reason_nonfinite)
  \/ (anyCoincide A B C = false /\ anyNonFinite A B C = false
      /\ degenerate A B C = true
      /\ reasonIfInvalid (triangleData (A, B, C)) = Some reason_degenerate).
Proof.
  rewrite triangleData_unfold.
  destruct (anyCoincide A B C); [left; split; reflexivity | ].
  destruct (anyNonFinite A B C); [right; left; repeat split | ].
  destruct (degenerate A B C); [right; right; repeat split | ].
  cbn [valid]; discriminate.
Qed.

(** C6. The perimeter of a valid result is the sum of the returned sides,
    added in the order [a], [b], [c]. *)
Theorem perimeter_is_sum (A B C : Pt) :
  valid (triangleData (A, B, C)) = true ->
  exists s p,
    sides (triangleData (A, B, C)) = Some s
    /\ perimeter (triangleData (A, B, C)) = Some p
    /\ p = (a s + b s + c s)%num.
Proof.
  rewrite triangleData_unfold.
  destruct (anyCoincide A B C); [discriminate | ].
  destruct (anyNonFinite A B C); [discriminate | ].
  destruct (degenerate A B C); [discriminate | ].
  intros _. eexists; eexists. repeat split.
Qed.

(** C9. The engine reads and writes nothing but its argument: whatever
    the array, the application state is unchanged by a call and the
    completion does not depend on it, so two calls on identical input
    yield identical output. *)
Theorem triangleData_deterministic (pts : list Pt) (w w' : Runtime.World) :
  snd (Runtime.triangleData pts w) = w
  /\ fst (Runtime.triangleData pts w) = fst (Runtime.triangleData pts w')
  /\ Runtime.triangleData pts (snd (Runtime.triangleData pts w)) =
     Runtime.triangleData pts w.
Proof.
  destruct (pure_triangleData pts) as [r Hr].
  rewrite (Hr w), (Hr w'). cbn [fst snd]. repeat split. apply Hr.
Qed.

End Classification.

(** ** Concrete runs on the reference host *)

(** C4. On A=(0,0), B=(0,0), C=(1,1) the reason is the source's message,
    which is none of the three strings of the claim. *)
Lemma reason_strings_differ :
  valid (triangleData (host := reference_host) (P 0 0, P 0 0, P 1 1)) = false
  /\ reasonIfInvalid (triangleData (host := reference_host) (P 0 0, P 0 0, P 1 1))
     = Some "Two or more points coincide."%string
  /\ ~ In "Two or more points coincide."%string
       ["coincident points"; "non-finite side length"; "degenerate/collinear"]%string.
Proof.
  split; [vm_compute; reflexivity | ].
  split; [vm_compute; reflexivity | ].
  cbn [In]. intros [H | [H | [H | []]]]; discriminate H.
Qed.

(** [invalid_reason] on A=(0,0), B=(0,0), C=(1,1). *)
Lemma invalid_reason_witness :
  valid (triangleData (host := reference_host) (P 0 0, P 0 0, P 1 1)) = false
  /\
  ((anyCoincide (P 0 0) (P 0 0) (P 1 1) = true
   /\ reasonIfInvalid (triangleData (host := reference_host) (P 0 0, P 0 0, P 1 1))
      = Some reason_coincide)
  \/ (anyCoincide (P 0 0) (P 0 0) (P 1 1) = false
      /\ anyNonFinite (host := reference_host) (P 0 0) (P 0 0) (P 1 1) = true
      /\ reasonIfInvalid (triangleData (host := reference_host) (P 0 0, P 0 0, P 1 1))
         = Some reason_nonfinite)
  \/ (anyCoincide (P 0 0) (P 0 0) (P 1 1) = false
      /\ anyNonFinite (host := reference_host) (P 0 0) (P 0 0) (P 1 1) = false
      /\ degenerate (P 0 0) (P 0 0) (P 1 1) = true
      /\ reasonIfInvalid (triangleData (host := reference_host) (P 0 0, P 0 0, P 1 1))
         = Some reason_degenerate)).
Proof.
  split; [vm_compute; reflexivity | ].
  apply (invalid_reason (host := reference_host) (P 0 0) (P 0 0) (P 1 1)).
  vm_compute; reflexivity.
Defined.

(** [perimeter_is_sum] on the 3-4-5 triangle. *)
Lemma perimeter_is_sum_witness :
  valid (triangleData (host := reference_host) (P 0 0, P 4 0, P 0 3)) = true
  /\
  exists s p,
    sides (triangleData (host := reference_host) (P 0 0, P 4 0, P 0 3)) = Some s
    /\ perimeter (triangleData (host := reference_host) (P 0 0, P 4 0, P 0 3)) = Some p
    /\ p = (a s + b s + c s)%num.
Proof.
  split; [vm_compute; reflexivity | ].
  apply (perimeter_is_sum (host := reference_host) (P 0 0) (P 4 0) (P 0 3)).
  vm_compute; reflexivity.
Defined.

(** The literal [1e-9] is the quotient [1 / 1e9], and the binary64 value
    nearest to 10^-9: twice its distance to 10^-9 is at most one unit in
    the last place. *)
Lemma EPS_literal :
  EPS = (num_1 / of_Z (10 ^ 9))%num
  /\ match EPS with
     | S754_finite _ m e => 2 * Z.abs (Zpos m * 10 ^ 9 - 2 ^ (- e)) <= 10 ^ 9
     | _ => False
     end.
Proof. split; [vm_compute; reflexivity | vm_compute; discriminate]. Qed.

(** The degenerate cases of the specification. *)
Example collinear_example :
  triangleData (host := reference_host) (P 0 0, P 1 1, P 2 2)
  = invalid reason_degenerate.
Proof. vm_compute; reflexivity. Qed.

Example coincident_example :
  triangleData (host := reference_host) (P 0 0, P 0 0, P 1 1)
  = invalid reason_coincide.
Proof. vm_compute; reflexivity. Qed.

(** The near-equilateral case A=(0,0), B=(2,0), C=(1, 1.7320508): the
    three angles lie between 59.99 and 60.01 degrees. *)
Example equilateral_example :
  exists g,
    angles (triangleData (host := reference_host)
              (P 0 0, P 2 0, mkPt (of_Z 1) (of_Z 17320508 / of_Z 10000000)%num))
    = Some g
    /\ forallb (fun t => ((of_Z 5999 / of_Z 100) <? t)%num
                         && (t <? (of_Z 6001 / of_Z 100))%num)
               [A g; B g; C g] = true.
Proof. eexists; split; [vm_compute; reflexivity | vm_compute; reflexivity]. Qed.

(** Points far apart and of large area whose side overflows: the
    finiteness check rejects them. *)
Example overflowing_side_example :
  anyCoincide (P 0 0) (P (2 ^ 1023) 0) (P (- 2 ^ 1023) 1) = false
  /\ (EPS <? unsignedArea (P 0 0) (P (2 ^ 1023) 0) (P (- 2 ^ 1023) 1))%num = true
  /\ triangleData (host := reference_host)
       (P 0 0, P (2 ^ 1023) 0, P (- 2 ^ 1023) 1)
     = invalid reason_nonfinite.
Proof.
  split; [vm_compute; reflexivity | ].
  split; vm_compute; reflexivity.
Qed.

(** An array of two points: the run-time computation throws when it
    reads the missing third point, unless the first two coincide, in
    which case the third is never read. *)
Example short_array_example (w : Runtime.World) :
  Runtime.triangleData (host := reference_host) [P 0 0; P 1 1] w
  = (Runtime.Throw "TypeError", w)
  /\ Runtime.triangleData (host := reference_host) [P 0 0; P 0 0] w
     = (Runtime.Normal (invalid reason_coincide), w).
Proof. split; vm_compute; reflexivity. Qed.

(** ** Non-finite coordinates *)

Lemma sub_nonfinite_l (u v : number) :
  isFinite u = false -> isFinite (u - v)%num = false.
Proof. destruct u as [ | [] | | ]; destruct v as [ | [] | | ]; intro H; try discriminate H; reflexivity. Qed.

Lemma sub_nonfinite_r (u v : number) :
  isFinite v = false -> isFinite (u - v)%num = false.
Proof. destruct u as [ | [] | | ]; destruct v as [ | [] | | ]; intro H; try discriminate H; reflexivity. Qed.

Lemma abs_sub_nan_l (u v : number) :
  isNaN u = true -> (Math_abs (u - v) <? EPS)%num = false.
Proof. destruct u; intro H; try discriminate H; reflexivity. Qed.

Lemma abs_sub_nan_r (u v : number) :
  isNaN v = true -> (Math_abs (u - v) <? EPS)%num = false.
Proof. destruct v; intro H; try discriminate H; destruct u; reflexivity. Qed.

(** A point with a NaN coordinate coincides with no point. *)
Lemma coincide_nan (p q : Pt) :
  isNaN (x p) = true \/ isNaN (y p) = true ->
  coincide p q = false /\ coincide q p = false.
Proof.
  unfold coincide. intros [H | H].
  - rewrite (abs_sub_nan_l _ (x q) H), (abs_sub_nan_r (x q) _ H). split; reflexivity.
  - rewrite (abs_sub_nan_l _ (y q) H), (abs_sub_nan_r (y q) _ H).
    split; apply andb_false_r.
Qed.

Section NonFinite.

Context {host : MathHost}.
Hypothesis host_ES : ES_Math host.

Lemma hypot_nonfinite (u v : number) :
  isFinite u = false \/ isFinite v = false -> isFinite (Math_hypot u v) = false.
Proof.
  intro H.
  destruct (isInfinite u) eqn:Iu.
  { rewrite (hypot_infinite host host_ES u v (or_introl Iu)); reflexivity. }
  destruct (isInfinite v) eqn:Iv.
  { rewrite (hypot_infinite host host_ES u v (or_intror Iv)); reflexivity. }
  rewrite (hypot_nan host host_ES u v Iu Iv); [reflexivity | ].
  destruct H as [H | H]; [left; destruct u | right; destruct v];
    try discriminate; reflexivity.
Qed.

(** A side with an end point that has a non-finite coordinate is not
    finite. *)
Lemma distance_nonfinite (p q : Pt) :
  finiteCoords p && finiteCoords q = false -> isFinite (distance p q) = false.
Proof.
  unfold finiteCoords, distance. intro H. apply hypot_nonfinite.
  destruct (isFinite (x p)) eqn:Hxp; [ | left; apply sub_nonfinite_r; assumption].
  destruct (isFinite (y p)) eqn:Hyp; [ | right; apply sub_nonfinite_r; assumption].
  destruct (isFinite (x q)) eqn:Hxq; [ | left; apply sub_nonfinite_l; assumption].
  destruct (isFinite (y q)) eqn:Hyq; [ | right; apply sub_nonfinite_l; assumption].
  discriminate H.
Qed.

(** C10. When a coordinate is NaN or infinite and no pair of points
    passes the coincidence test, the engine returns the invalid result
    with the non-finite-side reason, and the run-time computation
    completes normally; a point with a NaN coordinate never passes the
    coincidence test, on either side. *)
Theorem nonfinite_input (A B C : Pt) (w : Runtime.World) :
  finiteCoords A && finiteCoords B && finiteCoords C = false ->
  anyCoincide A B C = false ->
  triangleData (A, B, C) = invalid reason_nonfinite
  /\ Runtime.triangleData [A; B; C] w
     = (Runtime.Normal (invalid reason_nonfinite), w)
  /\ (forall p q : Pt, isNaN (x p) = true \/ isNaN (y p) = true ->
        coincide p q = false /\ coincide q p = false).
Proof.
  intros Hnf Hco.
  assert (Hs : anyNonFinite A B C = true).
  { unfold anyNonFinite.
    destruct (finiteCoords A) eqn:HA.
    - destruct (finiteCoords B) eqn:HB.
      + destruct (finiteCoords C) eqn:HC; [discriminate Hnf | ].
        rewrite (distance_nonfinite B C); [reflexivity | ].
        rewrite HC; apply andb_false_r.
      + rewrite (distance_nonfinite B C); [reflexivity | ].
        rewrite HB; reflexivity.
    - rewrite (distance_nonfinite A C); [ | rewrite HA; reflexivity].
      apply orb_true_iff; left; apply orb_true_r. }
  assert (Hr : triangleData (A, B, C) = invalid reason_nonfinite).
  { rewrite triangleData_unfold, Hco, Hs; reflexivity. }
  split; [exact Hr | ].
  split; [rewrite runtime_triangleData, Hr; reflexivity | ].
  apply coincide_nan.
Qed.

End NonFinite.

(** ** The reference host conforms *)

Lemma reference_host_ES : ES_Math reference_host.
Proof.
  constructor; cbn [Math_hypot Math_acos reference_host].
  - intros u v [H | H]; destruct u; try discriminate H; destruct v;
      try discriminate H; reflexivity.
  - intros u v Hu Hv [H | H]; destruct u; try discriminate; destruct v;
      try discriminate; reflexivity.
  - intros u v Hu Hv; destruct u; try discriminate; destruct v;
      try discriminate; reflexivity.
  - reflexivity.
  - intros u H; destruct u as [ [] | | | s m e]; try discriminate H;
      try reflexivity.
    unfold acos_fx; rewrite H; reflexivity.
  - intros u H; destruct u as [ [] | | | s m e]; try discriminate H;
      try reflexivity.
    unfold acos_fx; rewrite H, orb_true_r; reflexivity.
  - vm_compute; reflexivity.
Qed.

Lemma reference_host_even : hypot_even reference_host.
Proof.
  intros u v; cbn [Math_hypot reference_host].
  destruct u, v; reflexivity.
Qed.

(** [nonfinite_input] on A=(NaN,0), B=(1,0), C=(0,1). *)
Lemma nonfinite_input_witness :
  ES_Math reference_host
  /\ finiteCoords (mkPt NaN (of_Z 0)) && finiteCoords (P 1 0) && finiteCoords (P 0 1) = false
  /\ anyCoincide (mkPt NaN (of_Z 0)) (P 1 0) (P 0 1) = false
  /\ triangleData (host := reference_host) (mkPt NaN (of_Z 0), P 1 0, P 0 1)
     = invalid reason_nonfinite.
Proof.
  split; [exact reference_host_ES | ].
  split; [vm_compute; reflexivity | ].
  split; [vm_compute; reflexivity | ].
  apply (nonfinite_input (host := reference_host) reference_host_ES
           (mkPt NaN (of_Z 0)) (P 1 0) (P 0 1)
           (Runtime.mkWorld [] EmptyString)).
  - vm_compute; reflexivity.
  - vm_compute; reflexivity.
Defined.

(** ** The 3-4-5 triangle *)

(** C7. On A=(0,0), B=(4,0), C=(0,3) the result is valid with sides
    a=5, b=3, c=4, area 6, perimeter 12 and a right angle at A, the vertex
    opposite the side of length 5, on every host whose [Math.hypot] is
    correctly rounded at the three side vectors and whose [Math.acos]
    returns [Math.PI / 2] at 0. *)
Theorem triangle_3_4_5 (host : MathHost) :
  hypot_correct_at host (of_Z (-4)) (of_Z 3) ->
  hypot_correct_at host (of_Z 0) (of_Z 3) ->
  hypot_correct_at host (of_Z 4) (of_Z 0) ->
  Math_acos (of_Z 0) = half_PI ->
  valid (triangleData (P 0 0, P 4 0, P 0 3)) = true
  /\ sides (triangleData (P 0 0, P 4 0, P 0 3))
     = Some (mkAbc (of_Z 5) (of_Z 3) (of_Z 4))
  /\ area (triangleData (P 0 0, P 4 0, P 0 3)) = Some (of_Z 6)
  /\ perimeter (triangleData (P 0 0, P 4 0, P 0 3)) = Some (of_Z 12)
  /\ exists g, angles (triangleData (P 0 0, P 4 0, P 0 3)) = Some g
               /\ A g = of_Z 90.
Proof.
  unfold hypot_correct_at. intros Ha Hb Hc Hz.
  assert (Da : distance (P 4 0) (P 0 3) = of_Z 5).
  { unfold distance, P; cbn [x y].
    change (of_Z 0 - of_Z 4)%num with (of_Z (-4)).
    change (of_Z 3 - of_Z 0)%num with (of_Z 3).
    rewrite Ha. vm_compute; reflexivity. }
  assert (Db : distance (P 0 0) (P 0 3) = of_Z 3).
  { unfold distance, P; cbn [x y].
    change (of_Z 0 - of_Z 0)%num with (of_Z 0).
    change (of_Z 3 - of_Z 0)%num with (of_Z 3).
    rewrite Hb. vm_compute; reflexivity. }
  assert (Dc : distance (P 0 0) (P 4 0) = of_Z 4).
  { unfold distance, P; cbn [x y].
    change (of_Z 0 - of_Z 0)%num with (of_Z 0).
    change (of_Z 4 - of_Z 0)%num with (of_Z 4).
    rewrite Hc. vm_compute; reflexivity. }
  rewrite triangleData_unfold.
  replace (anyCoincide (P 0 0) (P 4 0) (P 0 3)) with false
    by (vm_compute; reflexivity).
  unfold anyNonFinite. cbv zeta. rewrite Da, Db, Dc.
  replace (degenerate (P 0 0) (P 4 0) (P 0 3)) with false
    by (vm_compute; reflexivity).
  replace (isFinite (of_Z 5)) with true by (vm_compute; reflexivity).
  replace (isFinite (of_Z 3)) with true by (vm_compute; reflexivity).
  replace (isFinite (of_Z 4)) with true by (vm_compute; reflexivity).
  cbn [negb orb valid sides area perimeter angles].
  split; [reflexivity | ].
  split; [reflexivity | ].
  split; [vm_compute; reflexivity | ].
  split; [vm_compute; reflexivity | ].
  eexists; split; [reflexivity | ].
  cbn [A].
  replace (clamp ((of_Z 3 * of_Z 3 + of_Z 4 * of_Z 4 - of_Z 5 * of_Z 5)
                  / (num_2 * of_Z 3 * of_Z 4)) num_m1 num_1)%num
    with (of_Z 0) by (vm_compute; reflexivity).
  rewrite Hz. vm_compute; reflexivity.
Qed.

(** [triangle_3_4_5] on the reference host. *)
Lemma triangle_3_4_5_witness :
  hypot_correct_at reference_host (of_Z (-4)) (of_Z 3)
  /\ hypot_correct_at reference_host (of_Z 0) (of_Z 3)
  /\ hypot_correct_at reference_host (of_Z 4) (of_Z 0)
  /\ Math_acos (MathHost := reference_host) (of_Z 0) = half_PI
  /\ sides (triangleData (host := reference_host) (P 0 0, P 4 0, P 0 3))
     = Some (mkAbc (of_Z 5) (of_Z 3) (of_Z 4)).
Proof.
  split; [reflexivity | ].
  split; [reflexivity | ].
  split; [reflexivity | ].
  split; [vm_compute; reflexivity | ].
  apply (triangle_3_4_5 reference_host).
  - reflexivity.
  - reflexivity.
  - reflexivity.
  - vm_compute; reflexivity.
Defined.

(** ** Comparisons of numbers *)

Lemma SFcompare_antisym (u v : number) :
  SFcompare v u = option_map CompOpp (SFcompare u v).
Proof.
  destruct u as [su | su | | su mu eu]; destruct v as [sv | sv | | sv mv ev];
    try (destruct su); try (destruct sv); try reflexivity;
    cbn [SFcompare option_map]; rewrite (Z.compare_antisym eu ev);
    destruct (eu ?= ev); cbn [CompOpp]; try reflexivity;
    change (Pos.compare_cont Eq mv mu) with (mv ?= mu)%positive;
    change (Pos.compare_cont Eq mu mv) with (mu ?= mv)%positive;
    rewrite (Pos.compare_antisym mu mv); try reflexivity.
Qed.

Lemma lt_le (u v : number) : (u <? v)%num = true -> (u <=? v)%num = true.
Proof.
  unfold lt, le, SFltb, SFleb.
  destruct (SFcompare u v) as [[] | ]; try discriminate; reflexivity.
Qed.

Lemma lt_not_le (u v : number) : (v <? u)%num = true -> (u <=? v)%num = false.
Proof.
  unfold lt, le, SFltb, SFleb. rewrite (SFcompare_antisym u v).
  destruct (SFcompare u v) as [[] | ]; try discriminate; reflexivity.
Qed.

Lemma not_le_lt (u v : number) :
  isNaN u = false -> isNaN v = false ->
  (u <=? v)%num = false -> (v <? u)%num = true.
Proof.
  unfold lt, le, SFltb, SFleb. rewrite (SFcompare_antisym u v).
  destruct u; try discriminate; destruct v; try discriminate;
    intros _ _;
    match goal with
    | |- context [SFcompare ?p ?q] =>
        destruct (SFcompare p q) as [[] | ] eqn:E;
        try discriminate; try reflexivity; discriminate E
    end.
Qed.

(** ** When the result is valid *)

Section ValidResults.

Context {host : MathHost}.

Lemma valid_checks (A B C : Pt) :
  valid (triangleData (A, B, C)) = true ->
  anyCoincide A B C = false /\ anyNonFinite A B C = false
  /\ degenerate A B C = false.
Proof.
  rewrite valid_iff_checks.
  destruct (anyCoincide A B C); [discriminate | ].
  destruct (anyNonFinite A B C); [discriminate | ].
  destruct (degenerate A B C); [discriminate | ].
  repeat split.
Qed.

(** A valid result has pairwise non-coincident points and an area that
    is above [EPS] or is NaN. *)
Lemma valid_area (A B C : Pt) :
  valid (triangleData (A, B, C)) = true ->
  coincide A B = false /\ coincide A C = false /\ coincide B C = false
  /\ ((EPS <? unsignedArea A B C)%num = true
      \/ unsignedArea A B C = NaN).
Proof.
  intro H. destruct (valid_checks A B C H) as (Hc & _ & Hd).
  unfold anyCoincide in Hc.
  apply orb_false_iff in Hc; destruct Hc as [Hc H3].
  apply orb_false_iff in Hc; destruct Hc as [H1 H2].
  repeat split; try assumption.
  unfold degenerate in Hd.
  destruct (isNaN (unsignedArea A B C)) eqn:En.
  - right. destruct (unsignedArea A B C); try discriminate En; reflexivity.
  - left. apply not_le_lt; [exact En | reflexivity | exact Hd].
Qed.

End ValidResults.

(** C1. On A=(1e200, 0), B=(1e200, 1e200), C=(0, -1e200), whose
    coordinates are finite and whose points are far apart, the doubled
    area is [Infinity - Infinity]: the area is NaN, the test
    [area2 <= EPS] is false and the result is valid although its area does
    not exceed EPS. *)
Theorem nan_area_is_valid :
  finiteCoords huge_A && finiteCoords huge_B && finiteCoords huge_C = true
  /\ valid (triangleData (host := reference_host) (huge_A, huge_B, huge_C)) = true
  /\ area (triangleData (host := reference_host) (huge_A, huge_B, huge_C)) = Some NaN
  /\ (EPS <? NaN)%num = false.
Proof.
  split; [vm_compute; reflexivity | ].
  split; [vm_compute; reflexivity | ].
  split; [vm_compute; reflexivity | reflexivity].
Qed.

(** ** The angles *)

Lemma clamp_unit (v : number) : clamped (clamp v num_m1 num_1).
Proof.
  unfold clamped, clamp.
  destruct v as [s | s | | s m e].
  - right; destruct s; split; reflexivity.
  - right; destruct s; split; reflexivity.
  - left; reflexivity.
  - unfold Math_min, num_1.
    destruct (S754_finite s m e <? S754_finite false 4503599627370496 (-52))%num eqn:H1.
    + unfold Math_max, num_m1.
      destruct (S754_finite true 4503599627370496 (-52) <? S754_finite s m e)%num eqn:H2.
      * right; split; apply lt_le; assumption.
      * right; split; reflexivity.
    + right; split; reflexivity.
Qed.

(** The conversion to degrees is exact at both ends of the range of the
    inverse cosine. *)
Lemma toDeg_zero : toDeg (S754_zero false) = S754_zero false.
Proof. reflexivity. Qed.

Lemma toDeg_PI : toDeg Math_PI = of_Z 180 /\ toDeg half_PI = of_Z 90.
Proof. split; vm_compute; reflexivity. Qed.

(** The thin triangle has the angles 0, 0 and 180. *)
Example thin_triangle_angles :
  angles (triangleData (host := reference_host) (thin_A, thin_B, thin_C))
  = Some (mkAngles (S754_zero false) (S754_zero false) (of_Z 180)).
Proof. vm_compute; reflexivity. Qed.

(** ** The triangle inequality, with and without rounding *)

Lemma digits2_pos_bounds (m : positive) :
  2 ^ (Zpos (digits2_pos m) - 1) <= Zpos m < 2 ^ Zpos (digits2_pos m).
Proof.
  induction m as [p IH | p IH | ]; cbn [digits2_pos].
  - rewrite Pos2Z.inj_succ.
    replace (Z.succ (Z.pos (digits2_pos p)) - 1) with (Z.succ (Z.pos (digits2_pos p) - 1)) by lia.
    rewrite !Z.pow_succ_r by lia. lia.
  - rewrite Pos2Z.inj_succ.
    replace (Z.succ (Z.pos (digits2_pos p)) - 1) with (Z.succ (Z.pos (digits2_pos p) - 1)) by lia.
    rewrite !Z.pow_succ_r by lia. lia.
  - cbn. lia.
Qed.

Lemma canonical_bounds (m : positive) (e : Z) :
  canonical_mantissa prec emax m e = true ->
  - 1074 <= e /\ Zpos m < 2 ^ 53 /\ (- 1074 < e -> 2 ^ 52 <= Zpos m).
Proof.
  unfold canonical_mantissa, fexp, emin, prec, emax. intro H.
  apply Z.eqb_eq in H.
  pose proof (digits2_pos_bounds m) as [Hl Hu].
  set (d := Zpos (digits2_pos m)) in *.
  assert (Hd : d <= 53) by lia.
  split; [lia | ]. split.
  - apply Z.lt_le_trans with (1 := Hu). apply Z.pow_le_mono_r; lia.
  - intro He. assert (d = 53) by lia. subst d. rewrite H0 in Hl. exact Hl.
Qed.

Lemma scaled_lt (m1 m2 : positive) (e1 e2 : Z) :
  canonical_mantissa prec emax m1 e1 = true ->
  canonical_mantissa prec emax m2 e2 = true ->
  e1 < e2 ->
  Zpos m1 * 2 ^ (e1 + 1074) < Zpos m2 * 2 ^ (e2 + 1074).
Proof.
  intros H1 H2 He.
  destruct (canonical_bounds m1 e1 H1) as (Hl1 & Hu1 & _).
  destruct (canonical_bounds m2 e2 H2) as (_ & _ & Hn2).
  assert (Hlt : -1074 < e2) by lia. specialize (Hn2 Hlt).
  replace (e2 + 1074) with ((e1 + 1074) + (e2 - e1)) by lia.
  rewrite (Z.pow_add_r 2 (e1 + 1074) (e2 - e1)) by lia.
  assert (Hp : 0 < 2 ^ (e1 + 1074)) by (apply Z.pow_pos_nonneg; lia).
  assert (Hq : 2 ^ 1 <= 2 ^ (e2 - e1)) by (apply Z.pow_le_mono_r; lia).
  change (2 ^ 1) with 2 in Hq.
  change (2 ^ 53) with 9007199254740992 in Hu1.
  change (2 ^ 52) with 4503599627370496 in Hn2.
  set (p := 2 ^ (e1 + 1074)) in *. set (q := 2 ^ (e2 - e1)) in *.
  assert (L1 : Zpos m1 * p < 9007199254740992 * p) by nia.
  assert (L2 : 9007199254740992 <= Zpos m2 * q) by nia.
  assert (L3 : 9007199254740992 * p <= (Zpos m2 * q) * p) by nia.
  lia.
Qed.

Lemma ulps_sign_pos (m : positive) (e : Z) :
  canonical_mantissa prec emax m e = true -> 0 < Zpos m * 2 ^ (e + 1074).
Proof.
  intro H. destruct (canonical_bounds m e H) as (Hl & _ & _).
  assert (0 < 2 ^ (e + 1074)) by (apply Z.pow_pos_nonneg; lia). nia.
Qed.

Lemma lt_of_ulps (u v : number) :
  wf u = true -> wf v = true -> isFinite u = true -> isFinite v = true ->
  ulps u < ulps v -> (u <? v)%num = true.
Proof.
  unfold wf, valid_binary, bounded, lt, SFltb.
  destruct u as [su | su | | su mu eu]; try discriminate;
    destruct v as [sv | sv | | sv mv ev]; try discriminate;
    intros Wu Wv _ _; cbn [ulps SFcompare].
  - apply andb_prop in Wv; destruct Wv as [Wv _].
    pose proof (ulps_sign_pos mv ev Wv). destruct sv; cbn [cond_Zopp]; [lia | reflexivity].
  - apply andb_prop in Wu; destruct Wu as [Wu _].
    pose proof (ulps_sign_pos mu eu Wu). destruct su; cbn [cond_Zopp]; [reflexivity | lia].
  - apply andb_prop in Wu; destruct Wu as [Wu _].
    apply andb_prop in Wv; destruct Wv as [Wv _].
    pose proof (ulps_sign_pos mu eu Wu). pose proof (ulps_sign_pos mv ev Wv).
    destruct su, sv; cbn [cond_Zopp]; intro L; try reflexivity; try lia.
    + destruct (Z.compare_spec eu ev) as [E | E | E].
      * subst ev. change (Pos.compare_cont Eq mu mv) with (mu ?= mv)%positive.
        assert (0 < 2 ^ (eu + 1074)) by (destruct (canonical_bounds mu eu Wu); apply Z.pow_pos_nonneg; lia).
        assert (Zpos mv < Zpos mu) by nia.
        rewrite (Pos.compare_antisym mv mu).
        rewrite (proj2 (Pos.compare_lt_iff mv mu)) by lia. reflexivity.
      * pose proof (scaled_lt mu mv eu ev Wu Wv E). lia.
      * reflexivity.
    + destruct (Z.compare_spec eu ev) as [E | E | E].
      * subst ev. change (Pos.compare_cont Eq mu mv) with (mu ?= mv)%positive.
        assert (0 < 2 ^ (eu + 1074)) by (destruct (canonical_bounds mu eu Wu); apply Z.pow_pos_nonneg; lia).
        assert (Zpos mu < Zpos mv) by nia.
        rewrite (proj2 (Pos.compare_lt_iff mu mv)) by lia. reflexivity.
      * reflexivity.
      * pose proof (scaled_lt mv mu ev eu Wv Wu E). lia.
Qed.

Lemma triangle_slack (px py qx qy X Y Z : Z) :
  0 <= Y -> 0 <= Z ->
  (0 <= X -> X * X <= (px + qx) * (px + qx) + (py + qy) * (py + qy)) ->
  px * px + py * py <= Y * Y ->
  qx * qx + qy * qy <= Z * Z ->
  px * qy - py * qx <> 0 ->
  X < Y + Z.
Proof.
  intros HY HZ HX Hp Hq Hk.
  destruct (Z_lt_le_dec X (Y + Z)) as [L | L]; [exact L | exfalso].
  assert (X0 : 0 <= X) by lia. specialize (HX X0).
  set (d := px * qx + py * qy).
  set (k := px * qy - py * qx) in *.
  set (Sb := px * px + py * py) in *. set (Sc := qx * qx + qy * qy) in *.
  assert (E : Sb * Sc = d * d + k * k) by (unfold Sb, Sc, d, k; ring).
  assert (Ea : (px + qx) * (px + qx) + (py + qy) * (py + qy) = Sb + Sc + 2 * d)
    by (unfold Sb, Sc, d; ring).
  rewrite Ea in HX.
  assert (Sb0 : 0 <= Sb) by (unfold Sb; nia).
  assert (Sc0 : 0 <= Sc) by (unfold Sc; nia).
  assert (H1 : (Y + Z) * (Y + Z) <= X * X) by nia.
  assert (H2 : Y * Z <= d) by nia.
  assert (H3 : 0 <= Y * Z) by nia.
  assert (H4 : (Y * Z) * (Y * Z) <= d * d) by nia.
  assert (H5 : Sb * Sc <= (Y * Y) * (Z * Z)) by nia.
  assert (H6 : 0 < k * k) by nia.
  nia.
Qed.

Lemma triangle_strict (px py qx qy n p q : Z) :
  0 <= n -> 0 <= p -> 0 <= q ->
  n * n = (px + qx) * (px + qx) + (py + qy) * (py + qy) ->
  p * p = px * px + py * py ->
  q * q = qx * qx + qy * qy ->
  px * qy - py * qx <> 0 ->
  n < p + q.
Proof.
  intros Hn Hp Hq En Ep Eq Hk.
  set (d := px * qx + py * qy).
  set (k := px * qy - py * qx) in *.
  assert (H1 : (p * q) * (p * q) = d * d + k * k).
  { replace (p * q * (p * q)) with ((p * p) * (q * q)) by ring.
    rewrite Ep, Eq. unfold d, k. ring. }
  assert (H2 : 0 < k * k) by nia.
  assert (H3 : d < p * q) by nia.
  assert (H4 : n * n = p * p + q * q + 2 * d) by (rewrite En, Ep, Eq; unfold d; ring).
  nia.
Qed.

Section Exact.

Context {host : MathHost}.

Lemma exact_distance_sq (p q : Pt) :
  exact_distance p q ->
  wf (distance p q) = true /\ 0 <= ulps (distance p q)
  /\ ulps (distance p q) * ulps (distance p q)
     = (ulps (x q) - ulps (x p)) * (ulps (x q) - ulps (x p))
       + (ulps (y q) - ulps (y p)) * (ulps (y q) - ulps (y p)).
Proof.
  unfold exact_distance, exact_sub, exact_hypot, distance.
  intros ((_ & Ex) & (_ & Ey) & Hw & Hn & Hs).
  rewrite Ex, Ey in Hs. repeat split; assumption.
Qed.

Lemma lt_exact_add (u v w : number) :
  wf u = true -> isFinite u = true -> exact_add v w ->
  ulps u < ulps v + ulps w -> (u <? v + w)%num = true.
Proof.
  intros Wu Fu (Fs & Ws & Es) H.
  apply lt_of_ulps; try assumption. rewrite Es; exact H.
Qed.

(** Without any rounding: when the result is valid, the points are not
    exactly collinear and neither the coordinate differences, nor
    [Math.hypot] on them, nor the sums of two sides round, each side is
    strictly below the sum of the other two. *)
Lemma triangle_inequality_no_rounding (A B C : Pt) :
  valid (triangleData (A, B, C)) = true ->
  exact_sides A B C ->
  cross_ulps A B C <> 0 ->
  exists s,
    sides (triangleData (A, B, C)) = Some s
    /\ (a s <? b s + c s)%num = true
    /\ (b s <? a s + c s)%num = true
    /\ (c s <? a s + b s)%num = true.
Proof.
  intros Hv (Da & Db & Dc & Sbc & Sac & Sab) Hk.
  destruct (valid_checks A B C Hv) as (Hc & Hf & Hd).
  rewrite triangleData_unfold, Hc, Hf, Hd. cbv zeta. cbn [sides].
  eexists; split; [reflexivity | ]. cbn [a b c].
  unfold anyNonFinite in Hf.
  apply orb_false_iff in Hf; destruct Hf as [Hf Fc].
  apply orb_false_iff in Hf; destruct Hf as [Fa Fb].
  apply negb_false_iff in Fa, Fb, Fc.
  destruct (exact_distance_sq B C Da) as (Wa & Na & Qa).
  destruct (exact_distance_sq A C Db) as (Wb & Nb & Qb).
  destruct (exact_distance_sq A B Dc) as (Wc & Nc & Qc).
  unfold cross_ulps in Hk.
  set (XA := ulps (x A)) in *. set (YA := ulps (y A)) in *.
  set (XB := ulps (x B)) in *. set (YB := ulps (y B)) in *.
  set (XC := ulps (x C)) in *. set (YC := ulps (y C)) in *.
  clearbody XA YA XB YB XC YC.
  split; [ | split].
  - apply lt_exact_add; try assumption.
    apply (triangle_strict (XC - XA) (YC - YA) (XA - XB) (YA - YB)); try assumption.
    + rewrite Qa; ring.
    + rewrite Qc; ring.
    + intro E; apply Hk; rewrite <- E; ring.
  - apply lt_exact_add; try assumption.
    apply (triangle_strict (XC - XB) (YC - YB) (XB - XA) (YB - YA)); try assumption.
    + rewrite Qb; ring.
    + intro E; apply Hk. lia.
  - apply lt_exact_add; try assumption.
    apply (triangle_strict (XB - XC) (YB - YC) (XC - XA) (YC - YA)); try assumption.
    + rewrite Qc; ring.
    + rewrite Qa; ring.
    + intro E; apply Hk; lia.
Qed.

(** The two bounds of a side that is rounded once, with the exact
    differences in them. *)
Lemma rounded_distance_sq (p q : Pt) :
  rounded_distance p q ->
  0 <= ulps (distance p q)
  /\ (ulps (x q) - ulps (x p)) * (ulps (x q) - ulps (x p))
     + (ulps (y q) - ulps (y p)) * (ulps (y q) - ulps (y p))
     <= (ulps (distance p q) + unit_ulps (distance p q))
        * (ulps (distance p q) + unit_ulps (distance p q))
  /\ (0 <= ulps (distance p q) - unit_ulps (distance p q) ->
      (ulps (distance p q) - unit_ulps (distance p q))
      * (ulps (distance p q) - unit_ulps (distance p q))
      <= (ulps (x q) - ulps (x p)) * (ulps (x q) - ulps (x p))
         + (ulps (y q) - ulps (y p)) * (ulps (y q) - ulps (y p))).
Proof.
  unfold rounded_distance, exact_sub, hypot_within_ulp, distance.
  intros ((_ & Ex) & (_ & Ey) & _ & Hn & Hu & Hl).
  rewrite Ex, Ey in Hu, Hl. repeat split; try assumption.
  intros H. apply Hl. lia.
Qed.

Lemma unit_ulps_nonneg (u : number) : 0 <= unit_ulps u.
Proof. destruct u; cbn [unit_ulps]; try lia; apply Z.pow_nonneg; lia. Qed.

(** C5 (amended). When the result is valid, the points are not exactly
    collinear, the coordinate differences are exact and [Math.hypot] is
    within one unit in the last place, each side is below the sum of the
    other two up to the rounding of the three sides: with [u] the unit in
    the last place, [a - u a < (b + u b) + (c + u c)] in exact arithmetic,
    and likewise for [b] and [c].  When moreover nothing rounds, neither
    [Math.hypot] nor the sums of two sides, each side is strictly below
    the binary64 sum of the other two. *)
Theorem triangle_inequality_rounded (A B C : Pt) :
  valid (triangleData (A, B, C)) = true ->
  rounded_distance B C -> rounded_distance A C -> rounded_distance A B ->
  cross_ulps A B C <> 0 ->
  exists s,
    sides (triangleData (A, B, C)) = Some s
    /\ ulps (a s) - unit_ulps (a s)
       < (ulps (b s) + unit_ulps (b s)) + (ulps (c s) + unit_ulps (c s))
    /\ ulps (b s) - unit_ulps (b s)
       < (ulps (a s) + unit_ulps (a s)) + (ulps (c s) + unit_ulps (c s))
    /\ ulps (c s) - unit_ulps (c s)
       < (ulps (a s) + unit_ulps (a s)) + (ulps (b s) + unit_ulps (b s))
    /\ (exact_sides A B C ->
        (a s <? b s + c s)%num = true
        /\ (b s <? a s + c s)%num = true
        /\ (c s <? a s + b s)%num = true).
Proof.
  intros Hv Ra Rb Rc Hk.
  assert (Hx : exact_sides A B C ->
               exists s, sides (triangleData (A, B, C)) = Some s
                 /\ (a s <? b s + c s)%num = true
                 /\ (b s <? a s + c s)%num = true
                 /\ (c s <? a s + b s)%num = true).
  { intros E. exact (triangle_inequality_no_rounding A B C Hv E Hk). }
  destruct (valid_checks A B C Hv) as (Hc & Hf & Hd).
  rewrite triangleData_unfold, Hc, Hf, Hd in Hx |- *.
  cbv zeta in Hx |- *. cbn [sides] in Hx |- *.
  eexists; split; [reflexivity | ]. cbn [a b c].
  destruct (rounded_distance_sq B C Ra) as (Na & Ua & La).
  destruct (rounded_distance_sq A C Rb) as (Nb & Ub & Lb).
  destruct (rounded_distance_sq A B Rc) as (Nc & Uc & Lc).
  pose proof (unit_ulps_nonneg (distance B C)) as Pa.
  pose proof (unit_ulps_nonneg (distance A C)) as Pb.
  pose proof (unit_ulps_nonneg (distance A B)) as Pc.
  unfold cross_ulps in Hk.
  set (XA := ulps (x A)) in *. set (YA := ulps (y A)) in *.
  set (XB := ulps (x B)) in *. set (YB := ulps (y B)) in *.
  set (XC := ulps (x C)) in *. set (YC := ulps (y C)) in *.
  clearbody XA YA XB YB XC YC.
  split; [ | split; [ | split]].
  - apply (triangle_slack (XC - XA) (YC - YA) (XA - XB) (YA - YB)); try lia;
      try (intros H; specialize (La H); lia);
      try (intro E; apply Hk; lia).
  - apply (triangle_slack (XC - XB) (YC - YB) (XB - XA) (YB - YA)); try lia;
      try (intros H; specialize (Lb H); lia);
      try (intro E; apply Hk; lia).
  - apply (triangle_slack (XB - XC) (YB - YC) (XC - XA) (YC - YA)); try lia;
      try (intros H; specialize (Lc H); lia);
      try (intro E; apply Hk; lia).
  - intros E. destruct (Hx E) as (s & Es & H). injection Es as <-. exact H.
Qed.

End Exact.

(** [triangle_inequality_rounded] on the right triangle A=(0,0), B=(1,0),
    C=(0,1), whose side [a], the root of 2, is rounded. *)
Lemma triangle_inequality_rounded_witness :
  valid (triangleData (host := reference_host) (P 0 0, P 1 0, P 0 1)) = true
  /\ rounded_distance (host := reference_host) (P 1 0) (P 0 1)
  /\ rounded_distance (host := reference_host) (P 0 0) (P 0 1)
  /\ rounded_distance (host := reference_host) (P 0 0) (P 1 0)
  /\ cross_ulps (P 0 0) (P 1 0) (P 0 1) <> 0
  /\ sides (triangleData (host := reference_host) (P 0 0, P 1 0, P 0 1))
     = Some (mkAbc (S754_finite false 6369051672525773 (-52))
                   (of_Z 1) (of_Z 1))
  /\ exists s,
       sides (triangleData (host := reference_host) (P 0 0, P 1 0, P 0 1)) = Some s
       /\ ulps (a s) - unit_ulps (a s)
          < (ulps (b s) + unit_ulps (b s)) + (ulps (c s) + unit_ulps (c s)).
Proof.
  assert (Hv : valid (triangleData (host := reference_host) (P 0 0, P 1 0, P 0 1)) = true)
    by (vm_compute; reflexivity).
  assert (Ra : rounded_distance (host := reference_host) (P 1 0) (P 0 1)).
  { unfold rounded_distance, exact_sub, hypot_within_ulp.
    split; [split; vm_compute; reflexivity | ].
    split; [split; vm_compute; reflexivity | ].
    split; [vm_compute; reflexivity | ].
    split; [vm_compute; discriminate | ].
    split; [vm_compute; discriminate | ].
    intros _. vm_compute; discriminate. }
  assert (Rb : rounded_distance (host := reference_host) (P 0 0) (P 0 1)).
  { unfold rounded_distance, exact_sub, hypot_within_ulp.
    split; [split; vm_compute; reflexivity | ].
    split; [split; vm_compute; reflexivity | ].
    split; [vm_compute; reflexivity | ].
    split; [vm_compute; discriminate | ].
    split; [vm_compute; discriminate | ].
    intros _. vm_compute; discriminate. }
  assert (Rc : rounded_distance (host := reference_host) (P 0 0) (P 1 0)).
  { unfold rounded_distance, exact_sub, hypot_within_ulp.
    split; [split; vm_compute; reflexivity | ].
    split; [split; vm_compute; reflexivity | ].
    split; [vm_compute; reflexivity | ].
    split; [vm_compute; discriminate | ].
    split; [vm_compute; discriminate | ].
    intros _. vm_compute; discriminate. }
  assert (Hk : cross_ulps (P 0 0) (P 1 0) (P 0 1) <> 0)
    by (vm_compute; discriminate).
  split; [exact Hv | ]. split; [exact Ra | ]. split; [exact Rb | ].
  split; [exact Rc | ]. split; [exact Hk | ].
  split; [vm_compute; reflexivity | ].
  destruct (triangle_inequality_rounded (host := reference_host)
              (P 0 0) (P 1 0) (P 0 1) Hv Ra Rb Rc Hk)
    as (s & Es & Ha & _).
  exists s. split; [exact Es | exact Ha].
Defined.

(** Rounding can even take a side above the binary64 sum of the other
    two: on A=(0,0), B=(2909,1), C=(14546,5), of area 1/2, the side [b]
    exceeds [a + c] by one unit in the last place. *)
Example rounded_sides_exceed :
  valid (triangleData (host := reference_host) (P 0 0, P 2909 1, P 14546 5)) = true
  /\ exists s,
       sides (triangleData (host := reference_host) (P 0 0, P 2909 1, P 14546 5))
       = Some s
       /\ (b s <=? a s + c s)%num = false
       /\ ulps (a s) + ulps (c s) < ulps (b s)
       /\ ulps (b s) - unit_ulps (b s) <= ulps (a s) + ulps (c s).
Proof.
  split; [vm_compute; reflexivity | ].
  eexists. split; [vm_compute; reflexivity | ].
  split; [vm_compute; reflexivity | ].
  split; [vm_compute; reflexivity | vm_compute; discriminate].
Qed.

(** C5. On the thin triangle A=(0,0), B=(2^28,0), C=(2^27,1) the result
    is valid and its sides are a = b = 2^27 and c = 2^28: the side [c]
    equals [a + b], it is not strictly below it. *)
Lemma thin_triangle_sides :
  valid (triangleData (host := reference_host) (thin_A, thin_B, thin_C)) = true
  /\ sides (triangleData (host := reference_host) (thin_A, thin_B, thin_C))
     = Some (mkAbc (of_Z (2 ^ 27)) (of_Z (2 ^ 27)) (of_Z (2 ^ 28)))
  /\ (of_Z (2 ^ 28) <? of_Z (2 ^ 27) + of_Z (2 ^ 27))%num = false.
Proof.
  split; [vm_compute; reflexivity | ].
  split; vm_compute; reflexivity.
Qed.

(** ** Arithmetic up to the sign of zero *)

Lemma eq_z_refl u : eq_z u u.
Proof. left; reflexivity. Qed.

Lemma eq_z_sym u v : eq_z u v -> eq_z v u.
Proof. intros [H | [H1 H2]]; [left; symmetry; exact H | right; split; assumption]. Qed.

Lemma eq_z_trans u v w : eq_z u v -> eq_z v w -> eq_z u w.
Proof.
  intros [H | [H1 H2]] [K | [K1 K2]]; subst.
  - left; reflexivity.
  - right; split; assumption.
  - right; split; assumption.
  - right; split; assumption.
Qed.

Lemma eq_z_abs u v : eq_z u v -> Math_abs u = Math_abs v.
Proof.
  intros [H | [H1 H2]]; [subst; reflexivity | ].
  destruct u; try discriminate; destruct v; try discriminate; reflexivity.
Qed.

Lemma abs_neg u : Math_abs (neg u) = Math_abs u.
Proof. destruct u; reflexivity. Qed.

Lemma eq_z_neg u v : eq_z u v -> eq_z (neg u) (neg v).
Proof.
  intros [H | [H1 H2]]; [subst; left; reflexivity | ].
  destruct u; try discriminate; destruct v; try discriminate; right; split; reflexivity.
Qed.

Lemma binary_round_aux_opp s m e l :
  binary_round_aux prec emax (negb s) m e l = neg (binary_round_aux prec emax s m e l).
Proof.
  unfold binary_round_aux.
  destruct (shr_fexp prec emax m e l) as [mrs' e'].
  destruct (shr_fexp prec emax _ e' loc_Exact) as [mrs'' e''].
  destruct (shr_m mrs''); try reflexivity.
  destruct (e'' <=? emax - prec); reflexivity.
Qed.

Lemma binary_round_opp s m e :
  binary_round prec emax (negb s) m e = neg (binary_round prec emax s m e).
Proof.
  unfold binary_round.
  destruct (shl_align m e _) as [mz ez]. apply binary_round_aux_opp.
Qed.

Lemma binary_normalize_opp z e :
  eq_z (binary_normalize prec emax (- z) e false)
       (neg (binary_normalize prec emax z e false)).
Proof.
  destruct z as [ | p | p]; cbn [Z.opp binary_normalize].
  - right; split; reflexivity.
  - left. apply (binary_round_opp false).
  - left. rewrite (binary_round_opp false).
    destruct (binary_round prec emax false p e) as [[] | [] | | []]; reflexivity.
Qed.

Lemma cond_Zopp_negb s z : cond_Zopp (negb s) z = - cond_Zopp s z.
Proof. destruct s; cbn; lia. Qed.

Lemma add_comm u v : (u + v)%num = (v + u)%num.
Proof.
  destruct u as [[] | [] | | su mu eu]; destruct v as [[] | [] | | sv mv ev];
    try reflexivity.
  unfold add, SFadd. rewrite (Z.min_comm ev eu). f_equal. apply Z.add_comm.
Qed.

Lemma neg_add u v : eq_z (neg u + neg v)%num (neg (u + v)%num).
Proof.
  destruct u as [[] | [] | | su mu eu]; destruct v as [[] | [] | | sv mv ev];
    try (left; reflexivity); try (right; split; reflexivity).
  unfold add, SFadd, neg, SFopp. rewrite !cond_Zopp_negb.
  rewrite <- Z.opp_add_distr. apply binary_normalize_opp.
Qed.

Lemma sub_swap u v : eq_z (v - u)%num (neg (u - v)%num).
Proof.
  destruct u as [[] | [] | | su mu eu]; destruct v as [[] | [] | | sv mv ev];
    try (left; reflexivity); try (right; split; reflexivity);
    try (left; destruct sv; reflexivity); try (left; destruct su; reflexivity).
  unfold sub, SFsub. rewrite (Z.min_comm ev eu).
  match goal with
  | |- eq_z (binary_normalize _ _ (?p - ?q) _ _) _ =>
      replace (p - q) with (- (q - p)) by lia
  end.
  apply binary_normalize_opp.
Qed.

Lemma mul_neg_r w u : (w * neg u)%num = neg (w * u)%num.
Proof.
  destruct w as [[] | [] | | [] mw ew]; destruct u as [[] | [] | | [] mu eu];
    try reflexivity;
    unfold mul, SFmul, neg, SFopp; cbn [xorb negb];
    first [apply (binary_round_aux_opp true) | apply (binary_round_aux_opp false)].
Qed.

Lemma eq_z_mul_r w u v : eq_z u v -> eq_z (w * u)%num (w * v)%num.
Proof.
  intros [H | [H1 H2]]; [subst; left; reflexivity | ].
  destruct u; try discriminate; destruct v; try discriminate.
  destruct w as [[] | [] | | sw mw ew]; try (left; reflexivity);
    right; split; reflexivity.
Qed.

Lemma eq_z_add u u' v v' :
  eq_z u u' -> eq_z v v' -> eq_z (u + v)%num (u' + v')%num.
Proof.
  intros [H | [H1 H2]] [K | [K1 K2]]; subst.
  - left; reflexivity.
  - destruct v; try discriminate; destruct v'; try discriminate.
    destruct u' as [[] | [] | | su mu eu]; destruct s, s0;
      try (left; reflexivity); right; split; reflexivity.
  - destruct u; try discriminate; destruct u'; try discriminate.
    destruct v' as [[] | [] | | sv mv ev]; destruct s, s0;
      try (left; reflexivity); right; split; reflexivity.
  - destruct u; try discriminate; destruct u'; try discriminate.
    destruct v; try discriminate; destruct v'; try discriminate.
    right; destruct s, s0, s1, s2; split; reflexivity.
Qed.


(** Doubling a normal number is exact unless it overflows. *)
Lemma mul_2_normal s m e :
  doubles (S754_finite s m e) = true ->
  (num_2 * S754_finite s m e)%num = S754_finite s m (e + 1).
Proof.
  unfold doubles. intro H.
  apply andb_prop in H; destruct H as [H H3].
  apply andb_prop in H; destruct H as [H1 H2].
  apply Pos.eqb_eq in H1. apply Z.leb_le in H2, H3.
  unfold mul, SFmul, num_2. cbn [xorb Pos.mul].
  unfold binary_round_aux, shr_fexp, Zdigits2. cbn [digits2_pos].
  rewrite H1.
  match goal with
  | |- context [fexp prec emax (Z.pos ?p + ?k)] => change (Z.pos p) with 105
  end.
  unfold fexp, emin, prec, emax.
  replace (Z.max (105 + (-51 + e) - 53) (3 - 1024 - 53) - (-51 + e)) with 52 by lia.
  cbn [shr shr_record_of_loc iter_pos shr_1 orb shr_m round_nearest_even
       loc_of_shr_record digits2_pos].
  rewrite H1.
  replace (Z.max (53 + (-51 + e + 52) - 53) (3 - 1024 - 53) - (-51 + e + 52))
    with 0 by lia.
  cbn [shr shr_m].
  replace (-51 + e + 52) with (e + 1) by lia.
  rewrite (proj2 (Z.leb_le (e + 1) (1024 - 53))) by lia.
  reflexivity.
Qed.

Lemma double_product_comm (u v : number) :
  doubles u = true -> doubles v = true ->
  (num_2 * u * v)%num = (num_2 * v * u)%num.
Proof.
  destruct u as [ | | | su mu eu]; try discriminate.
  destruct v as [ | | | sv mv ev]; try discriminate.
  intros Hu Hv. rewrite (mul_2_normal _ _ _ Hu), (mul_2_normal _ _ _ Hv).
  unfold mul, SFmul.
  rewrite (xorb_comm su sv), (Pos.mul_comm mu mv).
  replace (eu + 1 + ev) with (ev + 1 + eu) by lia. reflexivity.
Qed.


(** ** Transpositions of the input *)

Lemma relabel_AB_record (v : bool) (r : option string) (s1 s2 s3 : number)
  (g1 g2 g3 : number) (p q : option number) (m1 m2 m3 : Pt) :
  relabel_AB (mkData v r (Some (mkAbc s1 s2 s3)) (Some (mkAngles g1 g2 g3))
                     p q (Some (mkAbc m1 m2 m3)))
  = mkData v r (Some (mkAbc s2 s1 s3)) (Some (mkAngles g2 g1 g3))
           p q (Some (mkAbc m2 m1 m3)).
Proof. reflexivity. Qed.

Lemma abs_sub_swap u v : Math_abs (u - v)%num = Math_abs (v - u)%num.
Proof. rewrite (eq_z_abs _ _ (sub_swap v u)). apply abs_neg. Qed.

Lemma coincide_sym p q : coincide q p = coincide p q.
Proof.
  unfold coincide. rewrite (abs_sub_swap (x q)), (abs_sub_swap (y q)). reflexivity.
Qed.

Lemma midpoint_sym p q : midpoint q p = midpoint p q.
Proof.
  unfold midpoint. rewrite (add_comm (x q)), (add_comm (y q)). reflexivity.
Qed.

Lemma doubleSignedArea_swap_AB (A B C : Pt) :
  Math_abs (doubleSignedArea B A C) = Math_abs (doubleSignedArea A B C).
Proof.
  unfold doubleSignedArea.
  rewrite <- (abs_neg (x A * (y B - y C) + x B * (y C - y A) + x C * (y A - y B))%num).
  apply eq_z_abs.
  eapply eq_z_trans; [ | apply neg_add].
  apply eq_z_add.
  - eapply eq_z_trans; [ | apply neg_add].
    rewrite (add_comm (neg _)).
    apply eq_z_add.
    + rewrite <- mul_neg_r. apply eq_z_mul_r, sub_swap.
    + rewrite <- mul_neg_r. apply eq_z_mul_r, sub_swap.
  - rewrite <- mul_neg_r. apply eq_z_mul_r, sub_swap.
Qed.

Section Swap.

Context {host : MathHost}.
Hypothesis host_even : hypot_even host.

Lemma distance_sym p q : distance q p = distance p q.
Proof.
  unfold distance. rewrite (host_even (x p - x q)%num), (host_even (x q - x p)%num).
  rewrite (abs_sub_swap (x p)), (abs_sub_swap (y p)). reflexivity.
Qed.

Lemma anyCoincide_swap (A B C : Pt) :
  anyCoincide B A C = anyCoincide A B C
  /\ anyCoincide A C B = anyCoincide A B C
  /\ anyCoincide C B A = anyCoincide A B C.
Proof.
  unfold anyCoincide.
  rewrite (coincide_sym A B), (coincide_sym B C), (coincide_sym A C).
  destruct (coincide A B), (coincide A C), (coincide B C); repeat split.
Qed.

Lemma anyNonFinite_swap (A B C : Pt) :
  anyNonFinite B A C = anyNonFinite A B C
  /\ anyNonFinite A C B = anyNonFinite A B C
  /\ anyNonFinite C B A = anyNonFinite A B C.
Proof.
  unfold anyNonFinite.
  rewrite (distance_sym A B), (distance_sym B C), (distance_sym A C).
  destruct (isFinite (distance A B)), (isFinite (distance A C)),
    (isFinite (distance B C)); repeat split.
Qed.

(** The first two checks do not depend on the order of the points; a
    result and the result on a transposed triple that are both valid or
    both invalid are both rejected by the same check. *)
Lemma reason_of_validity (A B C A' B' C' : Pt) :
  anyCoincide A' B' C' = anyCoincide A B C ->
  anyNonFinite A' B' C' = anyNonFinite A B C ->
  valid (triangleData (A', B', C')) = valid (triangleData (A, B, C)) ->
  degenerate A' B' C' = degenerate A B C
  \/ anyCoincide A B C || anyNonFinite A B C = true.
Proof.
  intros Hc Hn. rewrite !valid_iff_checks, Hc, Hn.
  destruct (anyCoincide A B C); [right; reflexivity|].
  destruct (anyNonFinite A B C); [right; reflexivity|].
  cbn [orb]. intros H. left.
  destruct (degenerate A' B' C'), (degenerate A B C);
    try reflexivity; discriminate.
Qed.

(** C8 (amended). For a host whose [Math.hypot] looks only at the
    magnitudes of its arguments, every transposition of two input points
    permutes the three side lengths and leaves the coincidence and the
    finiteness checks unchanged.  Exchanging the first two points also
    leaves the validity, the reason, the area and the perimeter
    bit-identical, and the whole result is the original one with the
    labels a/b and A/B exchanged as soon as [2 * a * b] and [2 * b * a]
    round alike (they do for normal sides whose double is finite, see
    [double_product_comm]; they need not for other values, see
    [product_order_matters]).  Under each of the two transpositions that
    move C, when the result is valid as the original one is (or invalid
    as it is), its reason, its sides and its midpoints are those of the
    original result with the labels exchanged, and so is each angle: the
    two exchanged angles without condition when B and C are exchanged,
    the others as soon as the product of the two sides in their
    denominator rounds alike in both orders.  Only the area, the
    perimeter and, through the area, the validity depend on the order in
    which C is given. *)
Theorem transpositions (A B C : Pt) :
  let a := distance B C in
  let b := distance A C in
  let c := distance A B in
  sideLengths B A C = mkAbc b a c
  /\ sideLengths A C B = mkAbc a c b
  /\ sideLengths C B A = mkAbc c b a
  /\ anyCoincide B A C = anyCoincide A B C
  /\ anyCoincide A C B = anyCoincide A B C
  /\ anyCoincide C B A = anyCoincide A B C
  /\ anyNonFinite B A C = anyNonFinite A B C
  /\ anyNonFinite A C B = anyNonFinite A B C
  /\ anyNonFinite C B A = anyNonFinite A B C
  /\ valid (triangleData (B, A, C)) = valid (triangleData (A, B, C))
  /\ reasonIfInvalid (triangleData (B, A, C)) = reasonIfInvalid (triangleData (A, B, C))
  /\ area (triangleData (B, A, C)) = area (triangleData (A, B, C))
  /\ perimeter (triangleData (B, A, C)) = perimeter (triangleData (A, B, C))
  /\ ((num_2 * a * b = num_2 * b * a)%num ->
      triangleData (B, A, C) = relabel_AB (triangleData (A, B, C)))
  /\ sides (triangleData (B, A, C)) = sides (relabel_AB (triangleData (A, B, C)))
  /\ mids (triangleData (B, A, C)) = mids (relabel_AB (triangleData (A, B, C)))
  /\ option_map angle_A (angles (triangleData (B, A, C)))
     = option_map angle_B (angles (triangleData (A, B, C)))
  /\ option_map angle_B (angles (triangleData (B, A, C)))
     = option_map angle_A (angles (triangleData (A, B, C)))
  /\ (valid (triangleData (A, C, B)) = valid (triangleData (A, B, C)) ->
      reasonIfInvalid (triangleData (A, C, B))
      = reasonIfInvalid (triangleData (A, B, C))
      /\ sides (triangleData (A, C, B))
         = sides (relabel_BC (triangleData (A, B, C)))
      /\ mids (triangleData (A, C, B))
         = mids (relabel_BC (triangleData (A, B, C)))
      /\ option_map angle_B (angles (triangleData (A, C, B)))
         = option_map angle_C (angles (triangleData (A, B, C)))
      /\ option_map angle_C (angles (triangleData (A, C, B)))
         = option_map angle_B (angles (triangleData (A, B, C)))
      /\ ((num_2 * b * c = num_2 * c * b)%num ->
          angles (triangleData (A, C, B))
          = angles (relabel_BC (triangleData (A, B, C)))))
  /\ (valid (triangleData (C, B, A)) = valid (triangleData (A, B, C)) ->
      reasonIfInvalid (triangleData (C, B, A))
      = reasonIfInvalid (triangleData (A, B, C))
      /\ sides (triangleData (C, B, A))
         = sides (relabel_CA (triangleData (A, B, C)))
      /\ mids (triangleData (C, B, A))
         = mids (relabel_CA (triangleData (A, B, C)))
      /\ ((num_2 * a * b = num_2 * b * a)%num ->
          option_map angle_A (angles (triangleData (C, B, A)))
          = option_map angle_C (angles (triangleData (A, B, C))))
      /\ ((num_2 * a * c = num_2 * c * a)%num ->
          option_map angle_B (angles (triangleData (C, B, A)))
          = option_map angle_B (angles (triangleData (A, B, C))))
      /\ ((num_2 * b * c = num_2 * c * b)%num ->
          option_map angle_C (angles (triangleData (C, B, A)))
          = option_map angle_A (angles (triangleData (A, B, C))))).
Proof.
  intros a b c.
  destruct (anyCoincide_swap A B C) as (C1 & C2 & C3).
  destruct (anyNonFinite_swap A B C) as (F1 & F2 & F3).
  assert (Hd : degenerate B A C = degenerate A B C).
  { unfold degenerate, unsignedArea. rewrite doubleSignedArea_swap_AB. reflexivity. }
  assert (Ha : unsignedArea B A C = unsignedArea A B C).
  { unfold unsignedArea. rewrite doubleSignedArea_swap_AB. reflexivity. }
  unfold sideLengths.
  rewrite (distance_sym A B), (distance_sym B C), (distance_sym A C).
  fold a b c.
  do 9 (split; [first [reflexivity | assumption] | ]).
  assert (AB : valid (triangleData (B, A, C)) = valid (triangleData (A, B, C))
    /\ reasonIfInvalid (triangleData (B, A, C)) = reasonIfInvalid (triangleData (A, B, C))
    /\ area (triangleData (B, A, C)) = area (triangleData (A, B, C))
    /\ perimeter (triangleData (B, A, C)) = perimeter (triangleData (A, B, C))
    /\ ((num_2 * a * b = num_2 * b * a)%num ->
        triangleData (B, A, C) = relabel_AB (triangleData (A, B, C)))
    /\ sides (triangleData (B, A, C)) = sides (relabel_AB (triangleData (A, B, C)))
    /\ mids (triangleData (B, A, C)) = mids (relabel_AB (triangleData (A, B, C)))
    /\ option_map angle_A (angles (triangleData (B, A, C)))
       = option_map angle_B (angles (triangleData (A, B, C)))
    /\ option_map angle_B (angles (triangleData (B, A, C)))
       = option_map angle_A (angles (triangleData (A, B, C)))).
  { rewrite !triangleData_unfold, C1, F1, Hd.
    destruct (anyCoincide A B C); [repeat split | ].
    destruct (anyNonFinite A B C); [repeat split | ].
    destruct (degenerate A B C); [repeat split | ].
    cbv zeta. rewrite (distance_sym A B). fold a b c.
    cbn [valid reasonIfInvalid area perimeter].
    split; [reflexivity | ]. split; [reflexivity | ].
    split; [rewrite Ha; reflexivity | ].
    split; [rewrite (add_comm b a); reflexivity | ].
    split.
    { intro H2.
      rewrite relabel_AB_record.
      rewrite Ha, (add_comm b a), (midpoint_sym A B),
        (add_comm (b * b)%num (a * a)%num), H2.
      reflexivity. }
    rewrite relabel_AB_record. cbn [sides mids angles option_map].
    rewrite (midpoint_sym A B).
    repeat split. }
  destruct AB as (AB1 & AB2 & AB3 & AB4 & AB5 & AB6 & AB7 & AB8 & AB9).
  do 9 (split; [assumption | ]).
  split.
  - intros V.
    destruct (reason_of_validity A B C A C B C2 F2 V) as [Hd'|Hr];
      rewrite !triangleData_unfold, C2, F2; [rewrite Hd'| ].
    + destruct (anyCoincide A B C); [repeat split | ].
      destruct (anyNonFinite A B C); [repeat split | ].
      destruct (degenerate A B C); [repeat split | ].
      cbv zeta.
      rewrite (distance_sym B C), (midpoint_sym B C). fold a b c.
      unfold relabel_BC, angle_A, angle_B, angle_C.
      cbn [reasonIfInvalid sides mids angles option_map].
      do 5 (split; [reflexivity | ]).
      intros H2. rewrite (add_comm (c * c)%num (b * b)%num), H2. reflexivity.
    + destruct (anyCoincide A B C); [repeat split | ].
      destruct (anyNonFinite A B C); [repeat split | discriminate].
  - intros V.
    destruct (reason_of_validity A B C C B A C3 F3 V) as [Hd'|Hr];
      rewrite !triangleData_unfold, C3, F3; [rewrite Hd'| ].
    + destruct (anyCoincide A B C); [repeat split | ].
      destruct (anyNonFinite A B C); [repeat split | ].
      destruct (degenerate A B C); [repeat split | ].
      cbv zeta.
      rewrite (distance_sym A B), (distance_sym A C), (distance_sym B C),
        (midpoint_sym A B), (midpoint_sym A C), (midpoint_sym B C).
      fold a b c.
      unfold relabel_CA, angle_A, angle_B, angle_C.
      cbn [reasonIfInvalid sides mids angles option_map].
      do 3 (split; [reflexivity | ]).
      split; [intros H2; rewrite (add_comm (b * b)%num (a * a)%num), H2;
              reflexivity | ].
      split; [intros H2; rewrite (add_comm (c * c)%num (a * a)%num), H2;
              reflexivity | ].
      intros H2. rewrite (add_comm (c * c)%num (b * b)%num), H2. reflexivity.
    + destruct (anyCoincide A B C); [repeat split | ].
      destruct (anyNonFinite A B C); [repeat split | discriminate].
Qed.

End Swap.

(** [transpositions] on the 3-4-5 triangle: the labels A/B, then B/C
    exchanged. *)
Lemma transpositions_witness :
  hypot_even reference_host
  /\ triangleData (host := reference_host) (P 4 0, P 0 0, P 0 3)
     = relabel_AB (triangleData (host := reference_host) (P 0 0, P 4 0, P 0 3))
  /\ valid (triangleData (host := reference_host) (P 0 0, P 0 3, P 4 0))
     = valid (triangleData (host := reference_host) (P 0 0, P 4 0, P 0 3))
  /\ angles (triangleData (host := reference_host) (P 0 0, P 0 3, P 4 0))
     = angles (relabel_BC
                 (triangleData (host := reference_host) (P 0 0, P 4 0, P 0 3))).
Proof.
  split; [exact reference_host_even | ].
  pose proof (transpositions (host := reference_host) reference_host_even
                (P 0 0) (P 4 0) (P 0 3)) as H.
  cbv zeta in H.
  destruct H as (_ & _ & _ & _ & _ & _ & _ & _ & _ & _ & _ & _ & _
                 & HAB & _ & _ & _ & _ & HBC & _).
  split; [apply HAB; vm_compute; reflexivity | ].
  split; [vm_compute; reflexivity | ].
  apply HBC; vm_compute; reflexivity.
Defined.

(** The two orders of the product in a denominator need not round alike:
    the double of 2^1023 overflows, the double of 1/2 does not. *)
Example product_order_matters :
  (num_2 * of_Z (2 ^ 1023) * (of_Z 1 / of_Z 2))%num = Infinity
  /\ (num_2 * (of_Z 1 / of_Z 2) * of_Z (2 ^ 1023))%num = of_Z (2 ^ 1023).
Proof. split; vm_compute; reflexivity. Qed.

(** C8. On A=(0.1, 0.1), B=(0.1, 0.2), C=(0.3, 0.3) both orders
    (A, B, C) and (A, C, B) give a valid result, but the areas differ in
    the last bit: 5764607523034234 against 5764607523034233 units of
    2^-59, both just below 0.01. *)
Lemma swap_changes_area :
  valid (triangleData (host := reference_host) (skew_A, skew_B, skew_C)) = true
  /\ valid (triangleData (host := reference_host) (skew_A, skew_C, skew_B)) = true
  /\ area (triangleData (host := reference_host) (skew_A, skew_B, skew_C))
     = Some (S754_finite false 5764607523034234 (-59))
  /\ area (triangleData (host := reference_host) (skew_A, skew_C, skew_B))
     = Some (S754_finite false 5764607523034233 (-59))
  /\ area (triangleData (host := reference_host) (skew_A, skew_C, skew_B))
     <> area (triangleData (host := reference_host) (skew_A, skew_B, skew_C)).
Proof.
  split; [vm_compute; reflexivity | ].
  split; [vm_compute; reflexivity | ].
  split; [vm_compute; reflexivity | ].
  split; [vm_compute; reflexivity | ].
  vm_compute. discriminate.
Qed.

(** ** The area is a number unless a product overflows *)

Lemma shr_1_nonneg (mrs : shr_record) : 0 <= shr_m mrs -> 0 <= shr_m (shr_1 mrs).
Proof.
  destruct mrs as [m r s]; cbn [shr_m shr_1].
  destruct m as [ | [p | p | ] | [p | p | ]]; cbn [shr_m]; lia.
Qed.

Lemma iter_shr_1_nonneg (p : positive) (mrs : shr_record) :
  0 <= shr_m mrs -> 0 <= shr_m (iter_pos shr_1 p mrs).
Proof.
  revert mrs; induction p as [p IH | p IH | ]; intros mrs H; cbn [iter_pos].
  - apply IH, IH, shr_1_nonneg, H.
  - apply IH, IH, H.
  - apply shr_1_nonneg, H.
Qed.

Lemma shr_fexp_nonneg (m e : Z) (l : location) :
  0 <= m -> 0 <= shr_m (fst (shr_fexp prec emax m e l)).
Proof.
  intro H. unfold shr_fexp, shr.
  assert (H0 : 0 <= shr_m (shr_record_of_loc m l))
    by (destruct l as [ | []]; exact H).
  destruct (fexp prec emax (Zdigits2 m + e) - e); cbn [fst]; try exact H0.
  apply iter_shr_1_nonneg, H0.
Qed.

Lemma round_nearest_even_nonneg (m : Z) (l : location) :
  0 <= m -> 0 <= round_nearest_even m l.
Proof.
  intro H. destruct l as [ | []]; cbn [round_nearest_even]; try lia.
  destruct (Z.even m); lia.
Qed.

(** Rounding a non-negative mantissa never yields NaN. *)
Lemma binary_round_aux_not_nan (s : bool) (m e : Z) (l : location) :
  0 <= m -> isNaN (binary_round_aux prec emax s m e l) = false.
Proof.
  intro H. unfold binary_round_aux.
  pose proof (shr_fexp_nonneg m e l H) as H1.
  destruct (shr_fexp prec emax m e l) as [mrs' e']; cbn [fst] in H1.
  pose proof (shr_fexp_nonneg _ e' loc_Exact
                (round_nearest_even_nonneg _ (loc_of_shr_record mrs') H1)) as H2.
  destruct (shr_fexp prec emax _ e' loc_Exact) as [mrs'' e'']; cbn [fst] in H2.
  destruct (shr_m mrs'') as [ | p | p]; [reflexivity | | lia].
  destruct (e'' <=? emax - prec); reflexivity.
Qed.

Lemma binary_normalize_not_nan (z e : Z) (sz : bool) :
  isNaN (binary_normalize prec emax z e sz) = false.
Proof.
  destruct z as [ | p | p]; cbn [binary_normalize]; [reflexivity | | ];
    unfold binary_round; destruct (shl_align _ _ _) as [mz ez];
    apply binary_round_aux_not_nan; lia.
Qed.

Lemma add_finite_not_nan (u v : number) :
  isFinite u = true -> isNaN v = false -> isNaN (u + v)%num = false.
Proof.
  destruct u as [su | su | | su mu eu]; try discriminate;
    destruct v as [sv | sv | | sv mv ev]; try discriminate; intros _ _;
    try reflexivity.
  - destruct su, sv; reflexivity.
  - apply binary_normalize_not_nan.
Qed.

Lemma add_not_nan_finite (u v : number) :
  isNaN u = false -> isFinite v = true -> isNaN (u + v)%num = false.
Proof. intros Hu Hv. rewrite add_comm. apply add_finite_not_nan; assumption. Qed.

Lemma half_not_nan (u : number) :
  isNaN u = false -> isNaN (Math_abs u / num_2)%num = false.
Proof.
  destruct u as [su | su | | su mu eu]; try discriminate; intros _; try reflexivity.
  unfold div, SFdiv, Math_abs, SFabs, num_2.
  destruct (SFdiv_core_binary prec emax (Z.pos mu) eu 4503599627370496 (-51))
    as [[mz ez] lz] eqn:E.
  apply binary_round_aux_not_nan.
  unfold SFdiv_core_binary in E.
  set (m' := match _ with Z.pos _ => _ | _ => _ end) in E.
  assert (Hm : 0 <= m').
  { unfold m'. destruct (_ - _ - _); try lia. apply Z.shiftl_nonneg. lia. }
  pose proof (Z.div_eucl_eq m' 4503599627370496 ltac:(lia)) as Hq.
  pose proof (Z.mod_pos_bound m' 4503599627370496 ltac:(lia)) as Hr.
  unfold Z.modulo in Hr.
  destruct (Z.div_eucl m' 4503599627370496) as [q r].
  injection E as <- _ _. nia.
Qed.

Lemma finite_not_nan (u : number) : isFinite u = true -> isNaN u = false.
Proof. destruct u; try discriminate; reflexivity. Qed.

(** When the three products of the shoelace formula are finite, the
    area is not NaN. *)
Lemma area_not_nan (A B C : Pt) :
  isFinite (x A * (y B - y C))%num = true ->
  isFinite (x B * (y C - y A))%num = true ->
  isFinite (x C * (y A - y B))%num = true ->
  isNaN (unsignedArea A B C) = false.
Proof.
  intros H1 H2 H3. unfold unsignedArea, doubleSignedArea.
  apply half_not_nan, add_not_nan_finite; [ | exact H3].
  apply add_finite_not_nan; [exact H1 | apply finite_not_nan, H2].
Qed.

Section FiniteProducts.

Context {host : MathHost}.

(** A valid result whose shoelace products are finite has pairwise
    non-coincident points and an area strictly above EPS. *)
Lemma valid_area_above_EPS (A B C : Pt) :
  isFinite (x A * (y B - y C))%num = true ->
  isFinite (x B * (y C - y A))%num = true ->
  isFinite (x C * (y A - y B))%num = true ->
  valid (triangleData (A, B, C)) = true ->
  coincide A B = false /\ coincide A C = false /\ coincide B C = false
  /\ (EPS <? unsignedArea A B C)%num = true.
Proof.
  intros H1 H2 H3 Hv.
  destruct (valid_area A B C Hv) as (K1 & K2 & K3 & [K | K]).
  - repeat split; assumption.
  - pose proof (area_not_nan A B C H1 H2 H3) as Hn.
    rewrite K in Hn; discriminate Hn.
Qed.

End FiniteProducts.

(** ** Comparisons, continued *)

Lemma le_refl (u : number) : isNaN u = false -> (u <=? u)%num = true.
Proof.
  destruct u as [s| s| |s m e]; try destruct s; try reflexivity; try discriminate;
    intros _; unfold le, SFleb, SFcompare;
    rewrite Z.compare_refl, Pos.compare_cont_refl; reflexivity.
Qed.

Lemma not_lt_le (u v : number) :
  isNaN u = false -> isNaN v = false ->
  (v <? u)%num = false -> (u <=? v)%num = true.
Proof.
  intros Hu Hv H.
  destruct (u <=? v)%num eqn:E; [reflexivity|].
  rewrite (not_le_lt u v Hu Hv E) in H. discriminate.
Qed.

Lemma le_not_nan (u v : number) :
  (u <=? v)%num = true -> isNaN u = false /\ isNaN v = false.
Proof. destruct u, v; try discriminate; split; reflexivity. Qed.

Lemma lt_not_nan (u v : number) :
  (u <? v)%num = true -> isNaN u = false /\ isNaN v = false.
Proof. destruct u, v; try discriminate; split; reflexivity. Qed.

Lemma compare_eq_z_l (u u' w : number) :
  eq_z u u' -> SFcompare u w = SFcompare u' w.
Proof.
  intros [->|[H1 H2]]; [reflexivity|].
  destruct u; try discriminate. destruct u'; try discriminate.
  destruct w; reflexivity.
Qed.

Lemma compare_eq_z_r (u u' w : number) :
  eq_z u u' -> SFcompare w u = SFcompare w u'.
Proof.
  intros [->|[H1 H2]]; [reflexivity|].
  destruct u; try discriminate. destruct u'; try discriminate.
  destruct w; reflexivity.
Qed.

Lemma le_eq_z_l (u u' w : number) : eq_z u u' -> (u <=? w)%num = (u' <=? w)%num.
Proof. intros H. unfold le, SFleb. rewrite (compare_eq_z_l u u' w H). reflexivity. Qed.

Lemma le_eq_z_r (u u' w : number) : eq_z u u' -> (w <=? u)%num = (w <=? u')%num.
Proof. intros H. unfold le, SFleb. rewrite (compare_eq_z_r u u' w H). reflexivity. Qed.

Lemma compare_Eq_eq_z (u v : number) : SFcompare u v = Some Eq -> eq_z u v.
Proof.
  destruct u as [s| s| |s m e], v as [s'| s'| |s' m' e']; cbn;
    try discriminate;
    try (intros _; right; split; reflexivity);
    try (destruct s; discriminate);
    try (destruct s'; discriminate).
  - destruct s, s'; try discriminate; intros _; left; reflexivity.
  - destruct s, s'; try discriminate;
      destruct (Z.compare e e') eqn:E; try discriminate;
      apply Z.compare_eq in E; subst e'; intros H; left; f_equal.
    + injection H as H. destruct (Pos.compare_cont Eq m m') eqn:E'; try discriminate.
      apply Pos.compare_eq in E'. exact E'.
    + injection H as H. apply Pos.compare_eq in H. exact H.
Qed.

Lemma le_not_lt_eq_z (u v : number) :
  (u <=? v)%num = true -> (u <? v)%num = false -> eq_z u v.
Proof.
  unfold le, lt, SFleb, SFltb. intros H1 H2.
  apply compare_Eq_eq_z.
  destruct (SFcompare u v) as [[ | | ]|]; try discriminate; reflexivity.
Qed.

(** [Math.min] returns an argument (up to the sign of a zero), whichever
    is not above the other. *)
Lemma min_cases (u v : number) :
  isNaN u = false -> isNaN v = false ->
  ((v <? u)%num = true /\ Math_min u v = v)
  \/ ((v <? u)%num = false /\ eq_z (Math_min u v) u).
Proof.
  intros Hu Hv.
  destruct (v <? u)%num eqn:E; [left|right]; split; try reflexivity.
  - destruct u, v; try discriminate; cbn in *; rewrite ?E; reflexivity.
  - destruct u, v; try discriminate;
      try (unfold Math_min; rewrite E; left; reflexivity).
    right; split; reflexivity.
Qed.

Lemma max_cases (u v : number) :
  isNaN u = false -> isNaN v = false ->
  ((u <? v)%num = true /\ Math_max u v = v)
  \/ ((u <? v)%num = false /\ eq_z (Math_max u v) u).
Proof.
  intros Hu Hv.
  destruct (u <? v)%num eqn:E; [left|right]; split; try reflexivity.
  - destruct u, v; try discriminate; cbn in *; rewrite ?E; reflexivity.
  - destruct u, v; try discriminate;
      try (unfold Math_max; rewrite E; left; reflexivity).
    right; split; reflexivity.
Qed.

Lemma eq_z_not_nan (u v : number) : eq_z u v -> isNaN v = false -> isNaN u = false.
Proof.
  intros [->|[H _]] Hv; [exact Hv|]. destruct u; try discriminate; reflexivity.
Qed.

Lemma min_not_nan (u v : number) :
  isNaN u = false -> isNaN v = false -> isNaN (Math_min u v) = false.
Proof.
  intros Hu Hv. destruct (min_cases u v Hu Hv) as [[_ ->]|[_ H]]; [exact Hv|].
  exact (eq_z_not_nan _ _ H Hu).
Qed.

(** ** [clamp] *)

Section Clamp.

Context {host : MathHost}.

(** X1: for bounds [min <= max] and a value that is a number, [clamp]
    returns a number of the interval: [min <= clamp v min max <= max]. *)
Theorem clamp_range (v min max : number) :
  (min <=? max)%num = true -> isNaN v = false ->
  (min <=? clamp v min max)%num = true /\ (clamp v min max <=? max)%num = true.
Proof.
  intros Hmm Hv.
  destruct (le_not_nan _ _ Hmm) as [Hmin Hmax].
  unfold clamp.
  assert (Ht : ((Math_min max v) <=? max)%num = true).
  { destruct (min_cases max v Hmax Hv) as [[H ->]|[_ H]].
    - apply lt_le, H.
    - rewrite (le_eq_z_l _ _ _ H). apply le_refl, Hmax. }
  pose proof (min_not_nan max v Hmax Hv) as Hn.
  destruct (max_cases min (Math_min max v) Hmin Hn) as [[H ->]|[_ H]].
  - split; [apply lt_le, H | exact Ht].
  - rewrite (le_eq_z_r _ _ _ H), (le_eq_z_l _ _ _ H).
    split; [apply le_refl, Hmin | exact Hmm].
Qed.

(** X2: a value that lies within the bounds is returned as it is (a zero
    may change its sign). *)
Theorem clamp_inside (v min max : number) :
  (min <=? v)%num = true -> (v <=? max)%num = true ->
  eq_z (clamp v min max) v.
Proof.
  intros H1 H2.
  destruct (le_not_nan _ _ H1) as [Hmin Hv].
  destruct (le_not_nan _ _ H2) as [_ Hmax].
  unfold clamp.
  assert (Ht : eq_z (Math_min max v) v).
  { destruct (min_cases max v Hmax Hv) as [[_ ->]|[H H']].
    - apply eq_z_refl.
    - eapply eq_z_trans; [exact H'|].
      apply eq_z_sym, le_not_lt_eq_z; assumption. }
  pose proof (min_not_nan max v Hmax Hv) as Hn.
  destruct (max_cases min (Math_min max v) Hmin Hn) as [[_ ->]|[H H']].
  - exact Ht.
  - eapply eq_z_trans; [exact H'|].
    eapply eq_z_trans; [|exact Ht].
    apply le_not_lt_eq_z; [|exact H].
    rewrite (le_eq_z_r _ _ _ Ht). exact H1.
Qed.

(** X3: [clamp] neither hides nor invents NaN: the result is NaN exactly
    when the value or one of the bounds is. *)
Theorem clamp_nan (v min max : number) :
  isNaN (clamp v min max) = isNaN v || isNaN min || isNaN max.
Proof.
  unfold clamp.
  destruct (isNaN max) eqn:Hmax.
  { destruct max; try discriminate. destruct min, v; reflexivity. }
  destruct (isNaN v) eqn:Hv.
  { destruct v; try discriminate. destruct min, max; reflexivity. }
  destruct (isNaN min) eqn:Hmin.
  { destruct min; try discriminate. reflexivity. }
  pose proof (min_not_nan max v Hmax Hv) as Hn.
  destruct (max_cases min (Math_min max v) Hmin Hn) as [[_ ->]|[_ H]].
  - exact Hn.
  - exact (eq_z_not_nan _ _ H Hmin).
Qed.

End Clamp.

Lemma clamp_range_witness :
  (num_m1 <=? num_1)%num = true /\ isNaN (of_Z 7) = false
  /\ (clamp (of_Z 7) num_m1 num_1 <=? num_1)%num = true.
Proof.
  split; [reflexivity|]. split; [reflexivity|].
  apply (clamp_range (of_Z 7) num_m1 num_1); reflexivity.
Defined.

Lemma clamp_inside_witness :
  (num_m1 <=? tenths 3)%num = true /\ (tenths 3 <=? num_1)%num = true
  /\ eq_z (clamp (tenths 3) num_m1 num_1) (tenths 3).
Proof.
  split; [vm_compute; reflexivity|]. split; [vm_compute; reflexivity|].
  apply (clamp_inside (tenths 3) num_m1 num_1); vm_compute; reflexivity.
Defined.

(** ** A point given twice *)

Lemma sub_self (u : number) :
  isFinite u = true -> (u - u)%num = S754_zero false.
Proof.
  destruct u as [s| s| |s m e]; try discriminate; intros _.
  - destruct s; reflexivity.
  - unfold sub, SFsub. rewrite Z.sub_diag. reflexivity.
Qed.

Lemma coincide_self (p : Pt) : finiteCoords p = true -> coincide p p = true.
Proof.
  unfold finiteCoords, coincide. intros H.
  apply andb_true_iff in H as [Hx Hy].
  rewrite (sub_self _ Hx), (sub_self _ Hy). reflexivity.
Qed.

Section Repeated.

Context {host : MathHost}.

(** X4: three points two of which are the same point, with finite
    coordinates, are rejected as coincident, wherever the repeated point
    stands and whatever the third point is. *)
Theorem repeated_point (p q : Pt) :
  finiteCoords p = true ->
  triangleData (p, p, q) = invalid reason_coincide
  /\ triangleData (p, q, p) = invalid reason_coincide
  /\ triangleData (q, p, p) = invalid reason_coincide.
Proof.
  intros H. pose proof (coincide_self p H) as Hc.
  rewrite !triangleData_unfold. unfold anyCoincide.
  rewrite Hc, !orb_true_r. cbn [orb]. repeat split.
Qed.

(** X5: on a host that follows ECMA-262, the distance from a point with
    finite coordinates to itself is +0. *)
Theorem distance_self (p : Pt) :
  ES_Math host -> finiteCoords p = true -> distance p p = S754_zero false.
Proof.
  intros ES H. unfold finiteCoords in H.
  apply andb_true_iff in H as [Hx Hy].
  unfold distance. rewrite (sub_self _ Hx), (sub_self _ Hy).
  apply (hypot_zero host ES); reflexivity.
Qed.

(** X6: exchanging the first two points reverses the orientation: the
    doubled signed area changes its sign and nothing else (a zero may keep
    its sign), so the verdict of [isCollinear] is the same. *)
Theorem orientation_reversed (pA pB pC : Pt) :
  eq_z (doubleSignedArea pB pA pC) (neg (doubleSignedArea pA pB pC))
  /\ isCollinear pB pA pC = isCollinear pA pB pC.
Proof.
  split.
  - unfold doubleSignedArea.
    eapply eq_z_trans; [ | apply neg_add].
    apply eq_z_add.
    + eapply eq_z_trans; [ | apply neg_add].
      rewrite (add_comm (neg _)).
      apply eq_z_add; rewrite <- mul_neg_r; apply eq_z_mul_r, sub_swap.
    + rewrite <- mul_neg_r. apply eq_z_mul_r, sub_swap.
  - unfold isCollinear. rewrite doubleSignedArea_swap_AB. reflexivity.
Qed.

End Repeated.

Lemma repeated_point_witness :
  finiteCoords (P 3 4) = true
  /\ triangleData (host := reference_host) (P 3 4, P 3 4, P 0 1)
     = invalid reason_coincide.
Proof.
  split; [reflexivity|].
  apply (repeated_point (host := reference_host) (P 3 4) (P 0 1)). reflexivity.
Defined.

Lemma distance_self_witness :
  ES_Math reference_host /\ finiteCoords (P 3 4) = true
  /\ distance (host := reference_host) (P 3 4) (P 3 4) = S754_zero false.
Proof.
  split; [exact reference_host_ES|]. split; [reflexivity|].
  apply (distance_self (host := reference_host) (P 3 4));
    [exact reference_host_ES | reflexivity].
Defined.

(** ** Degrees *)

Lemma mul_finite_not_nan (u : number) (s : bool) (m : positive) (e : Z) :
  isNaN u = false -> isNaN (u * S754_finite s m e)%num = false.
Proof.
  destruct u as [su | su | | su mu eu]; try discriminate; intros _;
    try reflexivity.
  unfold mul, SFmul. apply binary_round_aux_not_nan. lia.
Qed.

Lemma div_finite_not_nan (u : number) (s : bool) (m : positive) (e : Z) :
  isNaN u = false -> isNaN (u / S754_finite s m e)%num = false.
Proof.
  destruct u as [su | su | | su mu eu]; try discriminate; intros _;
    try reflexivity.
  unfold div, SFdiv.
  destruct (SFdiv_core_binary prec emax (Z.pos mu) eu (Z.pos m) e)
    as [[mz ez] lz] eqn:E.
  apply binary_round_aux_not_nan.
  unfold SFdiv_core_binary in E.
  set (m' := match _ with Z.pos _ => _ | _ => _ end) in E.
  assert (Hm : 0 <= m').
  { unfold m'. destruct (_ - _ - _); try lia. apply Z.shiftl_nonneg. lia. }
  pose proof (Z.div_eucl_eq m' (Z.pos m) ltac:(lia)) as Hq.
  pose proof (Z.mod_pos_bound m' (Z.pos m) ltac:(lia)) as Hr.
  unfold Z.modulo in Hr.
  destruct (Z.div_eucl m' (Z.pos m)) as [q r].
  injection E as <- _ _. nia.
Qed.

(** X18: the conversion to degrees neither hides nor invents NaN: an
    angle in degrees is NaN exactly when the angle in radians is. *)
Theorem toDeg_nan (rad : number) : isNaN (toDeg rad) = isNaN rad.
Proof.
  destruct (isNaN rad) eqn:H.
  - destruct rad; try discriminate. reflexivity.
  - unfold toDeg, Math_PI. apply div_finite_not_nan.
    unfold num_180. apply mul_finite_not_nan, H.
Qed.

(** ** Rounding, one step at a time *)

Lemma shr_1_half (mrs : shr_record) :
  0 <= shr_m mrs -> shr_m (shr_1 mrs) = shr_m mrs / 2.
Proof.
  destruct mrs as [m r s]; cbn [shr_m shr_1].
  destruct m as [ | [p | p | ] | p]; cbn [shr_m]; intros H; try lia.
  - reflexivity.
  - rewrite Pos2Z.inj_xI. apply Z.div_unique with 1; lia.
  - rewrite Pos2Z.inj_xO. apply Z.div_unique with 0; lia.
  - reflexivity.
Qed.

Lemma iter_shr_1_div (p : positive) (mrs : shr_record) :
  0 <= shr_m mrs ->
  shr_m (iter_pos shr_1 p mrs) = shr_m mrs / 2 ^ Zpos p.
Proof.
  revert mrs; induction p as [p IH | p IH | ]; intros mrs H; cbn [iter_pos].
  - rewrite IH by (apply iter_shr_1_nonneg, shr_1_nonneg, H).
    rewrite IH by (apply shr_1_nonneg, H).
    rewrite shr_1_half by exact H.
    rewrite !Z.div_div by (try apply Z.pow_pos_nonneg; lia).
    f_equal. rewrite Pos2Z.inj_xI.
    rewrite <- Z.pow_add_r by lia.
    rewrite <- (Z.pow_succ_r 2 (Z.pos p + Z.pos p)) by lia. f_equal. lia.
  - rewrite IH by (apply iter_shr_1_nonneg, H).
    rewrite IH by exact H.
    rewrite !Z.div_div by (try apply Z.pow_pos_nonneg; lia).
    f_equal. rewrite Pos2Z.inj_xO.
    rewrite <- Z.pow_add_r by lia. f_equal. lia.
  - rewrite shr_1_half by exact H. reflexivity.
Qed.

Lemma shr_div (mrs : shr_record) (e n : Z) :
  0 <= n -> 0 <= shr_m mrs ->
  shr_m (fst (shr mrs e n)) = shr_m mrs / 2 ^ n /\ snd (shr mrs e n) = e + n.
Proof.
  intros Hn Hm. unfold shr. destruct n as [ | p | p]; cbn [fst snd]; try lia.
  - rewrite Z.div_1_r. split; [reflexivity | lia].
  - split; [apply iter_shr_1_div, Hm | reflexivity].
Qed.

Lemma round_nearest_even_range (m : Z) (l : location) :
  m <= round_nearest_even m l <= m + 1.
Proof.
  unfold round_nearest_even. destruct l as [ | [ | | ]]; try lia.
  destruct (Z.even m); lia.
Qed.

Lemma shr_m_record_of_loc (m : Z) (l : location) :
  shr_m (shr_record_of_loc m l) = m.
Proof. destruct l as [ | [ | | ]]; reflexivity. Qed.

Lemma Zdigits2_bounds (m : Z) :
  0 < m -> 2 ^ (Zdigits2 m - 1) <= m < 2 ^ Zdigits2 m.
Proof.
  destruct m as [ | p | p]; try lia. intros _. apply digits2_pos_bounds.
Qed.

Lemma Zdigits2_pos (m : Z) : 0 < m -> 0 < Zdigits2 m.
Proof. destruct m; cbn; lia. Qed.

Lemma Zdigits2_le (m k : Z) : 0 < m -> m < 2 ^ k -> Zdigits2 m <= k.
Proof.
  intros Hm Hk. pose proof (Zdigits2_bounds m Hm) as [Hl _].
  destruct (Z_le_gt_dec (Zdigits2 m) k) as [L | L]; [exact L | exfalso].
  assert (0 <= k).
  { destruct (Z_le_gt_dec 0 k); [assumption | ].
    rewrite Z.pow_neg_r in Hk by lia. lia. }
  assert (2 ^ k <= 2 ^ (Zdigits2 m - 1)) by (apply Z.pow_le_mono_r; lia).
  lia.
Qed.

Lemma Zdigits2_ge (m k : Z) : 2 ^ (k - 1) <= m -> 0 < m -> k <= Zdigits2 m.
Proof.
  intros Hk Hm. pose proof (Zdigits2_bounds m Hm) as [_ Hu].
  pose proof (Zdigits2_pos m Hm).
  destruct (Z_le_gt_dec k (Zdigits2 m)) as [L | L]; [exact L | exfalso].
  assert (2 ^ Zdigits2 m <= 2 ^ (k - 1)) by (apply Z.pow_le_mono_r; lia).
  lia.
Qed.

Lemma fexp_eq (e : Z) : fexp prec emax e = Z.max (e - 53) (- 1074).
Proof. reflexivity. Qed.

(** The outcome of rounding a non-negative mantissa [mx] at the exponent
    [ex], which is not above the exponent [g] of the format at that
    magnitude: the mantissa is shifted down to [g], and is then the
    quotient or the next integer. *)
Lemma round_spec (mx ex : Z) (lx : location) :
  0 <= mx ->
  ex <= fexp prec emax (Zdigits2 mx + ex) ->
  fexp prec emax (Zdigits2 mx + ex) < 971 ->
  exists r1,
    mx / 2 ^ (fexp prec emax (Zdigits2 mx + ex) - ex) <= r1
      <= mx / 2 ^ (fexp prec emax (Zdigits2 mx + ex) - ex) + 1
    /\ wf (binary_round_aux prec emax false mx ex lx) = true
    /\ ((r1 = 0 /\ binary_round_aux prec emax false mx ex lx = S754_zero false)
        \/ (0 < r1 < 2 ^ 53
            /\ binary_round_aux prec emax false mx ex lx
               = S754_finite false (Z.to_pos r1)
                   (fexp prec emax (Zdigits2 mx + ex)))
        \/ (r1 = 2 ^ 53
            /\ binary_round_aux prec emax false mx ex lx
               = S754_finite false 4503599627370496
                   (fexp prec emax (Zdigits2 mx + ex) + 1))).
Proof.
  intros Hm Hg Ho.
  set (g := fexp prec emax (Zdigits2 mx + ex)) in *.
  unfold binary_round_aux, shr_fexp. fold g.
  destruct (shr_div (shr_record_of_loc mx lx) ex (g - ex) ltac:(lia)
              ltac:(rewrite shr_m_record_of_loc; exact Hm)) as [S1 S2].
  destruct (shr (shr_record_of_loc mx lx) ex (g - ex)) as [mrs' e'].
  cbn [fst snd] in S1, S2. rewrite shr_m_record_of_loc in S1.
  replace e' with g by lia. clear S2 e'.
  set (r1 := round_nearest_even (shr_m mrs') (loc_of_shr_record mrs')).
  pose proof (round_nearest_even_range (shr_m mrs') (loc_of_shr_record mrs')) as R.
  fold r1 in R. rewrite S1 in R.
  set (m0 := mx / 2 ^ (g - ex)) in *.
  assert (M0 : 0 <= m0) by (apply Z.div_pos; [exact Hm | apply Z.pow_pos_nonneg; lia]).
  assert (P2 : 0 < 2 ^ (g - ex)) by (apply Z.pow_pos_nonneg; lia).
  exists r1. split; [exact R | ].
  (* the magnitude of the shifted mantissa *)
  assert (B : m0 < 2 ^ 53 /\ (- 1074 < g -> 2 ^ 52 <= m0)).
  { destruct (Z.eq_dec mx 0) as [Z0 | NZ].
    - subst mx. unfold m0. rewrite Z.div_0_l by lia. split; [lia | ].
      intros Hn. exfalso. unfold g in Hn, Hg. rewrite fexp_eq in Hn, Hg.
      cbn [Zdigits2] in Hn, Hg. lia.
    - assert (Hp : 0 < mx) by lia.
      pose proof (Zdigits2_bounds mx Hp) as [Dl Du].
      pose proof (Zdigits2_pos mx Hp) as Dp.
      set (d := Zdigits2 mx) in *.
      assert (Gd : d - 53 <= g - ex) by (unfold g; rewrite fexp_eq; lia).
      split.
      + apply Z.div_lt_upper_bound; [exact P2 | ].
        apply Z.lt_le_trans with (1 := Du).
        destruct (Z_le_gt_dec 53 d) as [L | L].
        * replace d with ((d - 53) + 53) at 1 by lia.
          rewrite Z.pow_add_r by lia.
          assert (2 ^ (d - 53) <= 2 ^ (g - ex)) by (apply Z.pow_le_mono_r; lia).
          assert (0 < 2 ^ 53) by (apply Z.pow_pos_nonneg; lia).
          nia.
        * assert (2 ^ d <= 2 ^ 53) by (apply Z.pow_le_mono_r; lia).
          assert (0 < 2 ^ 53) by (apply Z.pow_pos_nonneg; lia).
          nia.
      + intros Hn.
        assert (Eg : g - ex = d - 53) by (unfold g; rewrite fexp_eq; unfold g in Hn; rewrite fexp_eq in Hn; lia).
        unfold m0. rewrite Eg.
        apply Z.div_le_lower_bound; [apply Z.pow_pos_nonneg; lia | ].
        replace (2 ^ (d - 53) * 2 ^ 52) with (2 ^ (d - 1)).
        * exact Dl.
        * rewrite <- Z.pow_add_r by lia. f_equal. lia. }
  destruct B as [Bu Bl].
  assert (Gm : - 1074 <= g) by (unfold g; rewrite fexp_eq; lia).
  (* the second shift *)
  assert (C : (r1 = 0 \/ 0 < r1 < 2 ^ 53) /\ fexp prec emax (Zdigits2 r1 + g) - g = 0
              \/ r1 = 2 ^ 53 /\ fexp prec emax (Zdigits2 r1 + g) - g = 1).
  { destruct (Z.eq_dec r1 (2 ^ 53)) as [E | NE].
    - right. split; [exact E | ]. rewrite E. rewrite fexp_eq.
      change (Zdigits2 (2 ^ 53)) with 54. lia.
    - left. destruct (Z.eq_dec r1 0) as [Z0 | NZ].
      + split; [left; exact Z0 | ]. rewrite Z0, fexp_eq. cbn [Zdigits2].
        assert (g = - 1074); [ | lia].
        destruct (Z.eq_dec g (- 1074)); [assumption | ].
        assert (2 ^ 52 <= m0) by (apply Bl; lia). lia.
      + assert (Hr : 0 < r1 < 2 ^ 53) by lia.
        split; [right; exact Hr | ].
        rewrite fexp_eq.
        pose proof (Zdigits2_le r1 53 ltac:(lia) ltac:(lia)) as D1.
        destruct (Z.eq_dec g (- 1074)) as [E | NE']; [lia | ].
        assert (2 ^ 52 <= m0) by (apply Bl; lia).
        pose proof (Zdigits2_ge r1 53 ltac:(change (53 - 1) with 52; lia) ltac:(lia)).
        lia. }
  destruct C as [[Hr E2] | [Hr E2]].
  - rewrite E2. change (shr (shr_record_of_loc r1 loc_Exact) g 0)
      with (shr_record_of_loc r1 loc_Exact, g).
    cbn [shr_m shr_record_of_loc].
    destruct Hr as [Z0 | Hr].
    + rewrite Z0. split; [reflexivity | ]. left. split; reflexivity.
    + destruct r1 as [ | q | q]; try lia.
      assert (Le : (g <=? emax - prec) = true) by (apply Z.leb_le; unfold emax, prec; lia).
      rewrite Le.
      assert (W : wf (S754_finite false q g) = true).
      { unfold wf, valid_binary, bounded. rewrite Le, andb_true_r.
        unfold canonical_mantissa. apply Z.eqb_eq.
        assert (fexp prec emax (Zdigits2 (Z.pos q) + g) - g = 0) by exact E2.
        cbn [Zdigits2] in H. lia. }
      split; [exact W | ]. right. left. split; [exact Hr | reflexivity].
  - rewrite E2, Hr.
    change (shr (shr_record_of_loc (2 ^ 53) loc_Exact) g 1)
      with (Build_shr_record 4503599627370496 false false, g + 1).
    cbn [shr_m].
    assert (Le : (g + 1 <=? emax - prec) = true) by (apply Z.leb_le; unfold emax, prec; lia).
    rewrite Le.
    assert (W : wf (S754_finite false 4503599627370496 (g + 1)) = true).
    { unfold wf, valid_binary, bounded. rewrite Le, andb_true_r.
      unfold canonical_mantissa. apply Z.eqb_eq.
      rewrite fexp_eq. change (Z.pos (digits2_pos 4503599627370496)) with 53. lia. }
    split; [exact W | ]. right. right. split; reflexivity.
Qed.

(** ** The order of positive numbers, by exponent and mantissa *)

Lemma le_finite_iff (m M : positive) (e E : Z) :
  (S754_finite false m e <=? S754_finite false M E)%num = true
  <-> e < E \/ (e = E /\ Zpos m <= Zpos M).
Proof.
  unfold le, SFleb, SFcompare.
  destruct (Z.compare_spec e E) as [H | H | H].
  - subst E. change (Pos.compare_cont Eq m M) with (m ?= M)%positive.
    destruct (Pos.compare_spec m M) as [K | K | K]; split; intros G;
      first [ reflexivity | discriminate
            | right; split; [reflexivity | lia]
            | destruct G as [G | [_ G]]; lia ].
  - split; intros G; [left; exact H | reflexivity].
  - split; intros G; [discriminate | lia].
Qed.

Lemma zero_le_pos (u : number) :
  u = S754_zero false \/ (exists m e, u = S754_finite false m e) ->
  (of_Z 0 <=? u)%num = true.
Proof. intros [-> | (m & e & ->)]; reflexivity. Qed.

(** The quotient and the exponent that [SFdiv] hands to the rounding. *)
Lemma div_core_spec (m1 m2 : positive) (e1 e2 : Z) :
  exists l,
    SFdiv_core_binary prec emax (Zpos m1) e1 (Zpos m2) e2
    = (Zpos m1
         * 2 ^ (e1 - e2
                - Z.min (fexp prec emax (Zdigits2 (Zpos m1) + e1
                                         - (Zdigits2 (Zpos m2) + e2)))
                        (e1 - e2))
         / Zpos m2,
       Z.min (fexp prec emax (Zdigits2 (Zpos m1) + e1
                              - (Zdigits2 (Zpos m2) + e2)))
             (e1 - e2),
       l).
Proof.
  unfold SFdiv_core_binary.
  set (E := Z.min _ _).
  assert (Hs : 0 <= e1 - e2 - E) by (unfold E; lia).
  set (s := e1 - e2 - E) in *. clearbody s.
  assert (Hm : match s with
               | Z.pos _ => Z.shiftl (Z.pos m1) s
               | 0 => Z.pos m1
               | Z.neg _ => 0
               end = Z.pos m1 * 2 ^ s).
  { destruct s as [ | p | p].
    - rewrite Z.mul_1_r. reflexivity.
    - apply Z.shiftl_mul_pow2. lia.
    - lia. }
  rewrite Hm. unfold Z.div.
  destruct (Z.div_eucl (Z.pos m1 * 2 ^ s) (Z.pos m2)) as [q r].
  eexists. reflexivity.
Qed.

(** ** Degrees *)

Lemma wf_digits (m : positive) (e : Z) :
  wf (S754_finite false m e) = true ->
  - 1074 <= e /\ Zpos m < 2 ^ 53
  /\ (- 1074 < e -> 2 ^ 52 <= Zpos m /\ Zdigits2 (Zpos m) = 53)
  /\ Zdigits2 (Zpos m) <= 53.
Proof.
  unfold wf, valid_binary, bounded. intros W.
  apply andb_prop in W as [W _].
  destruct (canonical_bounds m e W) as (H1 & H2 & H3).
  split; [exact H1 | ]. split; [exact H2 | ].
  pose proof (Zdigits2_le (Zpos m) 53 ltac:(lia) H2) as D.
  split; [ | exact D].
  intros He. specialize (H3 He). split; [exact H3 | ].
  pose proof (Zdigits2_ge (Zpos m) 53 ltac:(change (53 - 1) with 52; exact H3) ltac:(lia)).
  lia.
Qed.

Lemma mul_180_le (m : positive) (e : Z) :
  wf (S754_finite false m e) = true ->
  (S754_finite false m e <=? Math_PI)%num = true ->
  wf (S754_finite false m e * num_180)%num = true
  /\ ((S754_finite false m e * num_180)%num = S754_zero false
      \/ exists mp ep,
           (S754_finite false m e * num_180)%num = S754_finite false mp ep
           /\ (ep < - 43 \/ (ep = - 43 /\ Zpos mp <= 4974073419394997))).
Proof.
  intros W L.
  destruct (wf_digits m e W) as (E1 & M1 & _ & D1).
  apply le_finite_iff in L.
  change ((S754_finite false m e * num_180)%num)
    with (binary_round_aux prec emax false
            (Zpos (m * 6333186975989760)) (e + - 45) loc_Exact).
  set (M := Zpos (m * 6333186975989760)).
  assert (EM : M = Zpos m * 6333186975989760) by reflexivity.
  assert (Ml : 2 ^ 52 <= M) by (rewrite EM; change (2 ^ 52) with 4503599627370496; lia).
  assert (Mu : M < 2 ^ 106).
  { rewrite EM. change (2 ^ 106) with (2 ^ 53 * 2 ^ 53).
    change (2 ^ 53) with 9007199254740992 in *. nia. }
  pose proof (Zdigits2_ge M 53 ltac:(change (53 - 1) with 52; exact Ml) ltac:(lia)) as Dl.
  pose proof (Zdigits2_le M 106 ltac:(lia) Mu) as Du.
  assert (G : fexp prec emax (Zdigits2 M + (e + - 45))
              = Z.max (Zdigits2 M + e - 98) (- 1074)).
  { rewrite fexp_eq. f_equal. lia. }
  destruct (round_spec M (e + - 45) loc_Exact ltac:(lia)
              ltac:(rewrite G; lia) ltac:(rewrite G; lia))
    as (r1 & R & Wp & Cases).
  split; [exact Wp | ].
  rewrite G in R, Cases.
  set (g := Z.max (Zdigits2 M + e - 98) (- 1074)) in *.
  assert (Hg : g <= - 43) by (unfold g; lia).
  (* the mantissa in the topmost binade *)
  assert (Top : g = - 43 -> r1 <= 4974073419394997).
  { intros Eg.
    assert (e = - 51) by (unfold g in Eg; lia).
    assert (Zpos m <= 7074237752028440) by lia.
    replace (g - (e + - 45)) with 53 in R by lia.
    assert (M / 2 ^ 53 <= (7074237752028440 * 6333186975989760) / 2 ^ 53).
    { apply Z.div_le_mono; [reflexivity | rewrite EM; lia]. }
    change (7074237752028440 * 6333186975989760 / 2 ^ 53)
      with 4974073419394996 in H1.
    lia. }
  destruct Cases as [[_ ->] | [[Hr ->] | [Hr ->]]].
  - left. reflexivity.
  - right. exists (Z.to_pos r1), g. split; [reflexivity | ].
    destruct (Z.eq_dec g (- 43)) as [Eg | Ng]; [right | left; lia].
    split; [exact Eg | ]. rewrite Z2Pos.id by lia. apply Top, Eg.
  - right. exists 4503599627370496%positive, (g + 1). split; [reflexivity | ].
    destruct (Z.eq_dec g (- 43)) as [Eg | Ng].
    + specialize (Top Eg). change (2 ^ 53) with 9007199254740992 in Hr. lia.
    + destruct (Z.eq_dec (g + 1) (- 43)) as [Eg | Ng']; [right | left; lia].
      split; [exact Eg | lia].
Qed.

(** The quotient by [Math.PI] that is handed to the rounding, and the
    exponent of the format there. *)
Lemma div_PI_core (mp : positive) (ep : Z) :
  wf (S754_finite false mp ep) = true ->
  exists qz E l,
    (S754_finite false mp ep / Math_PI)%num
    = binary_round_aux prec emax false qz E l
    /\ E = Z.min (Z.max (Zdigits2 (Zpos mp) + ep - 55) (- 1074)) (ep + 51)
    /\ qz = Zpos mp * 2 ^ (ep + 51 - E) / 7074237752028440
    /\ 0 <= qz
    /\ E <= fexp prec emax (Zdigits2 qz + E)
    /\ fexp prec emax (Zdigits2 qz + E)
       <= Z.max (Zdigits2 (Zpos mp) + ep - 54) (- 1074).
Proof.
  intros W.
  destruct (wf_digits mp ep W) as (E1 & M1 & N1 & D1).
  unfold div, SFdiv, Math_PI.
  destruct (div_core_spec mp 7074237752028440 ep (- 51)) as [l ->].
  change (Zdigits2 (Z.pos 7074237752028440)) with 53.
  change (xorb false false) with false.
  set (d1 := Zdigits2 (Z.pos mp)) in *.
  assert (Dp : 0 < d1) by (apply Zdigits2_pos; lia).
  set (E := Z.min (fexp prec emax (d1 + ep - (53 + - 51))) (ep - - 51)).
  assert (EE : E = Z.min (Z.max (d1 + ep - 55) (- 1074)) (ep + 51))
    by (unfold E; rewrite fexp_eq; f_equal; lia).
  replace (ep - - 51 - E) with (ep + 51 - E) by lia.
  set (s := ep + 51 - E).
  assert (Hs : 0 <= s) by (unfold s; lia).
  set (qz := Z.pos mp * 2 ^ s / 7074237752028440).
  assert (P2 : 0 < 2 ^ s) by (apply Z.pow_pos_nonneg; lia).
  assert (Q0 : 0 <= qz) by (apply Z.div_pos; nia).
  assert (Qm : qz * 7074237752028440 <= Z.pos mp * 2 ^ s)
    by (unfold qz; rewrite Z.mul_comm; apply Z.mul_div_le; lia).
  pose proof (Zdigits2_bounds (Z.pos mp) ltac:(lia)) as [Bl Bu].
  fold d1 in Bl, Bu.
  assert (Pu : Z.pos mp * 2 ^ s < 2 ^ (d1 + s)) by (rewrite Z.pow_add_r by lia; nia).
  exists qz, E, l.
  split; [reflexivity | ]. split; [exact EE | ]. split; [reflexivity | ].
  split; [exact Q0 | ]. split.
  - rewrite fexp_eq.
    destruct (Z.eq_dec E (- 1074)) as [E0 | E0]; [lia | ].
    assert (S1 : 106 - d1 <= s) by (unfold s; lia).
    assert (H105 : 2 ^ 105 <= Z.pos mp * 2 ^ s).
    { replace 105 with ((d1 - 1) + (106 - d1)) by lia.
      rewrite Z.pow_add_r by lia.
      assert (2 ^ (106 - d1) <= 2 ^ s) by (apply Z.pow_le_mono_r; lia).
      assert (0 < 2 ^ (106 - d1)) by (apply Z.pow_pos_nonneg; lia).
      assert (0 < 2 ^ (d1 - 1)) by (apply Z.pow_pos_nonneg; lia).
      nia. }
    assert (H52 : 2 ^ 52 <= qz).
    { unfold qz. apply Z.div_le_lower_bound; [lia | ].
      change (2 ^ 105) with 40564819207303340847894502572032 in H105.
      change (2 ^ 52) with 4503599627370496. lia. }
    pose proof (Zdigits2_ge qz 53 ltac:(change (53 - 1) with 52; lia) ltac:(lia)).
    lia.
  - rewrite fexp_eq.
    destruct (Z.eq_dec qz 0) as [Z0 | Z0].
    { rewrite Z0. cbn [Zdigits2]. lia. }
    assert (K : qz < 2 ^ (d1 + s - 52)).
    { destruct (Z_lt_le_dec qz (2 ^ (d1 + s - 52))) as [K | K]; [exact K | exfalso].
      assert (d1 + s - 52 < 0 \/ 0 <= d1 + s - 52) as [Ng | Pg] by lia.
      - assert (2 ^ (d1 + s) <= 2 ^ 52) by (apply Z.pow_le_mono_r; lia).
        change (2 ^ 52) with 4503599627370496 in *.
        assert (qz = 0); [ | lia].
        unfold qz. apply Z.div_small. lia.
      - replace (d1 + s) with ((d1 + s - 52) + 52) in Pu by lia.
        rewrite Z.pow_add_r in Pu by lia.
        change (2 ^ 52) with 4503599627370496 in *.
        nia. }
    pose proof (Zdigits2_le qz (d1 + s - 52) ltac:(lia) K). unfold s in *. lia.
Qed.

Lemma div_PI_le (mp : positive) (ep : Z) :
  wf (S754_finite false mp ep) = true ->
  ep < - 43 \/ (ep = - 43 /\ Zpos mp <= 4974073419394997) ->
  (S754_finite false mp ep / Math_PI <=? num_180)%num = true
  /\ (of_Z 0 <=? S754_finite false mp ep / Math_PI)%num = true.
Proof.
  intros W L.
  assert (Top : ep = - 43 /\ mp = 4974073419394997%positive
                \/ (ep < - 43 \/ (ep = - 43 /\ Zpos mp <= 4974073419394996))).
  { destruct L as [L | [L1 L2]]; [right; left; exact L | ].
    destruct (Pos.eq_dec mp 4974073419394997) as [Em | Nm]; [left; auto | ].
    right. right. split; [exact L1 | ].
    assert (Zpos mp <> 4974073419394997) by (intros K; apply Nm; congruence).
    lia. }
  destruct Top as [[-> ->] | L'].
  { split; vm_compute; reflexivity. }
  clear L.
  destruct (wf_digits mp ep W) as (E1 & M1 & N1 & D1).
  destruct (div_PI_core mp ep W) as (qz & E & l & -> & EE & Eq & Q0 & F2 & F3).
  destruct (round_spec qz E l Q0 F2 ltac:(lia)) as (r1 & R & Wq & Cases).
  set (g := fexp prec emax (Zdigits2 qz + E)) in *.
  set (d1 := Zdigits2 (Zpos mp)) in *.
  (* the mantissa at the exponent of 180 *)
  assert (Hg : g <= - 45 /\ (g = - 45 -> r1 <= 6333186975989760)).
  { destruct (Z_le_gt_dec ep (- 45)) as [A | A]; [split; lia | ].
    destruct (N1 ltac:(lia)) as [N2 N3]. fold d1 in N3.
    assert (EE' : E = ep - 2) by lia.
    assert (Es : ep + 51 - E = 53) by lia.
    rewrite Es in Eq.
    destruct (Z.eq_dec ep (- 44)) as [B | B].
    - split; [lia | ]. intros Eg.
      replace (g - E) with 1 in R by lia. change (2 ^ 1) with 2 in R.
      assert (qz <= (9007199254740991 * 2 ^ 53) / 7074237752028440).
      { rewrite Eq. apply Z.div_le_mono; [reflexivity | ].
        change (2 ^ 53) with 9007199254740992 in *. lia. }
      change (9007199254740991 * 2 ^ 53 / 7074237752028440)
        with 11468322278445316 in H.
      assert (qz / 2 <= 11468322278445316 / 2) by (apply Z.div_le_mono; lia).
      change (11468322278445316 / 2) with 5734161139222658 in H0. lia.
    - assert (C : ep = - 43 /\ Zpos mp <= 4974073419394996) by lia.
      destruct C as [C1 C2].
      assert (qz <= (4974073419394996 * 2 ^ 53) / 7074237752028440).
      { rewrite Eq. apply Z.div_le_mono; [reflexivity | ].
        change (2 ^ 53) with 9007199254740992 in *. lia. }
      change (4974073419394996 * 2 ^ 53 / 7074237752028440)
        with 6333186975989758 in H.
      assert (Dq : Zdigits2 qz <= 53).
      { destruct (Z.eq_dec qz 0) as [Z0 | Z0]; [rewrite Z0; cbn; lia | ].
        apply Zdigits2_le; [lia | ]. change (2 ^ 53) with 9007199254740992. lia. }
      assert (Gq : g <= - 45) by (unfold g; rewrite fexp_eq; lia).
      split; [exact Gq | ]. intros Eg.
      replace (g - E) with 0 in R by lia. change (2 ^ 0) with 1 in R.
      rewrite Z.div_1_r in R. lia. }
  destruct Hg as [Hg Hm].
  destruct Cases as [[_ ->] | [[Hr ->] | [Hr ->]]].
  - split; reflexivity.
  - split; [ | reflexivity].
    apply le_finite_iff.
    destruct (Z.eq_dec g (- 45)) as [Eg | Ng]; [right | left; lia].
    split; [exact Eg | ]. rewrite Z2Pos.id by lia. apply Hm, Eg.
  - split; [ | reflexivity].
    apply le_finite_iff.
    destruct (Z.eq_dec g (- 45)) as [Eg | Ng].
    + specialize (Hm Eg). change (2 ^ 53) with 9007199254740992 in Hr. lia.
    + destruct (Z.eq_dec (g + 1) (- 45)) as [Eg | Ng']; [right | left; lia].
      split; [exact Eg | lia].
Qed.

(** [toDeg] maps the numbers of [0, Math.PI] into [0, 180]. *)
Lemma toDeg_range (r : number) :
  wf r = true ->
  (of_Z 0 <=? r)%num = true -> (r <=? Math_PI)%num = true ->
  (of_Z 0 <=? toDeg r)%num = true /\ (toDeg r <=? num_180)%num = true.
Proof.
  intros W L0 L1. unfold toDeg.
  destruct r as [s | s | | s m e]; try discriminate.
  - destruct s; split; reflexivity.
  - destruct s; discriminate.
  - destruct s; [discriminate | ].
    destruct (mul_180_le m e W L1) as (Wp & [Ep | (mp & ep & Ep & Lp)]);
      rewrite Ep in Wp |- *.
    + split; reflexivity.
    + destruct (div_PI_le mp ep Wp Lp) as [H1 H2]. split; assumption.
Qed.

(** ** The range of the angles *)

Lemma toDeg_between (r : number) :
  wf r = true -> between (of_Z 0) Math_PI r ->
  between (of_Z 0) (of_Z 180) (toDeg r).
Proof.
  intros W [L0 L1]. exact (toDeg_range r W L0 L1).
Qed.

Section Angles.

Context {host : MathHost}.
Hypothesis host_ES : ES_Math host.

(** C3 (amended). For points that are pairwise distinct beyond EPS, with
    finite sides and an area above EPS, the result is valid and each angle
    is the conversion to degrees of [Math.acos] at a clamped cosine: NaN,
    or a number of the closed interval [-1, 1].  Whenever [Math.acos]
    answers at that cosine with a number between 0 and [Math.PI], the
    angle lies in the closed interval from 0 to 180 degrees: the product
    by 180 and the quotient by [Math.PI] round, and neither rounding
    leaves the interval.  Both ends are met: at the cosine 1 the angle is
    exactly 0, and where [Math.acos] gives [Math.PI] it is exactly 180.
    At a cosine that is NaN the angle is NaN. *)
Theorem angles_of_clamped_cosines (A B C : Pt) :
  anyCoincide A B C = false ->
  anyNonFinite A B C = false ->
  (EPS <? unsignedArea A B C)%num = true ->
  let a := distance B C in
  let b := distance A C in
  let c := distance A B in
  valid (triangleData (A, B, C)) = true
  /\ angles (triangleData (A, B, C))
     = Some (mkAngles (toDeg (Math_acos (cosine a b c)))
                      (toDeg (Math_acos (cosine b a c)))
                      (toDeg (Math_acos (cosine c a b))))
  /\ clamped (cosine a b c) /\ clamped (cosine b a c) /\ clamped (cosine c a b)
  /\ toDeg (Math_acos num_1) = S754_zero false
  /\ (acos_in_range (cosine a b c) ->
      between (of_Z 0) (of_Z 180) (toDeg (Math_acos (cosine a b c))))
  /\ (acos_in_range (cosine b a c) ->
      between (of_Z 0) (of_Z 180) (toDeg (Math_acos (cosine b a c))))
  /\ (acos_in_range (cosine c a b) ->
      between (of_Z 0) (of_Z 180) (toDeg (Math_acos (cosine c a b))))
  /\ (forall k, Math_acos k = Math_PI -> toDeg (Math_acos k) = of_Z 180)
  /\ toDeg (Math_acos NaN) = NaN.
Proof.
  intros Hc Hf Ha a b c.
  assert (Hd : degenerate A B C = false) by (apply lt_not_le; exact Ha).
  rewrite triangleData_unfold, Hc, Hf, Hd. cbv zeta. cbn [valid angles].
  split; [reflexivity | ].
  split; [reflexivity | ].
  split; [apply clamp_unit | ].
  split; [apply clamp_unit | ].
  split; [apply clamp_unit | ].
  split; [rewrite (acos_one host host_ES); apply toDeg_zero | ].
  split; [intros [W R]; apply toDeg_between; assumption | ].
  split; [intros [W R]; apply toDeg_between; assumption | ].
  split; [intros [W R]; apply toDeg_between; assumption | ].
  split; [intros k ->; apply toDeg_PI | ].
  rewrite (acos_nan host host_ES). reflexivity.
Qed.

End Angles.

(** [angles_of_clamped_cosines] on the 3-4-5 triangle: the reference host
    answers in range at the three cosines, and the three angles lie
    between 0 and 180 degrees. *)
Lemma angles_of_clamped_cosines_witness :
  let a := distance (host := reference_host) (P 4 0) (P 0 3) in
  let b := distance (host := reference_host) (P 0 0) (P 0 3) in
  let c := distance (host := reference_host) (P 0 0) (P 4 0) in
  ES_Math reference_host
  /\ anyCoincide (P 0 0) (P 4 0) (P 0 3) = false
  /\ anyNonFinite (host := reference_host) (P 0 0) (P 4 0) (P 0 3) = false
  /\ (EPS <? unsignedArea (P 0 0) (P 4 0) (P 0 3))%num = true
  /\ valid (triangleData (host := reference_host) (P 0 0, P 4 0, P 0 3)) = true
  /\ acos_in_range (host := reference_host) (cosine a b c)
  /\ acos_in_range (host := reference_host) (cosine b a c)
  /\ acos_in_range (host := reference_host) (cosine c a b)
  /\ between (of_Z 0) (of_Z 180) (toDeg (acos_fx (cosine a b c)))
  /\ between (of_Z 0) (of_Z 180) (toDeg (acos_fx (cosine b a c)))
  /\ between (of_Z 0) (of_Z 180) (toDeg (acos_fx (cosine c a b))).
Proof.
  intros a b c.
  assert (RA : acos_in_range (host := reference_host) (cosine a b c))
    by (split; [ | split]; vm_compute; reflexivity).
  assert (RB : acos_in_range (host := reference_host) (cosine b a c))
    by (split; [ | split]; vm_compute; reflexivity).
  assert (RC : acos_in_range (host := reference_host) (cosine c a b))
    by (split; [ | split]; vm_compute; reflexivity).
  pose proof (angles_of_clamped_cosines (host := reference_host)
                reference_host_ES (P 0 0) (P 4 0) (P 0 3)
                ltac:(vm_compute; reflexivity) ltac:(vm_compute; reflexivity)
                ltac:(vm_compute; reflexivity)) as H.
  cbv zeta in H.
  destruct H as (V & _ & _ & _ & _ & _ & HA & HB & HC & _).
  split; [exact reference_host_ES | ].
  split; [vm_compute; reflexivity | ].
  split; [vm_compute; reflexivity | ].
  split; [vm_compute; reflexivity | ].
  split; [exact V | ].
  split; [exact RA | ].
  split; [exact RB | ].
  split; [exact RC | ].
  split; [exact (HA RA) | ].
  split; [exact (HB RB) | exact (HC RC)].
Defined.

(** C3. On the sliver A=(0,0), B=(2^27,0), C=(2^27+1,1) the points are
    pairwise distinct, the sides are finite and the area is above EPS, yet
    the angle at A is exactly 0, outside the open interval (0, 180), and
    the sum of the three angles is 180 - 0.00000128: it misses 180 by more
    than 1e-6. *)
Lemma sliver_angles :
  anyCoincide sliver_A sliver_B sliver_C = false
  /\ (EPS <? unsignedArea sliver_A sliver_B sliver_C)%num = true
  /\ valid (triangleData (host := reference_host) (sliver_A, sliver_B, sliver_C)) = true
  /\ exists g,
       angles (triangleData (host := reference_host) (sliver_A, sliver_B, sliver_C))
       = Some g
       /\ A g = S754_zero false
       /\ (of_Z 0 <? A g)%num = false
       /\ (angle_tolerance <? Math_abs (A g + B g + C g - of_Z 180))%num = true.
Proof.
  split; [vm_compute; reflexivity | ].
  split; [vm_compute; reflexivity | ].
  split; [vm_compute; reflexivity | ].
  eexists; split; [vm_compute; reflexivity | ].
  split; [reflexivity | ].
  split; [reflexivity | vm_compute; reflexivity].
Qed.

(** On A=(0,0), B=(-1,0), C=(2^27,1), of area 1/2, the sides are 2^27+1,
    2^27 and 1: the angle at A is exactly 180, the angle at C exactly 0
    and the angle at B is 0.00699 degrees, so the sum misses 180 by more
    than 0.005. *)
Example angle_sum_far_from_180 :
  valid (triangleData (host := reference_host) (P 0 0, P (-1) 0, P (2 ^ 27) 1)) = true
  /\ exists g,
       angles (triangleData (host := reference_host) (P 0 0, P (-1) 0, P (2 ^ 27) 1))
       = Some g
       /\ A g = of_Z 180
       /\ C g = S754_zero false
       /\ (of_Z 1 / of_Z 200 <? Math_abs (A g + B g + C g - of_Z 180))%num = true.
Proof.
  split; [vm_compute; reflexivity | ].
  eexists; split; [vm_compute; reflexivity | ].
  split; [reflexivity | ].
  split; [reflexivity | vm_compute; reflexivity].
Qed.

(** On A=(0,0), B=(2^600,0), C=(0,2^600) the sides are finite, their
    squares are not: the result is valid and its three angles are NaN. *)
Example overflowing_squares_angles :
  valid (triangleData (host := reference_host) (P 0 0, P (2 ^ 600) 0, P 0 (2 ^ 600))) = true
  /\ angles (triangleData (host := reference_host) (P 0 0, P (2 ^ 600) 0, P 0 (2 ^ 600)))
     = Some (mkAngles NaN NaN NaN).
Proof. split; vm_compute; reflexivity. Qed.

(** ** Sides and perimeter of a valid result *)

Section ValidSides.

Context {host : MathHost}.

(** X20: in a valid result the three side lengths are finite numbers,
    and the perimeter is a number: it may overflow to Infinity, but it is
    never NaN. *)
Theorem valid_sides_finite (pA pB pC : Pt) :
  valid (triangleData (pA, pB, pC)) = true ->
  exists s p,
    sides (triangleData (pA, pB, pC)) = Some s
    /\ perimeter (triangleData (pA, pB, pC)) = Some p
    /\ isFinite (a s) = true /\ isFinite (b s) = true
    /\ isFinite (c s) = true /\ isNaN p = false.
Proof.
  intros V. destruct (valid_checks pA pB pC V) as (Hc & Hn & Hd).
  rewrite triangleData_unfold, Hc, Hn, Hd. cbv zeta. cbn [sides perimeter].
  unfold anyNonFinite in Hn.
  apply orb_false_iff in Hn as [Hn Hab]. apply orb_false_iff in Hn as [Ha Hb].
  apply negb_false_iff in Ha, Hb, Hab.
  eexists; eexists. split; [reflexivity|]. split; [reflexivity|].
  cbn [a b c]. repeat (split; [assumption|]).
  apply add_not_nan_finite; [|exact Hab].
  apply add_finite_not_nan; [exact Ha|]. apply finite_not_nan, Hb.
Qed.

End ValidSides.

Lemma valid_sides_finite_witness :
  valid (triangleData (host := reference_host) (P 0 0, P 4 0, P 0 3)) = true
  /\ exists s p,
       sides (triangleData (host := reference_host) (P 0 0, P 4 0, P 0 3)) = Some s
       /\ perimeter (triangleData (host := reference_host) (P 0 0, P 4 0, P 0 3)) = Some p
       /\ isFinite (a s) = true /\ isFinite (b s) = true
       /\ isFinite (c s) = true /\ isNaN p = false.
Proof.
  split; [vm_compute; reflexivity|].
  apply (valid_sides_finite (host := reference_host) (P 0 0) (P 4 0) (P 0 3)).
  vm_compute; reflexivity.
Defined.

(** ** Arrays that are too short *)

Section ShortArrays.

Context {host : MathHost}.

(** X7: on an array of fewer than three points the engine never returns
    a valid result: it throws a TypeError, unless there are two points
    and they coincide, which it reports before it reads the third. *)
Theorem short_array (pts : list Pt) (w : Runtime.World) :
  (List.length pts < 3)%nat ->
  Runtime.triangleData pts w =
  match pts with
  | [pA; pB] =>
      if coincide pA pB
      then (Runtime.Normal (invalid reason_coincide), w)
      else (Runtime.Throw "TypeError", w)
  | _ => (Runtime.Throw "TypeError", w)
  end.
Proof.
  destruct pts as [|pA [|pB [|pC rest]]]; cbn [List.length]; intros H;
    try lia; try reflexivity.
  unfold Runtime.triangleData, coincide.
  cbn [nth_error].
  unfold Runtime.or_else, Runtime.coincide, Runtime.bind, Runtime.get,
    Runtime.ret, Runtime.throw.
  destruct (Math_abs (x pA - x pB) <? EPS)%num;
    destruct (Math_abs (y pA - y pB) <? EPS)%num; reflexivity.
Qed.

End ShortArrays.

Lemma short_array_witness :
  (List.length [P 0 0; P 5 5] < 3)%nat
  /\ Runtime.triangleData (host := reference_host) [P 0 0; P 5 5]
       (Runtime.mkWorld [] EmptyString)
     = (Runtime.Throw "TypeError", Runtime.mkWorld [] EmptyString).
Proof.
  split; [cbn; lia|].
  apply (short_array (host := reference_host) [P 0 0; P 5 5]
           (Runtime.mkWorld [] EmptyString)).
  cbn; lia.
Defined.

(** ** The page *)

Lemma length_append (s1 s2 : string) :
  String.length (s1 ++ s2) = (String.length s1 + String.length s2)%nat.
Proof. induction s1 as [|ch s1 IH]; cbn; [reflexivity | rewrite IH; reflexivity]. Qed.

Lemma length_substring (n m : nat) (s : string) :
  String.length (substring n m s) = Nat.min m (String.length s - n).
Proof.
  revert n m. induction s as [|ch s IH]; intros n m.
  - destruct n, m; reflexivity.
  - destruct n as [|n].
    + destruct m as [|m]; [reflexivity|]. cbn. rewrite IH, Nat.sub_0_r. reflexivity.
    + cbn. apply IH.
Qed.

Lemma length_zeros (k : nat) : String.length (zeros k) = k.
Proof. induction k as [|k IH]; cbn; [reflexivity | rewrite IH; reflexivity]. Qed.

Lemma length_fixed_digits (n : N) (f : nat) :
  (f + 3 <= String.length (fixed_digits n (S f)))%nat.
Proof.
  unfold fixed_digits.
  set (m := decimal n).
  set (m' := if (String.length m <=? S f)%nat
             then (zeros (S f + 1 - String.length m) ++ m)%string else m).
  assert (Hk : (S f + 1 <= String.length m')%nat).
  { unfold m'. destruct (String.length m <=? S f)%nat eqn:E.
    - apply Nat.leb_le in E. rewrite length_append, length_zeros. lia.
    - apply Nat.leb_gt in E. lia. }
  rewrite !length_append, !length_substring. cbn [String.length]. lia.
Qed.

Section PageFacts.

Context {host : MathHost} {text : TextHost}.

Lemma state_eta (s : Page.State) :
  Page.mkState (Page.world s) (Page.outEl s) (Page.rect s) (Page.calls s) = s.
Proof. destruct s; reflexivity. Qed.

Lemma bind_normal {T U} (m : Page.UI T) (k : T -> Page.UI U)
    (s : Page.State) (v : T) (s' : Page.State) :
  m s = (Runtime.Normal v, s') -> Page.bind m k s = k v s'.
Proof. unfold Page.bind. intros ->. reflexivity. Qed.

Lemma toFixed_2 (v : number) : exists t, toFixed v 2 = Runtime.Normal t.
Proof. unfold toFixed. cbn [Z.ltb Z.compare Pos.compare Pos.compare_cont orb]. eexists; reflexivity. Qed.

Lemma fmt_default (n : option number) :
  exists t, Page.fmt n None = Runtime.Normal t.
Proof.
  unfold Page.fmt. destruct n as [v|]; [|eexists; reflexivity].
  destruct (negb (isFinite v)); [eexists; reflexivity | apply toFixed_2].
Qed.

Lemma results_text_run (sd : TriangleSides) (g : TriangleAngles)
    (p ar : option number) :
  exists t, forall s, Page.results_text sd g p ar s = (Runtime.Normal t, s).
Proof.
  unfold Page.results_text, Page.bind, Page.eval, Page.ret.
  destruct (fmt_default (Some (a sd))) as [ta ->].
  destruct (fmt_default (Some (b sd))) as [tb ->].
  destruct (fmt_default (Some (c sd))) as [tc ->].
  destruct (fmt_default (Some (A g))) as [tA ->].
  destruct (fmt_default (Some (B g))) as [tB ->].
  destruct (fmt_default (Some (C g))) as [tC ->].
  destruct (fmt_default p) as [tp ->].
  destruct (fmt_default ar) as [tr ->].
  eexists. intros s. reflexivity.
Qed.

(** *** Drawing *)

Lemma paints_ret {T} (v : T) : paints (Page.ret v).
Proof.
  intros pts r. exists v, []. intros t o c. rewrite app_nil_r. reflexivity.
Qed.

Lemma paints_bind {T U} (m : Page.UI T) (k : T -> Page.UI U) :
  paints m -> (forall v, paints (k v)) -> paints (Page.bind m k).
Proof.
  intros Hm Hk pts r.
  destruct (Hm pts r) as (v & cs1 & E1).
  destruct (Hk v pts r) as (u & cs2 & E2).
  exists u, (cs1 ++ cs2). intros t o c.
  rewrite (bind_normal _ _ _ _ _ (E1 t o c)), E2, app_assoc. reflexivity.
Qed.

Lemma paints_ctx (c : Page.Call) : paints (Page.ctx c).
Proof. intros pts r. exists tt, [c]. reflexivity. Qed.

Lemma paints_get_points : paints Page.get_points.
Proof.
  intros pts r. exists pts, []. intros t o c.
  rewrite app_nil_r. reflexivity.
Qed.

Lemma paints_toFixed_2 (n : number) : paints (Page.eval (toFixed n 2)).
Proof.
  intros pts r. destruct (toFixed_2 n) as [d E].
  exists d, []. intros t o c. unfold Page.eval. rewrite E, app_nil_r.
  reflexivity.
Qed.

Lemma engine_triangleData (pA pB pC : Pt) (s : Page.State) :
  Page.engine (Runtime.triangleData [pA; pB; pC]) s
  = (Runtime.Normal (triangleData (pA, pB, pC)), s).
Proof.
  unfold Page.engine. rewrite runtime_triangleData, state_eta. reflexivity.
Qed.

Lemma paints_engine (pA pB pC : Pt) :
  paints (Page.engine (Runtime.triangleData [pA; pB; pC])).
Proof.
  intros pts r. exists (triangleData (pA, pB, pC)), []. intros t o c.
  rewrite engine_triangleData, app_nil_r. reflexivity.
Qed.

Ltac paint :=
  repeat match goal with
  | |- paints (Page.ret _) => apply paints_ret
  | |- paints (Page.ctx _) => apply paints_ctx
  | |- paints (Page.eval (toFixed _ 2)) => apply paints_toFixed_2
  | |- paints Page.get_points => apply paints_get_points
  | |- paints (Page.engine _) => apply paints_engine
  | |- paints (Page.bind _ _) => apply paints_bind; [|intros ?]
  | |- paints (match ?t with _ => _ end) => destruct t
  end.

Lemma paints_drawPoint (p : Pt) (l : option string) : paints (Page.drawPoint p l).
Proof. unfold Page.drawPoint. paint. Qed.

Lemma paints_drawPoints (pts : list Pt) (i : nat) : paints (Page.drawPoints i pts).
Proof.
  revert i. induction pts as [|p rest IH]; intros i; cbn [Page.drawPoints].
  - apply paints_ret.
  - apply paints_bind; [apply paints_drawPoint | intros _; apply IH].
Qed.

Lemma paints_drawTriangle (pA pB pC : Pt) : paints (Page.drawTriangle pA pB pC).
Proof. unfold Page.drawTriangle. paint. Qed.

Lemma clearBoard_run (s : Page.State) :
  Page.clearBoard s
  = (Runtime.Normal tt,
     Page.mkState (Page.world s) (Page.outEl s) (Page.rect s)
       (Page.calls s ++ [Page.clearRect (of_Z 0) (of_Z 0)
                           (Page.width (Page.rect s))
                           (Page.height (Page.rect s))])).
Proof. reflexivity. Qed.

(** [draw] is [clearBoard] followed by a computation that only draws. *)
Lemma draw_scene :
  exists scene,
    Page.draw = Page.bind Page.clearBoard (fun _ => scene) /\ paints scene.
Proof.
  eexists. split; [reflexivity|].
  apply paints_bind; [apply paints_get_points | intros pts].
  apply paints_bind; [apply paints_drawPoints | intros _].
  destruct pts as [|pA [|pB [|pC [|pD rest]]]]; cbv beta zeta; paint.
  apply paints_drawTriangle.
Qed.

Lemma draw_paints (pts : list Pt) (r : Page.Rect) :
  exists cs, forall t o c,
    Page.draw (Page.mkState (Runtime.mkWorld pts t) o r c)
    = (Runtime.Normal tt,
       Page.mkState (Runtime.mkWorld pts t) o r
         (c ++ Page.clearRect (of_Z 0) (of_Z 0) (Page.width r) (Page.height r)
               :: cs)).
Proof.
  destruct draw_scene as (scene & -> & H).
  destruct (H pts r) as ([] & cs & E).
  exists cs. intros t o c.
  rewrite (bind_normal _ _ _ _ _ (clearBoard_run _)).
  cbn [Page.world Page.outEl Page.rect Page.calls].
  rewrite E, <- app_assoc. reflexivity.
Qed.

Lemma draw_run (s : Page.State) :
  exists cs,
    Page.draw s
    = (Runtime.Normal tt,
       Page.mkState (Page.world s) (Page.outEl s) (Page.rect s)
         (Page.calls s ++ Page.clearRect (of_Z 0) (of_Z 0)
                            (Page.width (Page.rect s))
                            (Page.height (Page.rect s)) :: cs)).
Proof.
  destruct (draw_paints (Runtime.points (Page.world s)) (Page.rect s))
    as [cs E].
  exists cs. destruct s as [[pts t] o r c]. apply E.
Qed.

End PageFacts.

Section HandlerSteps.

Context {host : MathHost} {text : TextHost}.

(** *** The output panel *)

Lemma shown_points (msg : string) (s : Page.State) :
  Runtime.points (Page.world (shown msg s)) = Runtime.points (Page.world s).
Proof. unfold shown. destruct (Page.outEl s); reflexivity. Qed.

Lemma shown_outEl (msg : string) (s : Page.State) :
  Page.outEl (shown msg s) = Page.outEl s.
Proof. unfold shown. destruct (Page.outEl s) eqn:O; [reflexivity | exact O]. Qed.

Lemma shown_absent (msg : string) (s : Page.State) :
  Page.outEl s = false -> shown msg s = s.
Proof. unfold shown. intros ->. reflexivity. Qed.

Lemma shown_present (msg : string) (s : Page.State) :
  Page.outEl s = true -> Runtime.textContent (Page.world (shown msg s)) = msg.
Proof. unfold shown. intros ->. reflexivity. Qed.

Lemma showStatus_run (msg : string) (s : Page.State) :
  Page.showStatus msg s = (Runtime.Normal tt, shown msg s).
Proof.
  unfold Page.showStatus, shown, Page.bind, Page.get_outEl.
  destruct (Page.outEl s) eqn:O; cbn [negb]; [|reflexivity].
  unfold Page.set_textContent. rewrite O. reflexivity.
Qed.

Lemma showError_run (msg : string) (s : Page.State) :
  Page.showError msg s = (Runtime.Normal tt, shown msg s).
Proof.
  unfold Page.showError, shown, Page.bind, Page.get_outEl.
  destruct (Page.outEl s) eqn:O; cbn [negb]; [|reflexivity].
  unfold Page.set_textContent. rewrite O. reflexivity.
Qed.

(** The result of the engine holds its sides and angles when it is
    valid, and a reason that is not the empty string when it is not. *)
Lemma engine_result (pA pB pC : Pt) :
  if valid (triangleData (pA, pB, pC))
  then exists sd g, sides (triangleData (pA, pB, pC)) = Some sd
                    /\ angles (triangleData (pA, pB, pC)) = Some g
  else exists r, reasonIfInvalid (triangleData (pA, pB, pC)) = Some r
                 /\ forall d, Page.or_default (Some r) d = r.
Proof.
  rewrite triangleData_unfold.
  destruct (anyCoincide pA pB pC); [eexists; split; reflexivity|].
  destruct (anyNonFinite pA pB pC); [eexists; split; reflexivity|].
  destruct (degenerate pA pB pC); [eexists; split; reflexivity|].
  cbv zeta. cbn [valid sides angles]. eexists; eexists; split; reflexivity.
Qed.

Lemma showResults_run (pA pB pC : Pt) (s : Page.State) :
  exists msg,
    verdict (triangleData (pA, pB, pC)) msg
    /\ Page.showResults (triangleData (pA, pB, pC)) s
       = (Runtime.Normal tt, shown msg s).
Proof.
  pose proof (engine_result pA pB pC) as H.
  unfold verdict, Page.showResults.
  set (d := triangleData (pA, pB, pC)) in *.
  destruct (valid d) eqn:V.
  - destruct H as (sd & g & Hs & Hg). rewrite Hs, Hg.
    destruct (results_text_run sd g (perimeter d) (area d)) as [t Ht].
    exists t. split; [exists sd, g; repeat split; assumption|].
    unfold shown, Page.bind at 1, Page.get_outEl.
    destruct (Page.outEl s) eqn:O; cbn [negb]; [|reflexivity].
    rewrite (bind_normal _ _ _ _ _ (Ht s)).
    unfold Page.set_textContent. rewrite O. reflexivity.
  - destruct H as (r & Hr & Hd). exists r. split; [exact Hr|].
    unfold shown, Page.bind, Page.get_outEl.
    destruct (Page.outEl s) eqn:O; cbn [negb]; [|reflexivity].
    rewrite showError_run, Hr, Hd. unfold shown. rewrite O. reflexivity.
Qed.

(** *** The handlers, step by step *)

Lemma getMousePoint_run (ev : Page.Pointer) (s : Page.State) :
  exists p, Page.getMousePoint ev s = (Runtime.Normal p, s).
Proof. eexists. reflexivity. Qed.

Lemma get_points_run (s : Page.State) :
  Page.get_points s = (Runtime.Normal (Runtime.points (Page.world s)), s).
Proof. reflexivity. Qed.

Lemma report_run (s : Page.State) (pA pB pC : Pt) (rest : list Pt) :
  exists msg,
    verdict (triangleData (pA, pB, pC)) msg
    /\ report (pA :: pB :: pC :: rest) s = (Runtime.Normal tt, shown msg s).
Proof.
  unfold report. cbn [firstn].
  rewrite (bind_normal _ _ _ _ _ (engine_triangleData pA pB pC s)).
  destruct (valid (triangleData (pA, pB, pC))) eqn:V; cbn [negb].
  - apply showResults_run.
  - pose proof (engine_result pA pB pC) as H. rewrite V in H.
    destruct H as (r & Hr & Hd). exists r. unfold verdict. rewrite V.
    split; [exact Hr|]. rewrite Hr, Hd. apply showError_run.
Qed.

Lemma place_and_draw_run (p : Pt) (s : Page.State) :
  exists cs, forall T (k : list Pt -> Page.UI T),
    place_and_draw p k s
    = k (pushed (Runtime.points (Page.world s)) p) (placed p cs s).
Proof.
  destruct (draw_run
              (Page.mkState
                 (Runtime.mkWorld (pushed (Runtime.points (Page.world s)) p)
                                  (Runtime.textContent (Page.world s)))
                 (Page.outEl s) (Page.rect s) (Page.calls s))) as [cs Hd].
  exists cs. intros T k. unfold place_and_draw.
  rewrite (bind_normal _ _ _ _ _ (get_points_run s)).
  assert (E : forall U (k' : unit -> Page.UI U),
            Page.bind (if (List.length (Runtime.points (Page.world s)) =? 3)%nat
                       then Page.set_points [] else Page.ret tt) k' s
            = k' tt (Page.mkState
                       (Runtime.mkWorld
                          (if (List.length (Runtime.points (Page.world s)) =? 3)%nat
                           then [] else Runtime.points (Page.world s))
                          (Runtime.textContent (Page.world s)))
                       (Page.outEl s) (Page.rect s) (Page.calls s))).
  { intros U k'. unfold Page.bind.
    destruct (List.length (Runtime.points (Page.world s)) =? 3)%nat;
      cbn [Page.set_points Page.ret]; [reflexivity|].
    rewrite <- (state_eta s) at 1. destruct (Page.world s); reflexivity. }
  rewrite E.
  rewrite (bind_normal _ _ _ _ _ (get_points_run _)).
  cbn [Page.world Runtime.points].
  match goal with
  | |- Page.bind (Page.set_points ?l) ?k' ?s1 = _ =>
      rewrite (bind_normal (Page.set_points l) k' s1 tt _ eq_refl)
  end.
  cbn [Page.world Page.outEl Page.rect Page.calls Runtime.points
       Runtime.textContent].
  fold (pushed (Runtime.points (Page.world s)) p).
  rewrite (bind_normal _ _ _ _ _ Hd).
  rewrite (bind_normal _ _ _ _ _ (get_points_run _)).
  reflexivity.
Qed.

Lemma handleClick_run (ev : Page.Pointer) (s : Page.State) :
  exists p cs msg,
    Page.getMousePoint ev s = (Runtime.Normal p, s)
    /\ Page.handleClick ev s = (Runtime.Normal tt, shown msg (placed p cs s))
    /\ (if (List.length (pushed (Runtime.points (Page.world s)) p) <? 3)%nat
        then msg = status_text
                     (List.length (pushed (Runtime.points (Page.world s)) p))
        else exists pA pB pC rest,
               pushed (Runtime.points (Page.world s)) p = pA :: pB :: pC :: rest
               /\ verdict (triangleData (pA, pB, pC)) msg).
Proof.
  destruct (getMousePoint_run ev s) as [p Hp]. exists p.
  destruct (place_and_draw_run p s) as [cs E]. exists cs.
  unfold Page.handleClick.
  rewrite (bind_normal _ _ _ _ _ Hp).
  unfold place_and_draw in E. rewrite E. clear E.
  destruct (List.length (pushed (Runtime.points (Page.world s)) p) <? 3)%nat eqn:L.
  - eexists. split; [exact Hp|]. split; [apply showStatus_run | reflexivity].
  - apply Nat.ltb_ge in L.
    destruct (pushed (Runtime.points (Page.world s)) p)
      as [|pA [|pB [|pC rest]]] eqn:Q; cbn [List.length] in L; try lia.
    destruct (report_run (placed p cs s) pA pB pC rest) as (msg & V & R).
    exists msg. split; [exact Hp|]. split; [exact R|].
    exists pA, pB, pC, rest. split; [reflexivity | exact V].
Qed.

Lemma handleTouch_run (t : Page.Pointer) (ts : list Page.Pointer)
    (s : Page.State) :
  exists p cs msg,
    Page.getMousePoint t s = (Runtime.Normal p, s)
    /\ Page.handleTouch (t :: ts) s
       = (Runtime.Normal tt, shown msg (placed p cs s))
    /\ (if (List.length (pushed (Runtime.points (Page.world s)) p) =? 3)%nat
        then exists pA pB pC,
               pushed (Runtime.points (Page.world s)) p = [pA; pB; pC]
               /\ verdict (triangleData (pA, pB, pC)) msg
        else msg = status_text
                     (List.length (pushed (Runtime.points (Page.world s)) p))).
Proof.
  destruct (getMousePoint_run t s) as [p Hp]. exists p.
  destruct (place_and_draw_run p s) as [cs E]. exists cs.
  unfold Page.handleTouch.
  cbn [List.length nth_error Nat.ltb Nat.leb].
  rewrite (bind_normal _ _ _ _ _ Hp).
  unfold place_and_draw in E. rewrite E. clear E.
  destruct (List.length (pushed (Runtime.points (Page.world s)) p) =? 3)%nat eqn:L.
  - apply Nat.eqb_eq in L.
    destruct (pushed (Runtime.points (Page.world s)) p)
      as [|pA [|pB [|pC [|pD rest]]]] eqn:Q; cbn [List.length] in L; try lia.
    destruct (report_run (placed p cs s) pA pB pC []) as (msg & V & R).
    exists msg. split; [exact Hp|]. split; [exact R|].
    exists pA, pB, pC. split; [reflexivity | exact V].
  - eexists. split; [exact Hp|]. split; [apply showStatus_run | reflexivity].
Qed.

Lemma clearOutput_run (s : Page.State) :
  Page.clearOutput s
  = (Runtime.Normal tt, shown "אפסנו… סמנו שלוש נקודות חדשות 🙂" s).
Proof.
  unfold Page.clearOutput, shown, Page.bind, Page.get_outEl.
  destruct (Page.outEl s) eqn:O; cbn [negb]; [|reflexivity].
  unfold Page.set_textContent. rewrite O. reflexivity.
Qed.

Lemma pushed_length (pts : list Pt) (p : Pt) :
  List.length (pushed pts p)
  = if (List.length pts =? 3)%nat then 1%nat else S (List.length pts).
Proof.
  unfold pushed. rewrite length_app.
  destruct (List.length pts =? 3)%nat; cbn [List.length]; lia.
Qed.

(** What every listener leaves in place. *)
Lemma dispatch_run (e : Page.Event) (s : Page.State) :
  exists s',
    Page.dispatch e s = (Runtime.Normal tt, s')
    /\ Page.outEl s' = Page.outEl s
    /\ ((List.length (Runtime.points (Page.world s)) <= 3)%nat ->
        (List.length (Runtime.points (Page.world s')) <= 3)%nat)
    /\ (Page.outEl s = false ->
        Runtime.textContent (Page.world s') = Runtime.textContent (Page.world s)).
Proof.
  unfold Page.dispatch.
  set (s1 := Page.mkState (Page.world s) (Page.outEl s) (Page.bounds e) (Page.calls s)).
  assert (Hbuf : forall p, (List.length (Runtime.points (Page.world s)) <= 3)%nat ->
            (List.length (pushed (Runtime.points (Page.world s1)) p) <= 3)%nat).
  { intros p H. rewrite pushed_length. unfold s1. cbn [Page.world].
    destruct (List.length (Runtime.points (Page.world s)) =? 3)%nat eqn:E; [lia|].
    apply Nat.eqb_neq in E. lia. }
  destruct (Page.action e) as [ev|[|t ts]|].
  - destruct (handleClick_run ev s1) as (p & cs & msg & _ & E & _).
    eexists. split; [exact E|]. rewrite shown_outEl, shown_points.
    split; [reflexivity|]. split; [apply Hbuf|].
    intros O. rewrite shown_absent by exact O. reflexivity.
  - exists s1. repeat split; auto.
  - destruct (handleTouch_run t ts s1) as (p & cs & msg & _ & E & _).
    eexists. split; [exact E|]. rewrite shown_outEl, shown_points.
    split; [reflexivity|]. split; [apply Hbuf|].
    intros O. rewrite shown_absent by exact O. reflexivity.
  - unfold Page.handleReset.
    match goal with
    | |- context [Page.bind (Page.set_points []) _ s1] =>
        rewrite (bind_normal (Page.set_points []) _ s1 tt _ eq_refl)
    end.
    rewrite (bind_normal _ _ _ _ _ (clearOutput_run _)).
    match goal with
    | |- context [Page.draw ?s2] => destruct (draw_run s2) as [cs Hd]; rewrite Hd
    end.
    eexists. split; [reflexivity|].
    cbn [Page.outEl Page.world]. rewrite shown_outEl, shown_points.
    split; [reflexivity|]. split; [cbn; lia|].
    intros O. rewrite shown_absent by exact O. reflexivity.
Qed.

End HandlerSteps.

Section PageProperties.

Context {host : MathHost} {text : TextHost}.

(** X8: the listeners never throw: whatever the state of the page and
    the event, [handleClick], [handleTouch] and [handleReset] complete
    normally; the engine is never handed an array that is too short. *)
Theorem listeners_never_throw (e : Page.Event) (s : Page.State) :
  fst (Page.dispatch e s) = Runtime.Normal tt.
Proof.
  destruct (dispatch_run e s) as (s' & E & _). rewrite E. reflexivity.
Qed.

(** X9: a buffer of at most three points holds at most three points
    after any sequence of clicks, touches and resets. *)
Theorem buffer_holds_three (events : list Page.Event) (s : Page.State) :
  (List.length (Runtime.points (Page.world s)) <= 3)%nat ->
  (List.length (Runtime.points (Page.world (Page.run events s))) <= 3)%nat.
Proof.
  revert s. induction events as [|e rest IH]; intros s H; [exact H|].
  cbn [Page.run fold_left]. apply IH.
  destruct (dispatch_run e s) as (s' & E & _ & B & _).
  rewrite E. apply B, H.
Qed.

(** X10: the third click shows the verdict of the engine on the three
    points in the order they were clicked: the reason it gives, or the
    block of results; the text kept for an invalid result without a
    reason is never shown. *)
Theorem third_click (ev : Page.Pointer) (s : Page.State) (pA pB : Pt) :
  Runtime.points (Page.world s) = [pA; pB] ->
  Page.outEl s = true ->
  exists pC s',
    Page.getMousePoint ev s = (Runtime.Normal pC, s)
    /\ Page.handleClick ev s = (Runtime.Normal tt, s')
    /\ Runtime.points (Page.world s') = [pA; pB; pC]
    /\ verdict (triangleData (pA, pB, pC))
               (Runtime.textContent (Page.world s')).
Proof.
  intros Hp O.
  destruct (handleClick_run ev s) as (pC & cs & msg & G & E & V).
  rewrite Hp in V. unfold pushed in V.
  cbn [List.length Nat.eqb app Nat.ltb Nat.leb] in V.
  destruct V as (qA & qB & qC & rest & Q & V).
  injection Q as <- <- <- <-.
  exists pC, (shown msg (placed pC cs s)).
  split; [exact G|]. split; [exact E|].
  rewrite shown_points, shown_present by exact O.
  split; [|exact V].
  unfold placed. cbn [Page.world Runtime.points]. rewrite Hp. reflexivity.
Qed.

(** X11: a click on a buffer that holds no, one or three points leaves
    one or two points in it (three points are dropped first) and shows
    how many there are. *)
Theorem click_counts (ev : Page.Pointer) (s : Page.State) :
  (List.length (Runtime.points (Page.world s)) <= 3)%nat ->
  List.length (Runtime.points (Page.world s)) <> 2%nat ->
  Page.outEl s = true ->
  exists p s',
    Page.getMousePoint ev s = (Runtime.Normal p, s)
    /\ Page.handleClick ev s = (Runtime.Normal tt, s')
    /\ Runtime.points (Page.world s')
       = pushed (Runtime.points (Page.world s)) p
    /\ (List.length (Runtime.points (Page.world s')) < 3)%nat
    /\ Runtime.textContent (Page.world s')
       = status_text (List.length (Runtime.points (Page.world s'))).
Proof.
  intros H3 H2 O.
  destruct (handleClick_run ev s) as (p & cs & msg & G & E & V).
  assert (L : (List.length (pushed (Runtime.points (Page.world s)) p) < 3)%nat).
  { rewrite pushed_length.
    destruct (List.length (Runtime.points (Page.world s)) =? 3)%nat eqn:Q; [lia|].
    apply Nat.eqb_neq in Q. lia. }
  apply Nat.ltb_lt in L. rewrite L in V. apply Nat.ltb_lt in L.
  exists p, (shown msg (placed p cs s)).
  split; [exact G|]. split; [exact E|].
  rewrite shown_points, shown_present by exact O.
  unfold placed at 1 2 3. cbn [Page.world Runtime.points].
  split; [reflexivity|]. split; [exact L | exact V].
Qed.

(** X12: on a buffer of at most three points a touch acts as a click at
    its first touch point. *)
Theorem touch_is_click (t : Page.Pointer) (ts : list Page.Pointer)
    (s : Page.State) :
  (List.length (Runtime.points (Page.world s)) <= 3)%nat ->
  Page.handleTouch (t :: ts) s = Page.handleClick t s.
Proof.
  intros H.
  destruct (getMousePoint_run t s) as [p Hp].
  unfold Page.handleTouch, Page.handleClick.
  cbn [List.length nth_error Nat.ltb Nat.leb].
  rewrite !(bind_normal _ _ _ _ _ Hp).
  destruct (place_and_draw_run p s) as [cs E].
  unfold place_and_draw in E. rewrite !E. clear E.
  pose proof (pushed_length (Runtime.points (Page.world s)) p) as L.
  destruct (List.length (pushed (Runtime.points (Page.world s)) p) =? 3)%nat eqn:Q3.
  - apply Nat.eqb_eq in Q3. rewrite Q3. reflexivity.
  - apply Nat.eqb_neq in Q3.
    destruct (List.length (Runtime.points (Page.world s)) =? 3)%nat eqn:Q;
      [|apply Nat.eqb_neq in Q];
      match goal with
      | |- _ = (if ?t then _ else _) _ => destruct t eqn:L2; [reflexivity|]
      end;
      apply Nat.leb_gt in L2; lia.
Qed.

(** X13: a reset empties the buffer, puts the hint into the output
    element if there is one, and leaves a cleared board: the one call it
    makes on the context is [clearRect] on the whole canvas. *)
Theorem reset_clears (s : Page.State) :
  Page.handleReset s
  = (Runtime.Normal tt,
     Page.mkState
       (Runtime.mkWorld []
          (if Page.outEl s
           then "אפסנו… סמנו שלוש נקודות חדשות 🙂"%string
           else Runtime.textContent (Page.world s)))
       (Page.outEl s) (Page.rect s)
       (Page.calls s ++ [Page.clearRect (of_Z 0) (of_Z 0)
                           (Page.width (Page.rect s))
                           (Page.height (Page.rect s))])).
Proof.
  unfold Page.handleReset, Page.clearOutput, Page.draw, Page.clearBoard,
    Page.bind, Page.set_points, Page.get_outEl, Page.get_points,
    Page.getBoundingClientRect, Page.ctx, Page.set_textContent, Page.ret.
  cbn [Page.world Page.outEl Page.rect Page.calls Runtime.points
       Runtime.textContent].
  destruct (Page.outEl s); reflexivity.
Qed.

(** X14: [draw] never throws and only draws: points and text stay as
    they are; its first call clears the whole canvas, and the calls it
    makes depend on the points and the rectangle of the canvas alone: the
    same calls [cs] are made whatever the text shown, whether or not there
    is an output element, and whatever was drawn before. *)
Theorem draw_only_draws (pts : list Pt) (r : Page.Rect) :
  exists cs, forall (shown_text : string) (out : bool)
                    (before : list Page.Call),
    Page.draw (Page.mkState (Runtime.mkWorld pts shown_text) out r before)
    = (Runtime.Normal tt,
       Page.mkState (Runtime.mkWorld pts shown_text) out r
         (before ++ Page.clearRect (of_Z 0) (of_Z 0)
                      (Page.width r) (Page.height r) :: cs)).
Proof. exact (draw_paints pts r). Qed.

(** X15: when the page has no output element, no sequence of events
    changes the text: every function of [ui.ts] returns at once. *)
Theorem no_output_element (events : list Page.Event) (s : Page.State) :
  Page.outEl s = false ->
  Runtime.textContent (Page.world (Page.run events s))
  = Runtime.textContent (Page.world s).
Proof.
  revert s. induction events as [|e rest IH]; intros s O; [reflexivity|].
  cbn [Page.run fold_left].
  destruct (dispatch_run e s) as (s' & E & O' & _ & T).
  rewrite E. cbn [snd].
  change (Runtime.textContent (Page.world (Page.run rest s'))
          = Runtime.textContent (Page.world s)).
  rewrite IH by congruence. apply T, O.
Qed.

(** X16: [showResults] on a result of the engine shows its verdict, the
    block of results or the reason of the engine, and never the text
    "Invalid triangle."; it leaves the points and the canvas alone. *)
Theorem showResults_of_engine (pA pB pC : Pt) (s : Page.State) :
  exists msg,
    verdict (triangleData (pA, pB, pC)) msg
    /\ Page.showResults (triangleData (pA, pB, pC)) s
       = (Runtime.Normal tt, shown msg s).
Proof. apply showResults_run. Qed.

Lemma toFixed_2_length (s : bool) (m : positive) (e : Z) :
  at_least_1e21 m e = false ->
  exists t, toFixed (S754_finite s m e) 2 = Runtime.Normal t
            /\ (4 <= String.length t)%nat.
Proof.
  intros Hb. unfold toFixed.
  change ((2 <? 0) || (100 <? 2)) with false. cbv iota.
  rewrite Hb. eexists. split; [reflexivity|].
  rewrite length_append. change (Z.to_nat 2) with 2%nat.
  pose proof (length_fixed_digits (nearest_scaled m e 2) 1) as L. lia.
Qed.

(** X17: for a number of magnitude below 1e21, [fmt] gives the dash
    exactly when the number is not finite. *)
Theorem fmt_dash (v : number) :
  below_1e21 v = true ->
  (Page.fmt (Some v) None = Runtime.Normal "—"%string
   <-> isFinite v = false).
Proof.
  intros Hb. unfold Page.fmt.
  destruct v as [s| s| |s m e]; cbn [isFinite negb];
    try (split; reflexivity).
  - split; [|discriminate]. intros H. vm_compute in H. discriminate H.
  - split; [|discriminate]. intros H. exfalso.
    unfold below_1e21 in Hb. apply negb_true_iff in Hb.
    destruct (toFixed_2_length s m e Hb) as (t & E & L).
    rewrite E in H. injection H as ->.
    vm_compute in L. lia.
Qed.

End PageProperties.

Lemma buffer_holds_three_witness :
  (List.length (Runtime.points (Page.world (blank true))) <= 3)%nat
  /\ (List.length
        (Runtime.points
           (Page.world
              (Page.run (host := reference_host) (text := all_digits)
                 [click_at 10 20; click_at 14 20; click_at 10 23; click_at 50 60]
                 (blank true)))) <= 3)%nat.
Proof.
  split; [cbn; lia|].
  apply (buffer_holds_three (host := reference_host) (text := all_digits)).
  cbn; lia.
Defined.

Lemma third_click_witness :
  Runtime.points
    (Page.world (Page.mkState (Runtime.mkWorld [P 0 0; P 4 0] EmptyString) true
                   (Page.mkRect (of_Z 10) (of_Z 20) (of_Z 600) (of_Z 400)) []))
  = [P 0 0; P 4 0]
  /\ exists pC s',
       Page.getMousePoint
         (Page.mkPointer (Some (of_Z 10)) (Some (of_Z 23)))
         (Page.mkState (Runtime.mkWorld [P 0 0; P 4 0] EmptyString) true
            (Page.mkRect (of_Z 10) (of_Z 20) (of_Z 600) (of_Z 400)) [])
       = (Runtime.Normal pC,
          Page.mkState (Runtime.mkWorld [P 0 0; P 4 0] EmptyString) true
            (Page.mkRect (of_Z 10) (of_Z 20) (of_Z 600) (of_Z 400)) [])
       /\ Page.handleClick (host := reference_host) (text := all_digits)
            (Page.mkPointer (Some (of_Z 10)) (Some (of_Z 23)))
            (Page.mkState (Runtime.mkWorld [P 0 0; P 4 0] EmptyString) true
               (Page.mkRect (of_Z 10) (of_Z 20) (of_Z 600) (of_Z 400)) [])
          = (Runtime.Normal tt, s')
       /\ Runtime.points (Page.world s') = [P 0 0; P 4 0; pC]
       /\ verdict (host := reference_host) (text := all_digits)
            (triangleData (host := reference_host) (P 0 0, P 4 0, pC))
            (Runtime.textContent (Page.world s')).
Proof.
  split; [reflexivity|].
  apply (third_click (host := reference_host) (text := all_digits));
    reflexivity.
Defined.

Lemma click_counts_witness :
  (List.length (Runtime.points (Page.world (blank true))) <= 3)%nat
  /\ exists p s',
       Page.getMousePoint (Page.mkPointer (Some (of_Z 10)) (Some (of_Z 23)))
         (blank true) = (Runtime.Normal p, blank true)
       /\ Page.handleClick (host := reference_host) (text := all_digits)
            (Page.mkPointer (Some (of_Z 10)) (Some (of_Z 23))) (blank true)
          = (Runtime.Normal tt, s')
       /\ Runtime.points (Page.world s')
          = pushed (Runtime.points (Page.world (blank true))) p
       /\ (List.length (Runtime.points (Page.world s')) < 3)%nat
       /\ Runtime.textContent (Page.world s')
          = status_text (List.length (Runtime.points (Page.world s'))).
Proof.
  split; [cbn; lia|].
  apply (click_counts (host := reference_host) (text := all_digits));
    [cbn; lia | cbn; lia | reflexivity].
Defined.

Lemma touch_is_click_witness :
  (List.length (Runtime.points (Page.world (blank true))) <= 3)%nat
  /\ Page.handleTouch (host := reference_host) (text := all_digits)
       [Page.mkPointer (Some (of_Z 10)) (Some (of_Z 23))] (blank true)
     = Page.handleClick (host := reference_host) (text := all_digits)
         (Page.mkPointer (Some (of_Z 10)) (Some (of_Z 23))) (blank true).
Proof.
  split; [cbn; lia|].
  apply (touch_is_click (host := reference_host) (text := all_digits)).
  cbn; lia.
Defined.

Lemma no_output_element_witness :
  Page.outEl (blank false) = false
  /\ Runtime.textContent
       (Page.world
          (Page.run (host := reference_host) (text := all_digits)
             [click_at 10 20; click_at 14 20; click_at 10 23] (blank false)))
     = Runtime.textContent (Page.world (blank false)).
Proof.
  split; [reflexivity|].
  apply (no_output_element (host := reference_host) (text := all_digits)).
  reflexivity.
Defined.

Lemma fmt_dash_witness :
  below_1e21 Infinity = true
  /\ (Page.fmt (text := all_digits) (Some Infinity) None
      = Runtime.Normal "—"%string
      <-> isFinite Infinity = false).
Proof.
  split; [reflexivity|].
  apply (fmt_dash (text := all_digits) Infinity). reflexivity.
Defined.

(** ** Clicks in a row *)

Lemma cycle_step (k : nat) :
  (if (1 + k mod 3 =? 3)%nat then 1%nat else S (1 + k mod 3))
  = (1 + S k mod 3)%nat.
Proof.
  pose proof (Nat.mod_upper_bound k 3 ltac:(lia)) as Hk.
  pose proof (Nat.div_mod_eq k 3) as Dk.
  pose proof (Nat.mod_upper_bound (S k) 3 ltac:(lia)) as HS.
  pose proof (Nat.div_mod_eq (S k) 3) as DS.
  destruct (1 + k mod 3 =? 3)%nat eqn:E.
  - apply Nat.eqb_eq in E. lia.
  - apply Nat.eqb_neq in E. lia.
Qed.

Section Clicks.

Context {host : MathHost} {text : TextHost}.

Lemma click_length (e : Page.Event) (s : Page.State) :
  is_click e = true ->
  List.length (Runtime.points (Page.world (snd (Page.dispatch e s))))
  = if (List.length (Runtime.points (Page.world s)) =? 3)%nat
    then 1%nat else S (List.length (Runtime.points (Page.world s))).
Proof.
  unfold is_click, Page.dispatch.
  destruct (Page.action e) as [ev| |]; try discriminate. intros _.
  match goal with
  | |- context [Page.handleClick ev ?s1] =>
      destruct (handleClick_run ev s1) as (p & cs & msg & _ & E & _)
  end.
  rewrite E. cbn [snd]. rewrite shown_points.
  unfold placed. cbn [Page.world Runtime.points].
  apply pushed_length.
Qed.

(** X19: on an empty buffer, clicks fill the buffer in turns of three:
    after [n + 1] clicks it holds [1 + n mod 3] points, so every third
    click completes a triangle and the next one starts over. *)
Theorem clicks_cycle (events : list Page.Event) (e : Page.Event)
    (s : Page.State) :
  Runtime.points (Page.world s) = [] ->
  forallb is_click (events ++ [e]) = true ->
  List.length (Runtime.points (Page.world (Page.run (events ++ [e]) s)))
  = (1 + List.length events mod 3)%nat.
Proof.
  intros H0. revert e.
  induction events as [|e' rest IH] using rev_ind; intros e Hc.
  - cbn [app Page.run fold_left List.length].
    cbn in Hc. rewrite andb_true_r in Hc.
    rewrite (click_length e s Hc), H0. reflexivity.
  - rewrite forallb_app in Hc. apply andb_true_iff in Hc as [Hr He].
    cbn in He. rewrite andb_true_r in He.
    unfold Page.run. rewrite fold_left_app. cbn [fold_left].
    rewrite (click_length e _ He).
    change (fold_left (fun s0 e0 => snd (Page.dispatch e0 s0)) (rest ++ [e']) s)
      with (Page.run (rest ++ [e']) s).
    rewrite (IH e' Hr), length_app. cbn [List.length].
    replace (List.length rest + 1)%nat with (S (List.length rest)) by lia.
    apply cycle_step.
Qed.

End Clicks.

Lemma clicks_cycle_witness :
  Runtime.points (Page.world (blank true)) = []
  /\ forallb is_click
       ([click_at 10 20; click_at 14 20; click_at 10 23] ++ [click_at 50 60])
     = true
  /\ List.length
       (Runtime.points
          (Page.world
             (Page.run (host := reference_host) (text := all_digits)
                ([click_at 10 20; click_at 14 20; click_at 10 23]
                 ++ [click_at 50 60]) (blank true))))
     = (1 + List.length [click_at 10 20; click_at 14 20; click_at 10 23] mod 3)%nat.
Proof.
  split; [reflexivity|]. split; [reflexivity|].
  apply (clicks_cycle (host := reference_host) (text := all_digits));
    reflexivity.
Defined.
